(** * Silence_Remover: detection trace parsing, segment planning, filter-graph
      synthesis and the tier-gated job lifecycle

    A shallow embedding of [backend/remsi_integration.py],
    [backend/video_processor.py] and the two Celery tasks of [backend/main.py],
    together with the properties of the written specification that concern
    them.

    Conventions of the embedding.
    - Time stamps are Python floats in the source.  The code only compares
      them and prints them; it never adds or multiplies them.  They are
      modelled as exact rationals [Q]; the literal [0.1] is [1 # 10].
    - Text is [string] (ASCII).
    - An exception is a value of [exn]; a computation that may raise returns
      [A + exn].
    - External programs (ffmpeg, ffprobe, the transcription model, the file
      system) are the fields of a [world] record; every call is appended to a
      trace so that "which tool ran, and how often" can be stated. *)

From Stdlib Require Import List String Ascii QArith ZArith Lia Lqa Sorted DecimalString.
From stdpp Require Import base gmap strings.
Import ListNotations.
Open Scope string_scope.
Open Scope list_scope.

(** ** Python runtime pieces used by the source *)

Module Py.

(** Exceptions.  [ValueError], [IndexError], [UnboundLocalError] and
    [KeyError] are the built-in ones the source can raise; [ExternalError] stands for whatever an
    external collaborator raises ([OSError] from [subprocess], [ffmpeg.Error],
    a failure inside the transcription model), [CalledProcessError] is raised
    by [subprocess.run(..., check=True)], and [Exception_] is the plain
    [Exception(msg)] the source raises itself. *)
Inductive exn : Type :=
| ValueError (msg : string)
| IndexError (msg : string)
| UnboundLocalError (msg : string)
| KeyError (key : string)
| ExternalError (msg : string)
| CalledProcessError (cmd : list string) (returncode : Z)
| Exception_ (msg : string).

Definition result (A : Type) : Type := (A + exn)%type.
Definition Ok {A} (a : A) : result A := inl a.
Definition Raise {A} (e : exn) : result A := inr e.

(** The two renderings that belong to the interpreter rather than to the
    repository: [repr] of a float, as an f-string inserts it, and [str] of a
    [CalledProcessError]. *)
Record runtime : Type := mkRuntime {
  repr_float : Q -> string;
  str_called_process_error : list string -> Z -> string
}.

(** [str(e)]. *)
Definition str_exn (rt : runtime) (e : exn) : string :=
  match e with
  | ValueError msg => msg
  | IndexError msg => msg
  | UnboundLocalError msg => msg
  | KeyError key => "'" +:+ key +:+ "'"
  | ExternalError msg => msg
  | CalledProcessError cmd rc => str_called_process_error rt cmd rc
  | Exception_ msg => msg
  end.

Definition newline : ascii := "010"%char.

Definition is_digit (c : ascii) : bool :=
  let n := nat_of_ascii c in (48 <=? n)%nat && (n <=? 57)%nat.

(** [c in string.whitespace], extended with the four separators U+001C..U+001F
    that [str.isspace] also accepts. *)
Definition is_space (c : ascii) : bool :=
  let n := nat_of_ascii c in
  (n =? 32)%nat || ((9 <=? n)%nat && (n <=? 13)%nat) || ((28 <=? n)%nat && (n <=? 31)%nat).

(** [s.split(c)] for a one-character separator: never returns the empty list. *)
Fixpoint split_char (c : ascii) (s : string) : list string :=
  match s with
  | EmptyString => [EmptyString]
  | String a r =>
      if Ascii.eqb a c then EmptyString :: split_char c r
      else match split_char c r with
           | h :: t => String a h :: t
           | [] => [String a EmptyString]
           end
  end.

(** [s.startswith(p)], returning the remainder after [p]. *)
Fixpoint strip_prefix (p s : string) : option string :=
  match p, s with
  | EmptyString, _ => Some s
  | String a p', String b s' => if Ascii.eqb a b then strip_prefix p' s' else None
  | String _ _, EmptyString => None
  end.

(** [sub in s]. *)
Fixpoint contains (sub s : string) : bool :=
  match strip_prefix sub s with
  | Some _ => true
  | None => match s with
            | EmptyString => false
            | String _ r => contains sub r
            end
  end.

(** [s.split(sep)] for a non-empty separator string.  [skip] counts the
    characters of a separator occurrence that are still to be dropped, so
    [split_from sep skip s] is the list of pieces of [s] without its first
    [skip] characters. *)
Fixpoint split_from (sep : string) (skip : nat) (s : string) : list string :=
  match s with
  | EmptyString => [EmptyString]
  | String a r =>
      match skip with
      | S k => split_from sep k r
      | O =>
          match strip_prefix sep s with
          | Some _ => EmptyString :: split_from sep (String.length sep - 1) r
          | None =>
              match split_from sep 0 r with
              | h :: t => String a h :: t
              | [] => [String a EmptyString]
              end
          end
      end
  end.

Definition split_str (sep s : string) : list string := split_from sep 0 s.

(** [s.split()]: the maximal runs of non-whitespace characters.
    [ws_tokens s] is the run that starts [s] (possibly empty) and the runs
    after it. *)
Fixpoint ws_tokens (s : string) : string * list string :=
  match s with
  | EmptyString => (EmptyString, [])
  | String a r =>
      let (h, t) := ws_tokens r in
      if is_space a
      then (EmptyString, if String.eqb h EmptyString then t else h :: t)
      else (String a h, t)
  end.

Definition split_ws (s : string) : list string :=
  let (h, t) := ws_tokens s in
  if String.eqb h EmptyString then t else h :: t.

(** [l[i]] on a list. *)
Definition index {A} (l : list A) (i : nat) : result A :=
  match nth_error l i with
  | Some a => Ok a
  | None => Raise (IndexError "list index out of range")
  end.

Fixpoint lstrip (s : string) : string :=
  match s with
  | EmptyString => EmptyString
  | String a r => if is_space a then lstrip r else s
  end.

Fixpoint rstrip (s : string) : string :=
  match s with
  | EmptyString => EmptyString
  | String a r =>
      let r' := rstrip r in
      if is_space a && String.eqb r' EmptyString then EmptyString else String a r'
  end.

Definition strip (s : string) : string := rstrip (lstrip s).

(** [sep.join(parts)]. *)
Fixpoint join (sep : string) (parts : list string) : string :=
  match parts with
  | [] => EmptyString
  | [p] => p
  | p :: rest => p +:+ sep +:+ join sep rest
  end.

(** [str(i)] for a non-negative [int]. *)
Definition str_of_nat (n : nat) : string := NilZero.string_of_uint (Nat.to_uint n).

(** [float(s)] on plain decimal literals: surrounding whitespace is removed,
    then an optional sign, then digits with at most one dot and at least one
    digit.  The value is exact and kept in lowest terms.  Anything else is a
    [ValueError].  Exponents, underscores, [inf] and [nan] are not modelled:
    the strings the regular expressions of [RemsiProcessor] capture consist of
    digits and dots only, for which this definition is complete. *)
Fixpoint scan_decimal (s : string) (mant : Z) (scale : option positive)
    (seen_digit : bool) : option Q :=
  match s with
  | EmptyString =>
      if seen_digit
      then Some (Qred (mant # match scale with Some k => k | None => 1 end))
      else None
  | String c r =>
      if Ascii.eqb c "."%char
      then match scale with
           | None => scan_decimal r mant (Some 1%positive) seen_digit
           | Some _ => None
           end
      else if is_digit c
      then scan_decimal r (mant * 10 + (Z.of_nat (nat_of_ascii c) - 48))%Z
             (option_map (Pos.mul 10) scale) true
      else None
  end.

Definition parse_float (s : string) : option Q :=
  match strip s with
  | String "-" r => option_map Qopp (scan_decimal r 0 None false)
  | String "+" r => scan_decimal r 0 None false
  | t => scan_decimal t 0 None false
  end.

Definition float (s : string) : result Q :=
  match parse_float s with
  | Some q => Ok q
  | None => Raise (ValueError ("could not convert string to float: '" +:+ s +:+ "'"))
  end.

(** [posixpath.basename], [posixpath.dirname] and [posixpath.join] (two
    arguments). *)
Fixpoint basename (p : string) : string :=
  match p with
  | EmptyString => EmptyString
  | String a r =>
      if contains "/" r then basename r
      else if Ascii.eqb a "/"%char then r else p
  end.

Fixpoint all_slashes (s : string) : bool :=
  match s with
  | EmptyString => true
  | String a r => Ascii.eqb a "/"%char && all_slashes r
  end.

Fixpoint rstrip_slashes (s : string) : string :=
  match s with
  | EmptyString => EmptyString
  | String a r =>
      let r' := rstrip_slashes r in
      if Ascii.eqb a "/"%char && String.eqb r' EmptyString then EmptyString
      else String a r'
  end.

(** [head = p[:p.rfind('/') + 1]]. *)
Fixpoint path_head (p : string) : string :=
  match p with
  | EmptyString => EmptyString
  | String a r =>
      if contains "/" r then String a (path_head r)
      else if Ascii.eqb a "/"%char then "/" else EmptyString
  end.

Definition dirname (p : string) : string :=
  let head := path_head p in
  if all_slashes head then head else rstrip_slashes head.

Definition path_join (a b : string) : string :=
  match strip_prefix "/" b with
  | Some _ => b
  | None =>
      if String.eqb a EmptyString then b
      else if String.eqb (substring (String.length a - 1) 1 a) "/" then a +:+ b
      else a +:+ "/" +:+ b
  end.

End Py.

Import Py.

(** ** [models.py]: the job record *)

Module Models.

Inductive JobStatus : Type := PENDING | PROCESSING | COMPLETED | FAILED.

(** The columns of [Job].  The primary key [id] is the key under which the row
    is stored in the table; the two time-stamp columns, which the database
    maintains by itself, are left out. *)
Record Job : Type := mkJob {
  user_id : Z;
  filename : string;
  file_size : Z;
  use_premium : bool;
  status : JobStatus;
  processed_file_url : option string;
  error_message : option string
}.

Definition set_status (v : JobStatus) (j : Job) : Job :=
  mkJob (user_id j) (filename j) (file_size j) (use_premium j) v
        (processed_file_url j) (error_message j).

Definition set_processed_file_url (v : string) (j : Job) : Job :=
  mkJob (user_id j) (filename j) (file_size j) (use_premium j) (status j)
        (Some v) (error_message j).

Definition set_error_message (v : string) (j : Job) : Job :=
  mkJob (user_id j) (filename j) (file_size j) (use_premium j) (status j)
        (processed_file_url j) (Some v).

End Models.

Import Models.

(** ** The environment: external tools, the job table, the call trace *)

Module Sys.

(** How a [subprocess.run] ends: the program could not be started, or it ran
    and exited with a return code, leaving the captured output. *)
Inductive proc_outcome : Type :=
| SpawnError (msg : string)
| Completed (returncode : Z) (stdout : string).

(** One entry per call that leaves the Python process. *)
Inductive event : Type :=
| EvProbe (path : string)                 (* ffmpeg.probe(path) *)
| EvRun (cmd : list string)               (* subprocess.run(cmd, ...) *)
| EvLoadModel (name : string)             (* whisper.load_model(name) *)
| EvExtractAudio (src dst : string)       (* ffmpeg.input(src).output(dst, ...).run(...) *)
| EvTranscribe (audio : string)           (* model.transcribe(audio) *)
| EvExists (path : string)                (* os.path.exists(path) *)
| EvRemove (path : string).               (* os.remove(path) *)

(** A time-stamped segment of the transcription result; [None] stands for a
    missing key. *)
Record segment : Type := mkSegment {
  seg_start : option Q;
  seg_end : option Q
}.

(** The answers of the collaborators.
    - [ffmpeg_probe p]: the ['streams'] list of the probe result, each stream
      given by its ['duration'] entry if it has one; or the exception raised.
    - [transcribe a]: [result.get('segments', [])] of the model's answer. *)
Record world : Type := mkWorld {
  ffmpeg_probe : string -> result (list (option string));
  subprocess_run : list string -> proc_outcome;
  whisper_load_model : string -> result unit;
  ffmpeg_extract_audio : string -> string -> result unit;
  whisper_transcribe : string -> result (list segment);
  os_path_exists : string -> bool;
  os_remove : string -> result unit
}.

(** What changes while tasks run: the [jobs] table, the trace of external
    calls, and whether the lazily loaded transcription model of the
    [VideoProcessor] singleton is present. *)
Record state : Type := mkState {
  jobs : gmap string Job;
  trace : list event;
  whisper_model : bool
}.

Definition M (A : Type) : Type := state -> result A * state.

Definition ret {A} (a : A) : M A := fun s => (Ok a, s).

Definition bind {A B} (m : M A) (k : A -> M B) : M B :=
  fun s => match m s with
           | (inl a, s') => k a s'
           | (inr e, s') => (inr e, s')
           end.

Definition raise {A} (e : exn) : M A := fun s => (Raise e, s).

Definition lift {A} (r : result A) : M A := fun s => (r, s).

(** [try: body except Exception as e: handler(e)]. *)
Definition try_except {A} (body : M A) (handler : exn -> M A) : M A :=
  fun s => match body s with
           | (inl a, s') => (inl a, s')
           | (inr e, s') => handler e s'
           end.

Definition emit (ev : event) : M unit :=
  fun s => (Ok tt, mkState (jobs s) (trace s ++ [ev]) (whisper_model s)).

Definition get_model_loaded : M bool := fun s => (Ok (whisper_model s), s).

Definition set_model_loaded : M unit :=
  fun s => (Ok tt, mkState (jobs s) (trace s) true).

(** [db.query(Job).filter(Job.id == job_id).first()]. *)
Definition query_job (job_id : string) : M (option Job) :=
  fun s => (Ok (jobs s !! job_id), s).

(** Assigning attributes of the fetched row and [db.commit()]. *)
Definition commit_job (job_id : string) (j : Job) : M unit :=
  fun s => (Ok tt, mkState (<[job_id := j]> (jobs s)) (trace s) (whisper_model s)).

Module Notations.
Notation "'let*' x ':=' c1 'in' c2" := (bind c1 (fun x => c2))
  (at level 10, x name, c1 at level 100, c2 at level 200).
Notation "'do' c1 'then' c2" := (bind c1 (fun _ => c2))
  (at level 10, c1 at level 100, c2 at level 200).
End Notations.
Import Notations.

Section WithWorld.
Variable w : world.

(** [subprocess.run(cmd, ...)], with or without [check=True]. *)
Definition run (cmd : list string) (check : bool) : M (Z * string) :=
  do emit (EvRun cmd) then
  match subprocess_run w cmd with
  | SpawnError msg => raise (ExternalError msg)
  | Completed rc out =>
      if check && negb (rc =? 0)%Z then raise (CalledProcessError cmd rc)
      else ret (rc, out)
  end.

End WithWorld.

End Sys.

Import Sys Sys.Notations.

(** A time span [(start, end)], a Python tuple of two floats. *)
Definition interval : Type := (Q * Q)%type.

(** [x < y] on floats. *)
Definition Qltb (x y : Q) : bool := negb (Qle_bool y x).

(** ** [remsi_integration.py]: class [RemsiProcessor] *)

Module RemsiProcessor.

(** The maximal run of characters of the class [[\d.]] at the head of [s]:
    what the greedy group [([\d.]+)] captures there. *)
Fixpoint take_number (s : string) : string :=
  match s with
  | EmptyString => EmptyString
  | String c r =>
      if is_digit c || Ascii.eqb c "."%char then String c (take_number r)
      else EmptyString
  end.

(** [re.search(lit + r'([\d.]+)', line)], giving [group(1)] of the leftmost
    match: the first position where [lit] occurs and is followed by at least
    one digit or dot. *)
Fixpoint re_search (lit line : string) : option string :=
  let here :=
    match strip_prefix lit line with
    | Some after =>
        let g := take_number after in
        if String.eqb g EmptyString then None else Some g
    | None => None
    end in
  match here with
  | Some g => Some g
  | None => match line with
            | EmptyString => None
            | String _ r => re_search lit r
            end
  end.

Definition silence_start_pattern : string := "silence_start: ".
Definition silence_end_pattern : string := "silence_end: ".

(** The [for line in lines] loop of [_parse_silence_output], with its two
    local variables. *)
Fixpoint parse_lines (lines : list string) (current_start : option Q)
    (silence_segments : list interval) : result (list interval) :=
  match lines with
  | [] => Ok silence_segments
  | line :: rest =>
      match re_search silence_start_pattern line with
      | Some g =>
          match float g with
          | inl t => parse_lines rest (Some t) silence_segments
          | inr e => Raise e
          end
      | None =>
          match re_search silence_end_pattern line, current_start with
          | Some g, Some start =>
              match float g with
              | inl end_time =>
                  parse_lines rest None (silence_segments ++ [(start, end_time)])
              | inr e => Raise e
              end
          | _, _ => parse_lines rest current_start silence_segments
          end
      end
  end.

Definition _parse_silence_output (output : string) : result (list interval) :=
  parse_lines (split_char newline output) None [].

(** The body of [for start, end in silence_segments] in
    [create_filter_complex]; the accumulator is
    [(non_silent_segments, last_end)]. *)
Definition scan_step (acc : list interval * Q) (seg : interval) : list interval * Q :=
  let '(non_silent_segments, last_end) := acc in
  let '(start, end_) := seg in
  (if Qltb last_end start
   then non_silent_segments ++ [(last_end, start)]
   else non_silent_segments,
   end_).

(** Lines 99-110: the list [non_silent_segments] when the loop and the
    "final segment" test are done. *)
Definition non_silent_segments (silence_segments : list interval)
    (video_duration : Q) : list interval :=
  let '(non_silent, last_end) := fold_left scan_step silence_segments ([], 0%Q) in
  if Qltb last_end video_duration
  then non_silent ++ [(last_end, video_duration)]
  else non_silent.

Definition identity_filter : string := "[0:v][0:a]concat=n=1:v=1:a=1[out]".

Definition all_silence_filter : string :=
  "[0:v]trim=duration=0.1,setpts=PTS-STARTPTS[outv];[0:a]atrim=duration=0.1,asetpts=PTS-STARTPTS[outa];[outv][outa]concat=n=1:v=1:a=1[out]".

Section WithRuntime.
Variable rt : runtime.

(** The two [filters.append] of one round of
    [for i, (start, end) in enumerate(...)]. *)
Fixpoint trim_filters (i : nat) (segments : list interval) : list string :=
  match segments with
  | [] => []
  | (start, end_) :: rest =>
      ("[0:v]trim=start=" +:+ repr_float rt start +:+ ":end=" +:+ repr_float rt end_
         +:+ ",setpts=PTS-STARTPTS[v" +:+ str_of_nat i +:+ "]")
      :: ("[0:a]atrim=start=" +:+ repr_float rt start +:+ ":end=" +:+ repr_float rt end_
         +:+ ",asetpts=PTS-STARTPTS[a" +:+ str_of_nat i +:+ "]")
      :: trim_filters (S i) rest
  end.

(** ["".join([f"[{p}{i}]" for i in range(n)])]. *)
Definition inputs (p : string) (n : nat) : string :=
  join "" (map (fun i => "[" +:+ p +:+ str_of_nat i +:+ "]") (seq 0 n)).

(** Lines 116-128: the list [filters] just before it is joined. *)
Definition segment_filters (segments : list interval) : list string :=
  let n := length segments in
  trim_filters 0 segments
  ++ [ inputs "v" n +:+ "concat=n=" +:+ str_of_nat n +:+ ":v=1:a=0[outv]";
       inputs "a" n +:+ "concat=n=" +:+ str_of_nat n +:+ ":v=0:a=1[outa]";
       "[outv][outa]concat=n=1:v=1:a=1[out]" ].

Definition create_filter_complex (silence_segments : list interval)
    (video_duration : Q) : string :=
  match silence_segments with
  | [] => identity_filter
  | _ :: _ =>
      match non_silent_segments silence_segments video_duration with
      | [] => all_silence_filter
      | (_ :: _) as segments => join ";" (segment_filters segments)
      end
  end.

Variable w : world.

Definition silencedetect_cmd (video_path silence_threshold : string)
    (min_duration : Q) : list string :=
  [ "ffmpeg"; "-i"; video_path;
    "-af"; "silencedetect=n=" +:+ silence_threshold +:+ ":d=" +:+ repr_float rt min_duration;
    "-f"; "null"; "-" ].

(** The detector.  [print] only writes to the console and is left out. *)
Definition detect_silence (video_path silence_threshold : string)
    (min_duration : Q) : M (list interval) :=
  try_except
    (let* result := run w (silencedetect_cmd video_path silence_threshold min_duration) false in
     lift (_parse_silence_output (snd result)))
    (fun _ => ret []).

Definition probe_cmd (input_path : string) : list string :=
  [ "ffprobe"; "-v"; "quiet"; "-show_entries"; "format=duration"; "-of"; "csv=p=0";
    input_path ].

Definition process_cmd (input_path filter_complex output_path : string) : list string :=
  [ "ffmpeg"; "-i"; input_path; "-filter_complex"; filter_complex; "-map"; "[out]";
    "-c:v"; "libx264"; "-c:a"; "aac"; "-y"; output_path ].

Definition process_video (input_path output_path silence_threshold : string)
    (min_duration : Q) : M bool :=
  try_except
    (let* result := run w (probe_cmd input_path) false in
     let* video_duration := lift (float (strip (snd result))) in
     let* silence_segments := detect_silence input_path silence_threshold min_duration in
     let filter_complex := create_filter_complex silence_segments video_duration in
     do run w (process_cmd input_path filter_complex output_path) true then
     ret true)
    (fun _ => ret false).

End WithRuntime.

End RemsiProcessor.

(** ** [video_processor.py]: class [VideoProcessor] *)

Module VideoProcessor.

Definition temp_dir : string := "temp_processing".

Definition tier_message : string := "Free tier only supports videos under 1 minute".
Definition remsi_failure_message : string := "Failed to process video with Remsi".

(** The local variables of the loop of [_parse_silence_output]: [start_time]
    and [end_time] are unbound until first assigned. *)
Fixpoint parse_lines (lines : list string) (start_time : option Q)
    (segments : list interval) : result (list interval) :=
  match lines with
  | [] => Ok segments
  | line :: rest =>
      if contains "silence_start" line then
        match index (split_str "silence_start: " line) 1 with
        | inr e => Raise e
        | inl after =>
            match index (split_ws after) 0 with
            | inr e => Raise e
            | inl tok =>
                match float tok with
                | inr e => Raise e
                | inl t => parse_lines rest (Some t) segments
                end
            end
        end
      else if contains "silence_end" line then
        match index (split_str "silence_end: " line) 1 with
        | inr e => Raise e
        | inl after =>
            match index (split_ws after) 0 with
            | inr e => Raise e
            | inl tok =>
                match float tok with
                | inr e => Raise e
                | inl end_time =>
                    match start_time with
                    | None =>
                        Raise (UnboundLocalError
                                 "cannot access local variable 'start_time' where it is not associated with a value")
                    | Some st => parse_lines rest start_time (segments ++ [(st, end_time)])
                    end
                end
            end
        end
      else parse_lines rest start_time segments
  end.

Definition _parse_silence_output (output : string) : result (list interval) :=
  parse_lines (split_char newline output) None [].

Section WithRuntime.
Variable rt : runtime.

Definition _create_filter_complex (segments : list interval) : string :=
  match segments with
  | [] => RemsiProcessor.identity_filter
  | _ :: _ =>
      let n := length segments in
      join ";"
        (RemsiProcessor.trim_filters rt 0 segments
         ++ [ RemsiProcessor.inputs "v" n +:+ "concat=n=" +:+ str_of_nat n +:+ ":v=1:a=0[outv]";
              RemsiProcessor.inputs "a" n +:+ "concat=n=" +:+ str_of_nat n +:+ ":v=0:a=1[outa]";
              "[outv][outa]concat=n=1:v=1:a=1[out]" ])
  end.

(** [segment['start']] and [segment['end']] of every segment, in the order
    the loop of [_create_whisper_filter_complex] reads them. *)
Fixpoint segment_bounds (segments : list segment) : result (list interval) :=
  match segments with
  | [] => Ok []
  | sg :: rest =>
      match seg_start sg with
      | None => Raise (KeyError "start")
      | Some start =>
          match seg_end sg with
          | None => Raise (KeyError "end")
          | Some end_ =>
              match segment_bounds rest with
              | inl l => Ok ((start, end_) :: l)
              | inr e => Raise e
              end
          end
      end
  end.

Definition _create_whisper_filter_complex (segments : list segment) : result string :=
  match segments with
  | [] => Ok RemsiProcessor.identity_filter
  | _ :: _ =>
      match segment_bounds segments with
      | inr e => Raise e
      | inl bounds => Ok (_create_filter_complex bounds)
      end
  end.

Variable w : world.

(** [get_video_duration]: any exception is answered by [0.0]. *)
Definition get_video_duration (file_path : string) : M Q :=
  try_except
    (do emit (EvProbe file_path) then
     let* streams := lift (ffmpeg_probe w file_path) in
     let* stream0 := lift (index streams 0) in
     let* text := match stream0 with
                  | Some d => ret d
                  | None => raise (KeyError "duration")
                  end in
     lift (float text))
    (fun _ => ret 0%Q).

Definition output_path_of (file_path : string) : string :=
  path_join (dirname file_path) ("processed_" +:+ basename file_path).

Definition process_with_ffmpeg (file_path : string) : M string :=
  try_except
    (let* duration := get_video_duration file_path in
     if Qltb 60 duration then raise (ValueError tier_message)
     else
       let output_path := output_path_of file_path in
       let* success :=
         RemsiProcessor.process_video rt w file_path output_path "-50dB" 1%Q in
       if negb success then raise (Exception_ remsi_failure_message)
       else ret output_path)
    (fun e => raise e).

Definition copy_cmd (file_path output_path : string) : list string :=
  [ "ffmpeg"; "-i"; file_path; "-c"; "copy"; "-y"; output_path ].

Definition process_with_whisper (file_path : string) : M string :=
  try_except
    (let* loaded := get_model_loaded in
     do (if loaded then ret tt
         else do emit (EvLoadModel "base") then
              do lift (whisper_load_model w "base") then
              set_model_loaded) then
     let output_path := output_path_of file_path in
     let audio_path := path_join temp_dir ("audio_" +:+ basename file_path +:+ ".wav") in
     do emit (EvExtractAudio file_path audio_path) then
     do lift (ffmpeg_extract_audio w file_path audio_path) then
     do emit (EvTranscribe audio_path) then
     let* segments := lift (whisper_transcribe w audio_path) in
     do match segments with
        | _ :: _ =>
            let* filter_complex := lift (_create_whisper_filter_complex segments) in
            do run w (RemsiProcessor.process_cmd file_path filter_complex output_path) true then
            ret tt
        | [] =>
            do run w (copy_cmd file_path output_path) true then
            ret tt
        end then
     do emit (EvExists audio_path) then
     do (if os_path_exists w audio_path
         then do emit (EvRemove audio_path) then lift (os_remove w audio_path)
         else ret tt) then
     ret output_path)
    (fun e => raise e).

End WithRuntime.

End VideoProcessor.

(** ** [main.py]: the two Celery tasks *)

Module Tasks.

Section WithRuntime.
Variable rt : runtime.
Variable w : world.

Definition download_url (job_id file_path : string) : string :=
  "/downloads/" +:+ job_id +:+ "/processed_" +:+ basename file_path.

(** The [except Exception as e] block shared by both tasks. *)
Definition record_failure (job_id : string) (e : exn) : M unit :=
  let* job := query_job job_id in
  match job with
  | Some job =>
      commit_job job_id (set_error_message (str_exn rt e) (set_status FAILED job))
  | None => ret tt
  end.

Definition process_video_free (job_id file_path : string) : M unit :=
  try_except
    (let* job := query_job job_id in
     match job with
     | None => ret tt
     | Some job =>
         let job := set_status PROCESSING job in
         do commit_job job_id job then
         let* output_path := VideoProcessor.process_with_ffmpeg rt w file_path in
         let job := set_status COMPLETED job in
         let job := set_processed_file_url (download_url job_id file_path) job in
         commit_job job_id job
     end)
    (record_failure job_id).

Definition process_video_premium (job_id file_path : string) : M unit :=
  try_except
    (let* job := query_job job_id in
     match job with
     | None => ret tt
     | Some job =>
         let job := set_status PROCESSING job in
         do commit_job job_id job then
         let* output_path := VideoProcessor.process_with_whisper rt w file_path in
         let job := set_status COMPLETED job in
         let job := set_processed_file_url (download_url job_id file_path) job in
         commit_job job_id job
     end)
    (record_failure job_id).

End WithRuntime.

End Tasks.

(** ** The planner of the specification, for comparison *)

Module Spec.

(** Clamping of an interval to [[0, D]]; an interval that is empty afterwards
    is discarded. *)
Definition clamp (D : Q) (iv : interval) : interval :=
  let '(s, e) := iv in
  (if Qltb s 0 then 0%Q else s, if Qltb D e then D else e).

Definition clamp_all (D : Q) (l : list interval) : list interval :=
  List.filter (fun iv => Qltb (fst iv) (snd iv)) (map (clamp D) l).

(** Sorting by [start] (insertion sort, stable). *)
Fixpoint insert_by_start (iv : interval) (l : list interval) : list interval :=
  match l with
  | [] => [iv]
  | x :: r => if Qle_bool (fst iv) (fst x) then iv :: l else x :: insert_by_start iv r
  end.

Definition sort_by_start (l : list interval) : list interval :=
  fold_right insert_by_start [] l.

(** Merging a list sorted by [start]: an interval that overlaps or touches the
    current one is absorbed into it. *)
Fixpoint merge_from (cur : interval) (l : list interval) : list interval :=
  match l with
  | [] => [cur]
  | (s, e) :: r =>
      if Qle_bool s (snd cur)
      then merge_from (fst cur, if Qltb (snd cur) e then e else snd cur) r
      else cur :: merge_from (s, e) r
  end.

Definition merge (l : list interval) : list interval :=
  match sort_by_start l with
  | [] => []
  | iv :: r => merge_from iv r
  end.

(** The gaps left by a merged list, from [cursor] up to [D]. *)
Fixpoint gaps (cursor : Q) (l : list interval) (D : Q) : list interval :=
  match l with
  | [] => if Qltb cursor D then [(cursor, D)] else []
  | (s, e) :: r =>
      (if Qltb cursor s then [(cursor, s)] else []) ++ gaps e r D
  end.

(** [complement(l, [0, D])]. *)
Definition complement (l : list interval) (D : Q) : list interval :=
  gaps 0 (clamp_all D l) D.

(** [keep = complement(merge(silenceIntervals), [0, duration])]. *)
Definition keep_from_silence (silence : list interval) (D : Q) : list interval :=
  complement (merge silence) D.

(** A time [t] lies in one of the half-open intervals of [l]. *)
Definition covered (l : list interval) (t : Q) : Prop :=
  exists iv, In iv l /\ (fst iv <= t /\ t < snd iv)%Q.

(** The shape of a detector result (SilenceIntervalSet): every interval is
    non-empty and starts in [[0, D)], and each one ends before the next one
    starts.  [lo] is the least admissible start. *)
Fixpoint silence_set_from (lo D : Q) (l : list interval) : bool :=
  match l with
  | [] => true
  | (s, e) :: r =>
      Qle_bool lo s && Qltb s e && Qltb s D && silence_set_from e D r
  end.

Definition silence_set (D : Q) (l : list interval) : bool := silence_set_from 0 D l.

(** The contract of a KeepIntervalSet over [[0, D]]: strictly ascending by
    [start], each interval ending before the next one starts, every interval
    non-empty and inside [[0, D]]. *)
Definition precedes (a b : interval) : Prop :=
  (fst a < fst b /\ snd a <= fst b)%Q.

Definition within (D : Q) (iv : interval) : Prop :=
  (0 <= fst iv /\ fst iv < snd iv /\ snd iv <= D)%Q.

Definition keep_set (D : Q) (k : list interval) : Prop :=
  StronglySorted precedes k /\ Forall (within D) k.

End Spec.

(** ** What the planner inside [create_filter_complex] keeps

    [create_filter_complex] has three ways out.  Read as the part of the input
    that the returned graph lets through, they are: the whole input for the
    identity filter of an empty silence list; the first [0.1] seconds for the
    "entire video is silence" filter; and the trimmed segments otherwise. *)

Definition epsilon : Q := 1 # 10.

Definition kept_intervals (silence_segments : list interval) (video_duration : Q)
  : list interval :=
  match silence_segments with
  | [] => [(0%Q, video_duration)]
  | _ :: _ =>
      match RemsiProcessor.non_silent_segments silence_segments video_duration with
      | [] => [(0%Q, epsilon)]
      | (_ :: _) as segments => segments
      end
  end.

(** ** Counting the nodes of a graph description

    A graph description is the text handed to [-filter_complex]: filters
    separated by [;].  Its nodes are the filters. *)

Fixpoint has_char (c : ascii) (s : string) : bool :=
  match s with
  | EmptyString => false
  | String a r => Ascii.eqb a c || has_char c r
  end.

Definition node_count (graph : string) : nat := length (split_char ";"%char graph).

(** The time stamps of [keep] are printed without a [;]. *)
Definition printable (rt : runtime) (keep : list interval) : bool :=
  forallb (fun iv => negb (has_char ";"%char (repr_float rt (fst iv)))
                     && negb (has_char ";"%char (repr_float rt (snd iv)))) keep.

(** A runtime to evaluate examples with: time stamps are printed as their
    integer part, a dot and up to six decimals, as [repr] prints short
    non-negative decimals. *)
Fixpoint decimals (fuel : nat) (num den : Z) : string :=
  match fuel with
  | O => EmptyString
  | S k =>
      if (num =? 0)%Z then EmptyString
      else str_of_nat (Z.to_nat (num * 10 / den))
           +:+ decimals k ((num * 10) mod den) den
  end.

Definition decimal_repr (q : Q) : string :=
  let n := Qnum q in
  let d := Zpos (Qden q) in
  let frac := decimals 6 (Z.abs n mod d) d in
  (if (n <? 0)%Z then "-" else "")
  +:+ str_of_nat (Z.to_nat (Z.abs n / d)) +:+ "."
  +:+ (if String.eqb frac EmptyString then "0" else frac).

Definition example_runtime : runtime :=
  mkRuntime decimal_repr
    (fun cmd rc => "Command '" +:+ join " " cmd +:+ "' returned non-zero exit status "
                   +:+ str_of_nat (Z.to_nat rc) +:+ ".").

(** ** What the external calls of a run amount to

    The functions below read the answers of the [world] the way the source
    does, without the bookkeeping of the trace; the run lemmas of the
    properties part prove that the monadic code computes them. *)

(** The state after the calls [evs] were made. *)
Definition logged (st : state) (evs : list event) : state :=
  mkState (jobs st) (trace st ++ evs) (whisper_model st).

(** The state with the row of [job_id] replaced. *)
Definition stored (st : state) (job_id : string) (j : Job) : state :=
  mkState (<[job_id := j]> (jobs st)) (trace st) (whisper_model st).

(** The body of the [try] of [get_video_duration]. *)
Definition probe_result (w : world) (file_path : string) : result Q :=
  match ffmpeg_probe w file_path with
  | inr e => Raise e
  | inl streams =>
      match index streams 0 with
      | inr e => Raise e
      | inl None => Raise (KeyError "duration")
      | inl (Some text) => float text
      end
  end.

(** What [get_video_duration] returns. *)
Definition probed_duration (w : world) (file_path : string) : Q :=
  match probe_result w file_path with
  | inl d => d
  | inr _ => 0%Q
  end.

(** What [detect_silence] returns. *)
Definition detected (rt : runtime) (w : world) (video_path silence_threshold : string)
    (min_duration : Q) : list interval :=
  match subprocess_run w
          (RemsiProcessor.silencedetect_cmd rt video_path silence_threshold min_duration) with
  | SpawnError _ => []
  | Completed _ out =>
      match RemsiProcessor._parse_silence_output out with
      | inl l => l
      | inr _ => []
      end
  end.

(** The duration [process_video] reads from [ffprobe]. *)
Definition ffprobe_duration (w : world) (input_path : string) : result Q :=
  match subprocess_run w (RemsiProcessor.probe_cmd input_path) with
  | SpawnError msg => Raise (ExternalError msg)
  | Completed _ out => float (strip out)
  end.

(** A call with [check=True] came back without raising. *)
Definition succeeded (o : proc_outcome) : bool :=
  match o with
  | Completed rc _ => (rc =? 0)%Z
  | SpawnError _ => false
  end.

(** The exception a call with [check=True] raises when it does. *)
Definition failure_of (cmd : list string) (o : proc_outcome) : exn :=
  match o with
  | SpawnError msg => ExternalError msg
  | Completed rc _ => CalledProcessError cmd rc
  end.

(** The encode command [process_video] ends with. *)
Definition encode_cmd (rt : runtime) (w : world) (input_path output_path : string)
    (video_duration : Q) : list string :=
  RemsiProcessor.process_cmd input_path
    (RemsiProcessor.create_filter_complex rt
       (detected rt w input_path "-50dB" 1%Q) video_duration)
    output_path.

(** What [process_with_ffmpeg] returns, and the external calls it makes. *)
Definition free_tier_result (rt : runtime) (w : world) (file_path : string)
  : result string :=
  if Qltb 60 (probed_duration w file_path)
  then Raise (ValueError VideoProcessor.tier_message)
  else
    match ffprobe_duration w file_path with
    | inr _ => Raise (Exception_ VideoProcessor.remsi_failure_message)
    | inl D =>
        if succeeded (subprocess_run w
                        (encode_cmd rt w file_path (VideoProcessor.output_path_of file_path) D))
        then Ok (VideoProcessor.output_path_of file_path)
        else Raise (Exception_ VideoProcessor.remsi_failure_message)
    end.

Definition free_tier_calls (rt : runtime) (w : world) (file_path : string)
  : list event :=
  EvProbe file_path ::
  if Qltb 60 (probed_duration w file_path) then []
  else
    match ffprobe_duration w file_path with
    | inr _ => [EvRun (RemsiProcessor.probe_cmd file_path)]
    | inl D =>
        [ EvRun (RemsiProcessor.probe_cmd file_path);
          EvRun (RemsiProcessor.silencedetect_cmd rt file_path "-50dB" 1%Q);
          EvRun (encode_cmd rt w file_path (VideoProcessor.output_path_of file_path) D) ]
    end.

(** The row a task leaves behind for a job it found as [job]. *)
Definition finished_job (rt : runtime) (job_id file_path : string) (job : Job)
    (r : result string) : Job :=
  match r with
  | inl _ =>
      set_processed_file_url (Tasks.download_url job_id file_path)
        (set_status COMPLETED (set_status PROCESSING job))
  | inr e =>
      set_error_message (str_exn rt e) (set_status FAILED (set_status PROCESSING job))
  end.

(** The temporary audio file of [process_with_whisper]. *)
Definition audio_path_of (file_path : string) : string :=
  path_join VideoProcessor.temp_dir ("audio_" +:+ basename file_path +:+ ".wav").

(** The transcription model is at hand: loaded before, or loadable now. *)
Definition model_ready (w : world) (st : state) : Prop :=
  whisper_model st = true \/ whisper_load_model w "base" = Ok tt.

(** The command the encode step of [process_with_whisper] runs for these
    segments, if the graph can be built. *)
Definition premium_cmd (rt : runtime) (file_path : string) (segments : list segment)
  : result (list string) :=
  match segments with
  | [] => Ok (VideoProcessor.copy_cmd file_path (VideoProcessor.output_path_of file_path))
  | _ :: _ =>
      match VideoProcessor._create_whisper_filter_complex rt segments with
      | inl f =>
          Ok (RemsiProcessor.process_cmd file_path f (VideoProcessor.output_path_of file_path))
      | inr e => Raise e
      end
  end.

(** What [process_with_whisper] returns and the external calls it makes,
    given whether the model was loaded before. *)
Definition premium_run (rt : runtime) (w : world) (loaded : bool) (file_path : string)
  : result string * list event :=
  let out := VideoProcessor.output_path_of file_path in
  let audio := audio_path_of file_path in
  let load := if loaded then [] else [EvLoadModel "base"] in
  match (if loaded then inl tt else whisper_load_model w "base") with
  | inr e => (inr e, load)
  | inl _ =>
      match ffmpeg_extract_audio w file_path audio with
      | inr e => (inr e, load ++ [EvExtractAudio file_path audio])
      | inl _ =>
          match whisper_transcribe w audio with
          | inr e => (inr e, load ++ [EvExtractAudio file_path audio; EvTranscribe audio])
          | inl segments =>
              match premium_cmd rt file_path segments with
              | inr e =>
                  (inr e, load ++ [EvExtractAudio file_path audio; EvTranscribe audio])
              | inl cmd =>
                  if succeeded (subprocess_run w cmd) then
                    if os_path_exists w audio then
                      (match os_remove w audio with
                       | inl _ => inl out
                       | inr e => inr e
                       end,
                       load ++ [ EvExtractAudio file_path audio; EvTranscribe audio;
                                 EvRun cmd; EvExists audio; EvRemove audio ])
                    else
                      (inl out,
                       load ++ [ EvExtractAudio file_path audio; EvTranscribe audio;
                                 EvRun cmd; EvExists audio ])
                  else
                    (inr (failure_of cmd (subprocess_run w cmd)),
                     load ++ [ EvExtractAudio file_path audio; EvTranscribe audio;
                               EvRun cmd ])
              end
          end
      end
  end.

(** Whether the model is loaded afterwards. *)
Definition model_after (w : world) (loaded : bool) : bool :=
  loaded || match whisper_load_model w "base" with
            | inl _ => true
            | inr _ => false
            end.

(** [stage_failure rt w st file_path e]: the premium pipeline, started in
    state [st] on [file_path], comes to a stage that raises [e], all stages
    before it having gone well. *)
Inductive stage_failure (rt : runtime) (w : world) (st : state) (file_path : string)
  : exn -> Prop :=
| LoadFails e :
    whisper_model st = false ->
    whisper_load_model w "base" = Raise e ->
    stage_failure rt w st file_path e
| ExtractFails e :
    model_ready w st ->
    ffmpeg_extract_audio w file_path (audio_path_of file_path) = Raise e ->
    stage_failure rt w st file_path e
| TranscribeFails e :
    model_ready w st ->
    ffmpeg_extract_audio w file_path (audio_path_of file_path) = Ok tt ->
    whisper_transcribe w (audio_path_of file_path) = Raise e ->
    stage_failure rt w st file_path e
| GraphFails segments e :
    model_ready w st ->
    ffmpeg_extract_audio w file_path (audio_path_of file_path) = Ok tt ->
    whisper_transcribe w (audio_path_of file_path) = Ok segments ->
    premium_cmd rt file_path segments = Raise e ->
    stage_failure rt w st file_path e
| EncodeFails segments cmd :
    model_ready w st ->
    ffmpeg_extract_audio w file_path (audio_path_of file_path) = Ok tt ->
    whisper_transcribe w (audio_path_of file_path) = Ok segments ->
    premium_cmd rt file_path segments = Ok cmd ->
    succeeded (subprocess_run w cmd) = false ->
    stage_failure rt w st file_path (failure_of cmd (subprocess_run w cmd))
| RemoveFails segments cmd e :
    model_ready w st ->
    ffmpeg_extract_audio w file_path (audio_path_of file_path) = Ok tt ->
    whisper_transcribe w (audio_path_of file_path) = Ok segments ->
    premium_cmd rt file_path segments = Ok cmd ->
    succeeded (subprocess_run w cmd) = true ->
    os_path_exists w (audio_path_of file_path) = true ->
    os_remove w (audio_path_of file_path) = Raise e ->
    stage_failure rt w st file_path e.

(** ** Concrete environments to evaluate the tasks in *)

Module Examples.

Definition job0 : Job := mkJob 7 "in.mp4" 1048576 false PENDING None None.

Definition st0 : state := mkState (<["j1" := job0]> ∅) [] false.

Definition is_ffprobe (cmd : list string) : bool :=
  match cmd with
  | prog :: _ => String.eqb prog "ffprobe"
  | [] => false
  end.

Definition is_silencedetect (cmd : list string) : bool :=
  match cmd with
  | _ :: _ :: _ :: flag :: _ => String.eqb flag "-af"
  | _ => false
  end.

(** A world in which the clip is [duration] seconds long by both probes, the
    detector run ends as [detector] says and every other run as [other]
    says; the speech model answers with [speech]. *)
Definition world_of (duration : string) (detector other : proc_outcome)
    (speech : result (list segment)) : world :=
  mkWorld
    (fun _ => Ok [Some duration])
    (fun cmd =>
       if is_ffprobe cmd then Completed 0 (duration +:+ String newline "")
       else if is_silencedetect cmd then detector
       else other)
    (fun _ => Ok tt)
    (fun _ _ => Ok tt)
    (fun _ => speech)
    (fun _ => true)
    (fun _ => Ok tt).

(** What the detector prints for one silence from 2.0 to 4.0. *)
Definition trace_2_4 : string :=
  "[silencedetect @ 0x1] silence_start: 2.0" +:+ String newline
    "[silencedetect @ 0x1] silence_end: 4.0 | silence_duration: 2.0".

(** A world whose duration probe raises. *)
Definition world_probe_fails : world :=
  mkWorld
    (fun _ => Raise (ExternalError "ffprobe error (see stderr output for detail)"))
    (fun cmd =>
       if is_ffprobe cmd then Completed 0 "90.000000"
       else if is_silencedetect cmd then Completed 0 trace_2_4
       else Completed 0 "")
    (fun _ => Ok tt)
    (fun _ _ => Ok tt)
    (fun _ => Ok [])
    (fun _ => true)
    (fun _ => Ok tt).

(** A clip of 90 seconds whose first stream carries no [duration] entry:
    [ffmpeg.probe] answers, but [get_video_duration] finds nothing to read;
    [ffprobe] reads the length from the container. *)
Definition world_stream_without_duration : world :=
  mkWorld
    (fun _ => Ok [None; Some "90.000000"])
    (fun cmd =>
       if is_ffprobe cmd then Completed 0 "90.000000"
       else if is_silencedetect cmd then Completed 0 trace_2_4
       else Completed 0 "")
    (fun _ => Ok tt)
    (fun _ _ => Ok tt)
    (fun _ => Ok [])
    (fun _ => true)
    (fun _ => Ok tt).

(** A world in which neither probe can read the file: [ffmpeg.probe] raises
    and [ffprobe] exits with status 1, printing nothing. *)
Definition world_no_probe_answers : world :=
  mkWorld
    (fun _ => Raise (ExternalError "ffprobe error (see stderr output for detail)"))
    (fun cmd =>
       if is_ffprobe cmd then Completed 1 ""
       else if is_silencedetect cmd then Completed 0 trace_2_4
       else Completed 0 "")
    (fun _ => Ok tt)
    (fun _ _ => Ok tt)
    (fun _ => Ok [])
    (fun _ => true)
    (fun _ => Ok tt).

End Examples.

(** ** Reading a trace of external calls *)

Definition is_load (ev : event) : bool :=
  match ev with
  | EvLoadModel _ => true
  | _ => false
  end.

Definition is_remove (ev : event) : bool :=
  match ev with
  | EvRemove _ => true
  | _ => false
  end.

(** The commands the calls of a trace ran, in order. *)
Fixpoint commands_run (evs : list event) : list (list string) :=
  match evs with
  | [] => []
  | EvRun cmd :: r => cmd :: commands_run r
  | _ :: r => commands_run r
  end.

(** ** Reading one line of a detector trace *)

(** The characters of [s] are digits and dots only. *)
Fixpoint digits_dots (s : string) : bool :=
  match s with
  | EmptyString => true
  | String c r => (is_digit c || Ascii.eqb c "."%char) && digits_dots r
  end.

Fixpoint count_dots (s : string) : nat :=
  match s with
  | EmptyString => O
  | String c r => ((if Ascii.eqb c "."%char then 1 else 0) + count_dots r)%nat
  end.

Fixpoint has_digit (s : string) : bool :=
  match s with
  | EmptyString => false
  | String c r => is_digit c || has_digit r
  end.

(** The time stamp [RemsiProcessor] reads after the marker [lit] on [line]. *)
Definition remsi_time_of (lit line : string) : option Q :=
  match RemsiProcessor.re_search lit line with
  | Some g => parse_float g
  | None => None
  end.

(** The time stamp [VideoProcessor] reads after [marker] on [line]:
    [float(line.split(marker)[1].split()[0])]. *)
Definition vp_time_of (marker line : string) : option Q :=
  match index (split_str marker line) 1 with
  | inl after =>
      match index (split_ws after) 0 with
      | inl tok => parse_float tok
      | inr _ => None
      end
  | inr _ => None
  end.

(** [o] is the time stamp [t], numerator for numerator. *)
Definition same_time (o : option Q) (t : Q) : bool :=
  match o with
  | Some a => Z.eqb (Qnum a) (Qnum t) && Pos.eqb (Qden a) (Qden t)
  | None => false
  end.

(** A start line and an end line that both parsers read as the interval
    [(s, e)]: neither line contains a line break, the first mentions the
    start marker, the second mentions the end marker and not the start
    marker, and each parser reads [s] on the first and [e] on the second. *)
Definition paired_lines (p : (string * string) * interval) : bool :=
  let '((ls, le), (s, e)) := p in
  negb (has_char newline ls) && negb (has_char newline le)
  && contains "silence_start" ls
  && negb (contains "silence_start" le) && contains "silence_end" le
  && same_time (remsi_time_of "silence_start: " ls) s
  && same_time (vp_time_of "silence_start: " ls) s
  && same_time (remsi_time_of "silence_end: " le) e
  && same_time (vp_time_of "silence_end: " le) e.

(** The lines of a trace made of such pairs. *)
Definition trace_lines (pairs : list ((string * string) * interval)) : list string :=
  flat_map (fun p => [fst (fst p); snd (fst p)]) pairs.

(** ** Measuring and comparing interval lists *)

(** The sum of the lengths of the intervals of [l]. *)
Fixpoint total_length (l : list interval) : Q :=
  match l with
  | [] => 0%Q
  | (s, e) :: r => ((e - s) + total_length r)%Q
  end.

(** Detector-shaped silence whose intervals all end by [D]. *)
Fixpoint ends_within (D : Q) (l : list interval) : bool :=
  match l with
  | [] => true
  | (_, e) :: r => Qle_bool e D && ends_within D r
  end.

(** Silence strictly inside [(lo, D)] with room between the intervals: each
    one starts after [lo], ends before [D] and before the next one starts. *)
Fixpoint separated_from (lo D : Q) (l : list interval) : bool :=
  match l with
  | [] => true
  | (s, e) :: r => Qltb lo s && Qltb s e && Qltb e D && separated_from e D r
  end.

(** ** [payment_service.py]: class [PaymentService] *)

Module PaymentService.

(** What [stripe.PaymentIntent.retrieve] does: it returns an intent, of which
    only the status is read, it raises a [StripeError], or it raises
    something else. *)
Inductive retrieved : Type :=
| Intent (status : string)
| StripeError (msg : string)
| OtherError (e : exn).

Section WithStripe.
Variable retrieve : string -> retrieved.

(** The premium price [round(video_duration / 60 * 0.006, 2)] is float
    arithmetic and is not computed here. *)
Variable premium_price : Q -> Q.

Definition confirm_payment (payment_intent_id : string) : result bool :=
  match retrieve payment_intent_id with
  | Intent status => Ok (String.eqb status "succeeded")
  | StripeError msg => Raise (Exception_ ("Payment confirmation failed: " +:+ msg))
  | OtherError e => Raise e
  end.

Definition get_payment_status (payment_intent_id : string) : result string :=
  match retrieve payment_intent_id with
  | Intent status => Ok status
  | StripeError msg => Raise (Exception_ ("Failed to get payment status: " +:+ msg))
  | OtherError e => Raise e
  end.

(** [calculate_price]; Python's [None] is [None]. *)
Definition calculate_price (video_duration : Q) (use_whisper : bool) : option Q :=
  if use_whisper then Some (premium_price video_duration)
  else if Qle_bool video_duration 60 then Some 0%Q else None.

End WithStripe.

End PaymentService.

(** ** [start.py]: the start-up script *)

Module Startup.

(** How [subprocess.run(['ffmpeg', '-version'], capture_output=True,
    check=True)] ends. *)
Inductive version_outcome : Type :=
| NotFound                    (* FileNotFoundError *)
| CannotRun (e : exn)         (* any other exception, e.g. PermissionError *)
| Exited (returncode : Z).

(** How a group of [import] statements ends. *)
Inductive import_outcome : Type :=
| Imported
| ImportError (msg : string)
| ImportCrash (e : exn).

Record world : Type := mkWorld {
  ffmpeg_version : version_outcome;
  import_dependencies : import_outcome;      (* fastapi, uvicorn, sqlalchemy *)
  create_tables : result unit;               (* the body of the try of setup_database *)
  serve : result unit                        (* import uvicorn; uvicorn.run(...) *)
}.

Inductive stage : Type := CheckFfmpeg | CheckImports | SetupDatabase | Serve.

(** How the script ends: [sys.exit(1)], a normal return, or an exception
    nobody catches. *)
Inductive ending : Type := Exit1 | Returned | Crashed (e : exn).

Section WithWorld.
Variable w : world.

(** Each function returns its result and the stages it went through. *)
Definition check_requirements : result bool * list stage :=
  match ffmpeg_version w with
  | NotFound => (Ok false, [CheckFfmpeg])
  | CannotRun e => (Raise e, [CheckFfmpeg])
  | Exited rc =>
      if negb (rc =? 0)%Z then (Ok false, [CheckFfmpeg])   (* CalledProcessError *)
      else
        match import_dependencies w with
        | Imported => (Ok true, [CheckFfmpeg; CheckImports])
        | ImportError _ => (Ok false, [CheckFfmpeg; CheckImports])
        | ImportCrash e => (Raise e, [CheckFfmpeg; CheckImports])
        end
  end.

Definition setup_database : bool * list stage :=
  match create_tables w with
  | inl _ => (true, [SetupDatabase])
  | inr _ => (false, [SetupDatabase])
  end.

(** [start_server] returns [None] when the server stops by itself and
    [False] when it raised: [Some false] stands for [False]. *)
Definition start_server : option bool * list stage :=
  match serve w with
  | inl _ => (None, [Serve])
  | inr _ => (Some false, [Serve])
  end.

Definition main : ending * list stage :=
  match check_requirements with
  | (inr e, s1) => (Crashed e, s1)
  | (inl false, s1) => (Exit1, s1)
  | (inl true, s1) =>
      match setup_database with
      | (false, s2) => (Exit1, s1 ++ s2)
      | (true, s2) =>
          let '(_, s3) := start_server in
          (Returned, s1 ++ s2 ++ s3)
      end
  end.

End WithWorld.

End Startup.

(** ** [main.py]: the job routes *)

Module Api.

(** The columns of [User] the routes read. *)
Record User : Type := mkUser {
  u_id : Z;
  email : string;
  hashed_password : string;
  full_name : option string;
  is_active : bool
}.

(** [JobResponse], without the creation time. *)
Record JobResponse : Type := mkJobResponse {
  r_id : string;
  r_filename : string;
  r_status : JobStatus;
  r_use_premium : bool;
  r_processed_file_url : option string;
  r_error_message : option string
}.

(** An uploaded file: [content_type] may be absent. *)
Record UploadFile : Type := mkUploadFile {
  content_type : option string;
  upload_filename : string;
  content : string
}.

(** A task put on the queue by [.delay]. *)
Inductive task : Type :=
| FreeTask (job_id file_path : string)
| PremiumTask (job_id file_path : string).

(** A route answers with its response model, with an [HTTPException], or
    with an exception it does not catch (a 500). *)
Inductive answer (A : Type) : Type :=
| Response (a : A)
| HTTPException (status_code : nat) (detail : string)
| ServerError (exception : string).
Arguments Response {A} a.
Arguments HTTPException {A} status_code detail.
Arguments ServerError {A} exception.

(** The users and jobs tables, the files on disk and the task queue. *)
Record app : Type := mkApp {
  users : list User;
  app_jobs : gmap string Job;
  files : gmap string string;
  queue : list task
}.

Definition max_upload : Z := 500 * 1024 * 1024.

(** [db.query(User).filter(User.email == e).first()]; [e] is [None] when the
    token check returns no address. *)
Definition find_user (us : list User) (e : option string) : option User :=
  match e with
  | Some e => List.find (fun u => String.eqb (email u) e) us
  | None => None
  end.

Definition upload_path (job_id filename : string) : string :=
  "uploads/" +:+ job_id +:+ "/" +:+ filename.

Definition response_of (job_id : string) (job : Job) : JobResponse :=
  mkJobResponse job_id (filename job) (status job) (use_premium job)
    (processed_file_url job) (error_message job).

Section WithCollaborators.

(** [auth.verify_token], which is not part of the sources at hand: it returns
    the address in the token, or nothing, or raises an [HTTPException]. *)
Variable verify_token : string -> answer (option string).

(** Whether [os.makedirs] and the writing of the file at a path succeed. *)
Variable can_write : string -> bool.

(** [create_job]; [job_id] is the value [str(uuid.uuid4())] takes in this
    call.  The broker is taken to accept the task. *)
Definition create_job (file : UploadFile) (use_premium : bool) (credentials : string)
    (job_id : string) (a : app) : answer JobResponse * app :=
  match verify_token credentials with
  | HTTPException c d => (HTTPException c d, a)
  | ServerError x => (ServerError x, a)
  | Response user_email =>
      match find_user (users a) user_email with
      | None => (HTTPException 401 "Invalid token", a)
      | Some user =>
          match content_type file with
          | None => (ServerError "AttributeError", a)
          | Some ct =>
              match strip_prefix "video/" ct with
              | None => (HTTPException 400 "File must be a video", a)
              | Some _ =>
                  let file_size := Z.of_nat (String.length (content file)) in
                  if (max_upload <? file_size)%Z
                  then (HTTPException 400 "File too large (max 500MB)", a)
                  else
                    match app_jobs a !! job_id with
                    | Some _ => (ServerError "IntegrityError", a)
                    | None =>
                        let job := mkJob (u_id user) (upload_filename file)
                                     file_size use_premium PENDING None None in
                        let a1 := mkApp (users a) (<[job_id := job]> (app_jobs a))
                                    (files a) (queue a) in
                        let path := upload_path job_id (upload_filename file) in
                        if can_write path then
                          let t := if use_premium then PremiumTask job_id path
                                   else FreeTask job_id path in
                          (Response (mkJobResponse job_id (filename job) (status job)
                                       (Models.use_premium job) None None),
                           mkApp (users a1) (app_jobs a1)
                             (<[path := content file]> (files a1))
                             (queue a1 ++ [t]))
                        else (ServerError "OSError", a1)
                    end
              end
          end
      end
  end.

(** [get_job]. *)
Definition get_job (job_id credentials : string) (a : app) : answer JobResponse :=
  match verify_token credentials with
  | HTTPException c d => HTTPException c d
  | ServerError x => ServerError x
  | Response user_email =>
      match find_user (users a) user_email with
      | None => HTTPException 401 "Invalid token"
      | Some user =>
          match app_jobs a !! job_id with
          | Some job =>
              if (user_id job =? u_id user)%Z then Response (response_of job_id job)
              else HTTPException 404 "Job not found"
          | None => HTTPException 404 "Job not found"
          end
      end
  end.

End WithCollaborators.

(** A worker takes a task from the queue and runs it on the jobs table. *)
Definition run_task (rt : runtime) (w : Sys.world) (t : task) (st : state)
  : result unit * state :=
  match t with
  | FreeTask job_id file_path => Tasks.process_video_free rt w job_id file_path st
  | PremiumTask job_id file_path => Tasks.process_video_premium rt w job_id file_path st
  end.

(** The worker's view of the application state, and back. *)
Definition worker_state (a : app) : state := mkState (app_jobs a) [] false.

Definition with_jobs (a : app) (st : state) : app :=
  mkApp (users a) (jobs st) (files a) (queue a).

End Api.

(** The job and the file a queued task names. *)
Definition task_job (t : Api.task) : string :=
  match t with
  | Api.FreeTask job_id _ => job_id
  | Api.PremiumTask job_id _ => job_id
  end.

Definition task_path (t : Api.task) : string :=
  match t with
  | Api.FreeTask _ file_path => file_path
  | Api.PremiumTask _ file_path => file_path
  end.

Definition task_is_premium (t : Api.task) : bool :=
  match t with
  | Api.FreeTask _ _ => false
  | Api.PremiumTask _ _ => true
  end.

(** An application to evaluate the routes in: one user, no job yet; the
    token is the user's address. *)
Definition example_user : Api.User :=
  Api.mkUser 7 "ann@example.org" "$2b$12$abc" (Some "Ann") true.

Definition example_app : Api.app := Api.mkApp [example_user] ∅ ∅ [].

Definition example_verify_token (credentials : string) : Api.answer (option string) :=
  if String.eqb credentials "" then Api.HTTPException 401 "Invalid token"
  else Api.Response (Some credentials).

Definition example_upload : Api.UploadFile :=
  Api.mkUploadFile (Some "video/mp4") "in.mp4" "0123456789".

(** The start of the last pair of a trace, or [st] if there is none: the
    value of [start_time] in [VideoProcessor] after the pairs are read. *)
Definition last_start (pairs : list ((string * string) * interval)) (st : option Q)
  : option Q :=
  match rev pairs with
  | (_, (s, _)) :: _ => Some s
  | [] => st
  end.

(** An end line on its own, read as [e] by both parsers. *)
Definition lone_end_line (le : string) (e : Q) : bool :=
  negb (has_char newline le)
  && negb (contains "silence_start" le) && contains "silence_end" le
  && same_time (remsi_time_of "silence_end: " le) e
  && same_time (vp_time_of "silence_end: " le) e.

(** ** [main.py]: registration and login *)

Module ApiAuth.

(** [UserCreate], which [UserLogin] is a part of. *)
Record UserCreate : Type := mkUserCreate {
  uc_email : string;
  uc_password : string;
  uc_full_name : option string
}.

Record UserResponse : Type := mkUserResponse {
  ur_id : Z;
  ur_email : string;
  ur_full_name : option string;
  ur_access_token : string
}.

Section WithAuth.

(** The three functions of [auth.py] the routes call; [auth.py] is not part
    of the sources at hand. *)
Variable get_password_hash : string -> string.
Variable verify_password : string -> string -> bool.
Variable create_access_token : string -> string.

(** [register]; [new_id] is the id the database gives the new row. *)
Definition register (user_data : UserCreate) (new_id : Z) (us : list Api.User)
  : Api.answer UserResponse * list Api.User :=
  match Api.find_user us (Some (uc_email user_data)) with
  | Some _ => (Api.HTTPException 400 "Email already registered", us)
  | None =>
      let user := Api.mkUser new_id (uc_email user_data)
                    (get_password_hash (uc_password user_data))
                    (uc_full_name user_data) true in
      (Api.Response (mkUserResponse (Api.u_id user) (Api.email user) (Api.full_name user)
                       (create_access_token (Api.email user))),
       us ++ [user])
  end.

Definition login (email password : string) (us : list Api.User)
  : Api.answer UserResponse :=
  match Api.find_user us (Some email) with
  | None => Api.HTTPException 401 "Invalid credentials"
  | Some user =>
      if negb (verify_password password (Api.hashed_password user))
      then Api.HTTPException 401 "Invalid credentials"
      else Api.Response (mkUserResponse (Api.u_id user) (Api.email user)
                           (Api.full_name user) (create_access_token (Api.email user)))
  end.

End WithAuth.

End ApiAuth.

(** * Properties *)

(** ** Comparisons *)

Lemma Qltb_lt (x y : Q) : Qltb x y = true <-> (x < y)%Q.
Proof.
  unfold Qltb. rewrite negb_true_iff. split; intros H.
  - apply Qnot_le_lt. intros Hle. apply Qle_bool_iff in Hle. congruence.
  - destruct (Qle_bool y x) eqn:E; [|reflexivity].
    apply Qle_bool_iff in E. lra.
Qed.

Lemma Qltb_ge (x y : Q) : Qltb x y = false <-> (y <= x)%Q.
Proof.
  unfold Qltb. rewrite negb_false_iff. apply Qle_bool_iff.
Qed.

Ltac qcases :=
  repeat match goal with
    | H : Qltb _ _ = true |- _ => apply Qltb_lt in H
    | H : Qltb _ _ = false |- _ => apply Qltb_ge in H
    | H : Qle_bool _ _ = true |- _ => apply Qle_bool_iff in H
    | H : Qle_bool ?x ?y = false |- _ =>
        assert (y < x)%Q by (apply Qnot_le_lt; intros Hle; apply Qle_bool_iff in Hle; congruence);
        clear H
    | H : andb _ _ = true |- _ => apply andb_true_iff in H; destruct H
    end.

(** ** The loop of the planner *)

(** The [for] loop followed by the "final segment" test computes the gaps of
    its argument, whatever the argument is. *)
Lemma scan_gaps (D : Q) (l : list interval) (acc : list interval) (c : Q) :
  (let '(ns, last_end) := fold_left RemsiProcessor.scan_step l (acc, c) in
   if Qltb last_end D then ns ++ [(last_end, D)] else ns)
  = acc ++ Spec.gaps c l D.
Proof.
  revert acc c. induction l as [|[s e] r IH]; intros acc c; simpl.
  - destruct (Qltb c D); [reflexivity | now rewrite app_nil_r].
  - rewrite IH. destruct (Qltb c s); simpl.
    + now rewrite <- app_assoc.
    + reflexivity.
Qed.

Lemma non_silent_segments_gaps (l : list interval) (D : Q) :
  RemsiProcessor.non_silent_segments l D = Spec.gaps 0 l D.
Proof.
  unfold RemsiProcessor.non_silent_segments. apply (scan_gaps D l [] 0%Q).
Qed.

(** ** Detector-shaped input *)

Lemma sort_silence_set (lo D : Q) (l : list interval) :
  Spec.silence_set_from lo D l = true -> Spec.sort_by_start l = l.
Proof.
  revert lo. induction l as [|[s e] r IH]; intros lo H; [reflexivity|].
  simpl in H. qcases.
  change (Spec.sort_by_start ((s, e) :: r))
    with (Spec.insert_by_start (s, e) (Spec.sort_by_start r)).
  rewrite (IH e) by assumption.
  destruct r as [|[s' e'] r']; [reflexivity|].
  simpl in *. qcases. assert (E : Qle_bool s s' = true) by (apply Qle_bool_iff; lra).
  now rewrite E.
Qed.

Lemma gaps_merge_from (D : Q) (r : list interval) :
  forall s0 e0 c,
    (0 <= s0)%Q -> (s0 < e0)%Q -> (s0 < D)%Q ->
    Spec.silence_set_from e0 D r = true ->
    Spec.gaps c (Spec.clamp_all D (Spec.merge_from (s0, e0) r)) D
    = Spec.gaps c ((s0, e0) :: r) D.
Proof.
  induction r as [|[s e] r IH]; intros s0 e0 c H0 Hse HsD Hwf.
  - unfold Spec.clamp_all; simpl.
    assert (E0 : Qltb s0 0 = false) by (apply Qltb_ge; lra). rewrite E0.
    destruct (Qltb D e0) eqn:EDe; simpl.
    + assert (E1 : Qltb s0 D = true) by (now apply Qltb_lt). rewrite E1. simpl.
      assert (E2 : Qltb D D = false) by (apply Qltb_ge; lra). rewrite E2.
      qcases. assert (E3 : Qltb e0 D = false) by (apply Qltb_ge; lra).
      now rewrite E3.
    + assert (E1 : Qltb s0 e0 = true) by (now apply Qltb_lt). rewrite E1.
      reflexivity.
  - simpl in Hwf. qcases. simpl Spec.merge_from.
    destruct (Qle_bool s e0) eqn:Ele.
    + qcases.
      assert (E1 : Qltb e0 e = true) by (apply Qltb_lt; lra). rewrite E1.
      rewrite IH by (try assumption; lra). simpl.
      assert (E2 : Qltb e0 s = false) by (apply Qltb_ge; lra). rewrite E2.
      reflexivity.
    + qcases. unfold Spec.clamp_all. simpl map.
      assert (E0 : Qltb s0 0 = false) by (apply Qltb_ge; lra). rewrite E0.
      assert (E1 : Qltb D e0 = false) by (apply Qltb_ge; lra). rewrite E1.
      cbn [List.filter fst snd].
      assert (E2 : Qltb s0 e0 = true) by (now apply Qltb_lt). rewrite E2.
      cbn [Spec.gaps].
      fold (Spec.clamp_all D (Spec.merge_from (s, e) r)).
      rewrite IH by (try assumption; try lra;
        simpl; rewrite ?andb_true_iff; repeat split; try assumption).
      reflexivity.
Qed.

Lemma keep_from_silence_gaps (D : Q) (l : list interval) :
  Spec.silence_set D l = true ->
  Spec.keep_from_silence l D = Spec.gaps 0 l D.
Proof.
  intros H. unfold Spec.keep_from_silence, Spec.complement, Spec.merge.
  rewrite (sort_silence_set 0 D l H).
  destruct l as [|[s e] r]; [reflexivity|].
  unfold Spec.silence_set in H. simpl in H. qcases.
  now apply gaps_merge_from.
Qed.

Lemma silence_set_from_weaken (lo lo' D : Q) (l : list interval) :
  (lo' <= lo)%Q ->
  Spec.silence_set_from lo D l = true -> Spec.silence_set_from lo' D l = true.
Proof.
  destruct l as [|[s e] r]; simpl; intros Hle H; [reflexivity|].
  qcases. rewrite !andb_true_iff. repeat split; try assumption.
  - apply Qle_bool_iff. lra.
  - now apply Qltb_lt.
  - now apply Qltb_lt.
Qed.

Lemma silence_set_from_bounds (D : Q) (l : list interval) :
  forall lo, Spec.silence_set_from lo D l = true ->
  Forall (fun iv => lo <= fst iv /\ fst iv < snd iv /\ fst iv < D)%Q l.
Proof.
  induction l as [|[s e] r IH]; intros lo H; constructor; simpl in H; qcases.
  - simpl. lra.
  - apply IH. apply (silence_set_from_weaken e lo D r); [lra | assumption].
Qed.

(** Every gap lies inside [[c, D]] and is non-empty. *)
Lemma gaps_bounds (D : Q) (l : list interval) :
  forall c, Spec.silence_set_from c D l = true ->
  Forall (fun iv => c <= fst iv /\ fst iv < snd iv /\ snd iv <= D)%Q (Spec.gaps c l D).
Proof.
  induction l as [|[s e] r IH]; intros c H; simpl in *.
  - destruct (Qltb c D) eqn:E; constructor; [|constructor].
    qcases. simpl. lra.
  - qcases. apply List.Forall_app. split.
    + destruct (Qltb c s) eqn:E; constructor; [|constructor].
      qcases. simpl. lra.
    + eapply List.Forall_impl; [|apply IH; assumption].
      intros [a b]; simpl. lra.
Qed.

(** The gaps are in order, each one ending before the next one starts. *)
Lemma gaps_sorted (D : Q) (l : list interval) :
  forall c, Spec.silence_set_from c D l = true ->
  StronglySorted Spec.precedes (Spec.gaps c l D).
Proof.
  induction l as [|[s e] r IH]; intros c H; simpl in *.
  - destruct (Qltb c D); repeat constructor.
  - qcases. destruct (Qltb c s) eqn:E; simpl; [|now apply IH].
    constructor; [now apply IH|].
    eapply List.Forall_impl; [|apply gaps_bounds; eassumption].
    intros [a b]; unfold Spec.precedes; simpl. qcases. lra.
Qed.

(** Inside [[c, D)] the gaps cover exactly what the silence does not. *)
Lemma gaps_covered (D : Q) (l : list interval) :
  forall c, Spec.silence_set_from c D l = true ->
  forall t, (c <= t /\ t < D)%Q ->
  (Spec.covered (Spec.gaps c l D) t <-> ~ Spec.covered l t).
Proof.
  unfold Spec.covered.
  induction l as [|[s e] r IH]; intros c H t Ht; simpl in *.
  - assert (E : Qltb c D = true) by (apply Qltb_lt; lra). rewrite E.
    split.
    + intros _ [iv [[] _]].
    + intros _. exists (c, D). simpl. split; [now left | lra].
  - qcases.
    pose proof (gaps_bounds D r e H0) as Hg.
    pose proof (silence_set_from_bounds D r e H0) as Hs.
    rewrite List.Forall_forall in Hg, Hs.
    destruct (Qlt_le_dec t e) as [Hte|Hte].
    + (* t is before the end of the first silence: nothing later reaches it *)
      destruct (Qlt_le_dec t s) as [Hts|Hts].
      * assert (E : Qltb c s = true) by (apply Qltb_lt; lra). rewrite E.
        split.
        -- intros _ [iv [[Hiv|Hiv] Hin]].
           ++ subst iv. simpl in Hin. lra.
           ++ specialize (Hs _ Hiv). lra.
        -- intros _. exists (c, s). simpl. split; [now left | lra].
      * split.
        -- intros [iv [Hiv Hin]]. apply in_app_or in Hiv. destruct Hiv as [Hiv|Hiv].
           ++ destruct (Qltb c s); [|destruct Hiv].
              destruct Hiv as [Hiv|[]]. subst iv. simpl in Hin. lra.
           ++ specialize (Hg _ Hiv). lra.
        -- intros Hn. exfalso. apply Hn. exists (s, e). simpl. split; [now left | lra].
    + (* t is after the first silence: the first silence and its gap are out of reach *)
      specialize (IH e H0 t (conj Hte (proj2 Ht))).
      split.
      * intros [iv [Hiv Hin]] [iv' [[Hiv'|Hiv'] Hin']].
        -- subst iv'. simpl in Hin'. lra.
        -- apply in_app_or in Hiv. destruct Hiv as [Hiv|Hiv].
           ++ destruct (Qltb c s); [|destruct Hiv].
              destruct Hiv as [Hiv|[]]. subst iv. simpl in Hin. lra.
           ++ apply (proj1 IH); [exists iv | exists iv']; split; assumption.
      * intros Hn.
        destruct (proj2 IH) as [iv [Hiv Hin]].
        -- intros [iv' [Hiv' Hin']]. apply Hn. exists iv'. split; [now right | assumption].
        -- exists iv. split; [apply in_or_app; now right | assumption].
Qed.

(** When there is something to trim, the graph [create_filter_complex] returns
    is built from exactly the intervals [kept_intervals] lists; otherwise it is
    one of the two fixed graphs. *)
Lemma create_filter_complex_of_kept (rt : runtime) (silence : list interval) (D : Q) :
  RemsiProcessor.create_filter_complex rt silence D
  = match silence with
    | [] => RemsiProcessor.identity_filter
    | _ :: _ =>
        match RemsiProcessor.non_silent_segments silence D with
        | [] => RemsiProcessor.all_silence_filter
        | _ :: _ => join ";" (RemsiProcessor.segment_filters rt (kept_intervals silence D))
        end
    end.
Proof.
  unfold RemsiProcessor.create_filter_complex, kept_intervals.
  destruct silence; [reflexivity|].
  destruct (RemsiProcessor.non_silent_segments _ _); reflexivity.
Qed.

Lemma kept_intervals_detector_shape (silence : list interval) (D : Q) :
  Spec.silence_set D silence = true ->
  Spec.keep_from_silence silence D <> [] ->
  kept_intervals silence D = Spec.gaps 0 silence D.
Proof.
  intros Hwf Hne. rewrite (keep_from_silence_gaps D silence Hwf) in Hne.
  unfold kept_intervals. rewrite non_silent_segments_gaps.
  destruct silence as [|iv r].
  - simpl in *. destruct (Qltb 0 D); [reflexivity | congruence].
  - destruct (Spec.gaps 0 (iv :: r) D); [congruence | reflexivity].
Qed.

(** ** C1: the planner against [complement(merge(silence), [0, D])] *)

(** C1, as stated, fails: the planner does not merge.  With a silence interval
    nested in an earlier one, [(0,10)] then [(2,4)], and [D = 15], the code
    keeps [(4,15)], and so the silent instant [5], while the complement of the
    merged silence is [(10,15)]. *)
Lemma C1_counterexample_nested_silence :
  kept_intervals [(0, 10); (2, 4)]%Q 15 = [(4, 15)]%Q
  /\ Spec.keep_from_silence [(0, 10); (2, 4)]%Q 15 = [(10, 15)]%Q
  /\ kept_intervals [(0, 10); (2, 4)]%Q 15 <> Spec.keep_from_silence [(0, 10); (2, 4)]%Q 15
  /\ Spec.covered (kept_intervals [(0, 10); (2, 4)]%Q 15) 5
  /\ Spec.covered [(0, 10); (2, 4)]%Q 5.
Proof.
  repeat split.
  - vm_compute. discriminate.
  - exists (4, 15)%Q. split; [now left | simpl; lra].
  - exists (0, 10)%Q. split; [now left | simpl; lra].
Qed.

(** C1 (amended): for every silence list in the shape the detector produces
    (every interval non-empty and starting in [[0, D)], each one ending before
    the next one starts), if the complement of the merged silence over
    [[0, D]] is not empty, the planner keeps exactly that complement, and at
    every instant of [[0, D)] it keeps the instant if and only if the instant
    is not silent.  In particular, silence [(2.0,4.0), (10.0,11.5)] with
    [D = 15.0] gives [(0,2.0), (4.0,10.0), (11.5,15.0)]. *)
Theorem C1_planner_keeps_complement (silence : list interval) (D : Q) :
  Spec.silence_set D silence = true ->
  Spec.keep_from_silence silence D <> [] ->
  kept_intervals silence D = Spec.keep_from_silence silence D
  /\ (forall t, (0 <= t /\ t < D)%Q ->
        (Spec.covered (kept_intervals silence D) t <-> ~ Spec.covered silence t))
  /\ kept_intervals [(2, 4); (10, 23 # 2)]%Q 15 = [(0, 2); (4, 10); (23 # 2, 15)]%Q.
Proof.
  intros Hwf Hne. split; [|split].
  - rewrite kept_intervals_detector_shape by assumption.
    symmetry. now apply keep_from_silence_gaps.
  - intros t Ht. rewrite kept_intervals_detector_shape by assumption.
    now apply gaps_covered.
  - reflexivity.
Qed.

Lemma C1_witness :
  Spec.silence_set 15 [(2, 4); (10, 23 # 2)]%Q = true
  /\ Spec.keep_from_silence [(2, 4); (10, 23 # 2)]%Q 15 <> []
  /\ kept_intervals [(2, 4); (10, 23 # 2)]%Q 15
     = Spec.keep_from_silence [(2, 4); (10, 23 # 2)]%Q 15.
Proof.
  split; [reflexivity|]. split; [vm_compute; discriminate|].
  apply (C1_planner_keeps_complement [(2, 4); (10, 23 # 2)]%Q 15).
  - reflexivity.
  - vm_compute; discriminate.
Defined.

(** ** C3: a clip that is silent throughout *)

(** C3, as stated, fails: silence [(5,10)] followed by [(0,5)] covers all of
    [[0, 10]] once merged, yet the planner, which reads the list in the order
    given, keeps the whole clip in two pieces. *)
Lemma C3_counterexample_unordered_silence :
  Spec.keep_from_silence [(5, 10); (0, 5)]%Q 10 = []
  /\ kept_intervals [(5, 10); (0, 5)]%Q 10 = [(0, 5); (5, 10)]%Q
  /\ kept_intervals [(5, 10); (0, 5)]%Q 10 <> [(0, epsilon)]%Q.
Proof.
  repeat split. vm_compute. discriminate.
Qed.

(** C3 (amended): for every duration [D > 0] and every silence list in the
    shape the detector produces, if the silence covers all of [[0, D]] (the
    complement of the merged silence is empty), the planner returns the fixed
    "entire video is silence" graph, which keeps the single interval
    [(0, 0.1)]. *)
Theorem C3_all_silent_keeps_epsilon (rt : runtime) (silence : list interval) (D : Q) :
  (0 < D)%Q ->
  Spec.silence_set D silence = true ->
  Spec.keep_from_silence silence D = [] ->
  RemsiProcessor.create_filter_complex rt silence D = RemsiProcessor.all_silence_filter
  /\ kept_intervals silence D = [(0%Q, epsilon)]
  /\ (snd (0%Q, epsilon) - fst (0%Q, epsilon) == 1 # 10)%Q.
Proof.
  intros HD Hwf Hcov.
  rewrite (keep_from_silence_gaps D silence Hwf) in Hcov.
  unfold RemsiProcessor.create_filter_complex, kept_intervals.
  rewrite non_silent_segments_gaps, Hcov.
  destruct silence as [|iv r].
  - simpl in Hcov. assert (E : Qltb 0 D = true) by (now apply Qltb_lt).
    rewrite E in Hcov. discriminate.
  - repeat split.
Qed.

Lemma C3_witness :
  RemsiProcessor.create_filter_complex (mkRuntime (fun _ => "") (fun _ _ => ""))
    [(0, 3); (3, 10)]%Q 10
  = RemsiProcessor.all_silence_filter
  /\ kept_intervals [(0, 3); (3, 10)]%Q 10 = [(0%Q, epsilon)].
Proof.
  destruct (C3_all_silent_keeps_epsilon (mkRuntime (fun _ => "") (fun _ _ => ""))
              [(0, 3); (3, 10)]%Q 10) as [H1 [H2 _]].
  - reflexivity.
  - reflexivity.
  - reflexivity.
  - split; assumption.
Defined.

(** ** C4: the contract of the keep set *)

(** C4, as stated, fails: for silence [(5,6)] followed by [(2,3)] and
    [D = 10] the planner keeps [(0,5)] and [(3,10)], which overlap. *)
Lemma C4_counterexample_overlapping_keep :
  kept_intervals [(5, 6); (2, 3)]%Q 10 = [(0, 5); (3, 10)]%Q
  /\ ~ Spec.keep_set 10 (kept_intervals [(5, 6); (2, 3)]%Q 10).
Proof.
  split; [reflexivity|].
  change (kept_intervals [(5, 6); (2, 3)]%Q 10) with [(0, 5); (3, 10)]%Q.
  intros [Hs _]. inversion Hs as [|a l _ Hall]; subst.
  inversion Hall as [|b l' Hp _]; subst.
  destruct Hp as [_ Hp]. simpl in Hp. lra.
Qed.

(** C4 (amended): for every silence list in the shape the detector produces,
    the trimmed segments the planner computes are strictly ascending by start,
    pairwise non-overlapping, non-empty and inside [[0, D]]; and when
    [D >= 0.1] the same holds of the keep set in all three ways out of the
    planner. *)
Theorem C4_keep_set_contract (silence : list interval) (D : Q) :
  Spec.silence_set D silence = true ->
  Spec.keep_set D (RemsiProcessor.non_silent_segments silence D)
  /\ ((epsilon <= D)%Q -> Spec.keep_set D (kept_intervals silence D)).
Proof.
  intros Hwf.
  assert (Hk : Spec.keep_set D (Spec.gaps 0 silence D)).
  { split.
    - now apply gaps_sorted.
    - eapply List.Forall_impl; [|apply gaps_bounds; exact Hwf].
      intros [a b]. unfold Spec.within. simpl. lra. }
  split.
  - now rewrite non_silent_segments_gaps.
  - intros He. unfold kept_intervals. rewrite non_silent_segments_gaps.
    unfold epsilon in *.
    destruct silence as [|iv r].
    + split; repeat constructor; simpl; lra.
    + destruct (Spec.gaps 0 (iv :: r) D) eqn:E.
      * split; repeat constructor; simpl; lra.
      * exact Hk.
Qed.

Lemma C4_witness :
  Spec.silence_set 15 [(2, 4); (10, 23 # 2)]%Q = true
  /\ Spec.keep_set 15 (kept_intervals [(2, 4); (10, 23 # 2)]%Q 15).
Proof.
  split; [reflexivity|].
  apply (C4_keep_set_contract [(2, 4); (10, 23 # 2)]%Q 15).
  - reflexivity.
  - unfold epsilon. lra.
Defined.

(** ** Splitting a trace into lines *)

Lemma split_char_nonempty (c : ascii) (s : string) : split_char c s <> [].
Proof.
  destruct s as [|a r]; simpl; [discriminate|].
  destruct (Ascii.eqb a c); [discriminate|].
  destruct (split_char c r); discriminate.
Qed.

Lemma split_char_app (c : ascii) (a b : string) :
  split_char c (a +:+ String c b) = split_char c a ++ split_char c b.
Proof.
  induction a as [|x a IH]; simpl.
  - now rewrite Ascii.eqb_refl.
  - destruct (Ascii.eqb x c); rewrite IH; [reflexivity|].
    pose proof (split_char_nonempty c a) as Hne.
    destruct (split_char c a); [congruence | reflexivity].
Qed.

(** ** C2: a trace that ends inside a silence *)

Lemma remsi_parse_lines_trailing_start (line g : string) (t : Q) :
  RemsiProcessor.re_search RemsiProcessor.silence_start_pattern line = Some g ->
  float g = Ok t ->
  forall lines current_start segs,
    RemsiProcessor.parse_lines (lines ++ [line]) current_start segs
    = RemsiProcessor.parse_lines lines current_start segs.
Proof.
  intros Hre Hfl.
  induction lines as [|l ls IH]; intros cs segs; cbn [app RemsiProcessor.parse_lines].
  - unfold Ok in *. rewrite Hre. cbv iota beta. now rewrite Hfl.
  - destruct (RemsiProcessor.re_search RemsiProcessor.silence_start_pattern l).
    + destruct (float s); [apply IH | reflexivity].
    + destruct (RemsiProcessor.re_search RemsiProcessor.silence_end_pattern l);
        [|apply IH].
      destruct cs; [|apply IH].
      destruct (float s); [apply IH | reflexivity].
Qed.

Lemma vp_parse_lines_trailing_start (line after tok : string) (t : Q) :
  contains "silence_start" line = true ->
  index (split_str "silence_start: " line) 1 = Ok after ->
  index (split_ws after) 0 = Ok tok ->
  float tok = Ok t ->
  forall lines start_time segs result,
    VideoProcessor.parse_lines lines start_time segs = Ok result ->
    VideoProcessor.parse_lines (lines ++ [line]) start_time segs = Ok result.
Proof.
  intros Hc Ha Ht Hf.
  induction lines as [|l ls IH]; intros st segs result;
    cbn [app VideoProcessor.parse_lines].
  - unfold Ok in *. rewrite Hc, Ha. cbv iota beta. rewrite Ht. cbv iota beta.
    now rewrite Hf.
  - destruct (contains "silence_start" l).
    + destruct (index (split_str "silence_start: " l) 1); [|discriminate].
      destruct (index (split_ws s) 0); [|discriminate].
      destruct (float s0); [apply IH | discriminate].
    + destruct (contains "silence_end" l); [|apply IH].
      destruct (index (split_str "silence_end: " l) 1); [|discriminate].
      destruct (index (split_ws s) 0); [|discriminate].
      destruct (float s0); [|discriminate].
      destruct st; [apply IH | discriminate].
Qed.

(** C2, as stated, fails: neither parser is given the duration, and both
    forget a start marker that no end marker follows.  For a trace that ends
    with [silence_start: 58.0] no interval [(58.0, 60.0)] comes out. *)
Lemma C2_counterexample_trailing_start_dropped :
  RemsiProcessor._parse_silence_output "[silencedetect @ 0x1] silence_start: 58.0"
    = Ok []
  /\ VideoProcessor._parse_silence_output "[silencedetect @ 0x1] silence_start: 58.0"
    = Ok []
  /\ RemsiProcessor._parse_silence_output "[silencedetect @ 0x1] silence_start: 58.0"
    <> Ok [(58, 60)%Q].
Proof.
  repeat split. vm_compute. discriminate.
Qed.

(** C2 (amended): for every detector trace, appending a last line that carries
    a silence-start marker with a readable time stamp changes nothing in what
    the parsers return: the unmatched start is dropped and no interval is
    emitted for it.  For [RemsiProcessor] this holds of every trace, for
    [VideoProcessor] of every trace it can parse. *)
Theorem C2_trailing_start_is_dropped (output line g after tok : string) (t t' : Q) :
  split_char newline line = [line] ->
  RemsiProcessor.re_search RemsiProcessor.silence_start_pattern line = Some g ->
  float g = Ok t ->
  contains "silence_start" line = true ->
  index (split_str "silence_start: " line) 1 = Ok after ->
  index (split_ws after) 0 = Ok tok ->
  float tok = Ok t' ->
  RemsiProcessor._parse_silence_output (output +:+ String newline line)
    = RemsiProcessor._parse_silence_output output
  /\ (forall result,
        VideoProcessor._parse_silence_output output = Ok result ->
        VideoProcessor._parse_silence_output (output +:+ String newline line) = Ok result).
Proof.
  intros Hline Hre Hfl Hc Ha Ht Hf.
  unfold RemsiProcessor._parse_silence_output, VideoProcessor._parse_silence_output.
  rewrite split_char_app, Hline. split.
  - now apply remsi_parse_lines_trailing_start with (g := g) (t := t).
  - intros result. now apply vp_parse_lines_trailing_start with (after := after) (tok := tok) (t := t').
Qed.

Lemma C2_witness :
  RemsiProcessor._parse_silence_output
    ("silence_start: 2.0" +:+ String newline "silence_end: 4.0"
       +:+ String newline "silence_start: 58.0")
  = RemsiProcessor._parse_silence_output
      ("silence_start: 2.0" +:+ String newline "silence_end: 4.0").
Proof.
  apply (C2_trailing_start_is_dropped
           ("silence_start: 2.0" +:+ String newline "silence_end: 4.0")
           "silence_start: 58.0" "58.0" "58.0" "58.0" 58 58); reflexivity.
Defined.

(** ** C9: lines the parsers cannot read *)

(** The part of the fail-open policy that [RemsiProcessor] implements: a line
    without a marker, and an end marker while no silence is open, are passed
    over. *)
Lemma remsi_skips_unmatched_lines (line : string) (rest : list string)
    (segs : list interval) :
  RemsiProcessor.re_search RemsiProcessor.silence_start_pattern line = None ->
  RemsiProcessor.parse_lines (line :: rest) None segs
  = RemsiProcessor.parse_lines rest None segs.
Proof.
  intros H. cbn [RemsiProcessor.parse_lines]. rewrite H.
  destruct (RemsiProcessor.re_search RemsiProcessor.silence_end_pattern line); reflexivity.
Qed.

(** C9 (the code departs from it): an end marker with no start before it makes
    [VideoProcessor._parse_silence_output] raise, where
    [RemsiProcessor._parse_silence_output] passes over it; and a start marker
    followed by digits and dots that are not a number makes
    [RemsiProcessor._parse_silence_output] raise, which loses the interval
    already read: [detect_silence] then answers with the empty list. *)
Theorem C9_parsers_abort_on_malformed_lines :
  VideoProcessor._parse_silence_output "silence_end: 5.0"
    = Raise (UnboundLocalError
               "cannot access local variable 'start_time' where it is not associated with a value")
  /\ RemsiProcessor._parse_silence_output "silence_end: 5.0" = Ok []
  /\ RemsiProcessor._parse_silence_output
       ("silence_start: 2.0" +:+ String newline "silence_end: 4.0")
     = Ok [(2, 4)%Q]
  /\ RemsiProcessor._parse_silence_output
       ("silence_start: 2.0" +:+ String newline "silence_end: 4.0"
          +:+ String newline "silence_start: 1.2.3")
     = Raise (ValueError "could not convert string to float: '1.2.3'")
  /\ fst (RemsiProcessor.detect_silence example_runtime
            (Examples.world_of "30.0"
               (Completed 0 (Examples.trace_2_4 +:+ String newline "silence_start: 1.2.3"))
               (Completed 0 "") (Ok []))
            "uploads/in.mp4" "-50dB" 1%Q Examples.st0)
     = Ok [].
Proof.
  repeat split.
Qed.

(** ** C5: the filter-graph builder *)

Lemma has_char_append (c : ascii) (a b : string) :
  has_char c (a +:+ b) = has_char c a || has_char c b.
Proof.
  induction a as [|x a IH]; simpl; [reflexivity|].
  rewrite IH. now rewrite orb_assoc.
Qed.

Lemma split_char_free (c : ascii) (s : string) :
  has_char c s = false -> split_char c s = [s].
Proof.
  induction s as [|a r IH]; simpl; intros H; [reflexivity|].
  apply orb_false_iff in H. destruct H as [Ha Hr].
  rewrite Ha, (IH Hr). reflexivity.
Qed.

Lemma split_join (c : ascii) (parts : list string) :
  parts <> [] ->
  Forall (fun p => has_char c p = false) parts ->
  split_char c (join (String c EmptyString) parts) = parts.
Proof.
  induction parts as [|p rest IH]; intros Hne Hall; [congruence|].
  inversion Hall as [|? ? Hp Hrest]; subst.
  destruct rest as [|q rest'].
  - simpl. now apply split_char_free.
  - change (join (String c EmptyString) (p :: q :: rest'))
      with (p +:+ String c EmptyString +:+ join (String c EmptyString) (q :: rest')).
    change (String c EmptyString +:+ join (String c EmptyString) (q :: rest'))
      with (String c (join (String c EmptyString) (q :: rest'))).
    rewrite split_char_app, IH by (congruence || assumption).
    now rewrite (split_char_free c p Hp).
Qed.

Lemma uint_digits_free (d : Decimal.uint) :
  has_char ";"%char (NilEmpty.string_of_uint d) = false.
Proof.
  induction d; simpl; try assumption; reflexivity.
Qed.

Lemma str_of_nat_free (n : nat) : has_char ";"%char (str_of_nat n) = false.
Proof.
  unfold str_of_nat, NilZero.string_of_uint.
  destruct (Nat.to_uint n) eqn:E; try reflexivity;
    rewrite <- E; apply uint_digits_free.
Qed.

Lemma inputs_free (p : string) (n : nat) :
  has_char ";"%char p = false ->
  has_char ";"%char (RemsiProcessor.inputs p n) = false.
Proof.
  intros Hp. unfold RemsiProcessor.inputs. generalize (seq 0 n) as l.
  induction l as [|i l IH]; [reflexivity|].
  destruct l as [|j l'].
  - simpl. rewrite !has_char_append, Hp, str_of_nat_free. reflexivity.
  - change (has_char ";"%char
              (("[" +:+ p +:+ str_of_nat i +:+ "]") +:+ "" +:+
               join "" (map (fun i => "[" +:+ p +:+ str_of_nat i +:+ "]") (j :: l'))) = false).
    rewrite !has_char_append, IH, Hp, str_of_nat_free. reflexivity.
Qed.

Lemma trim_filters_length (rt : runtime) (segments : list interval) :
  forall i, length (RemsiProcessor.trim_filters rt i segments) = (2 * length segments)%nat.
Proof.
  induction segments as [|[s e] r IH]; intros i; simpl; [reflexivity|].
  rewrite IH. lia.
Qed.

Lemma trim_filters_free (rt : runtime) (segments : list interval) :
  printable rt segments = true ->
  forall i, Forall (fun p => has_char ";"%char p = false)
              (RemsiProcessor.trim_filters rt i segments).
Proof.
  induction segments as [|[s e] r IH]; intros H i; simpl; [constructor|].
  simpl in H. apply andb_true_iff in H. destruct H as [H Hr].
  apply andb_true_iff in H. destruct H as [Hs He].
  apply negb_true_iff in Hs, He.
  repeat constructor.
  - rewrite !has_char_append, Hs, He, str_of_nat_free. reflexivity.
  - rewrite !has_char_append, Hs, He, str_of_nat_free. reflexivity.
  - now apply IH.
Qed.

Lemma segment_filters_length (rt : runtime) (segments : list interval) :
  length (RemsiProcessor.segment_filters rt segments) = (2 * length segments + 3)%nat.
Proof.
  unfold RemsiProcessor.segment_filters.
  rewrite length_app, trim_filters_length. simpl. lia.
Qed.

Lemma segment_filters_free (rt : runtime) (segments : list interval) :
  printable rt segments = true ->
  Forall (fun p => has_char ";"%char p = false)
    (RemsiProcessor.segment_filters rt segments).
Proof.
  intros H. unfold RemsiProcessor.segment_filters.
  apply List.Forall_app. split; [now apply trim_filters_free|].
  repeat constructor;
    rewrite !has_char_append, inputs_free, str_of_nat_free by reflexivity;
    reflexivity.
Qed.

(** The two builders are one: on a non-empty list, [_create_filter_complex]
    of [VideoProcessor] is lines 116-130 of [RemsiProcessor]. *)
Lemma builders_agree (rt : runtime) (iv : interval) (rest : list interval) :
  VideoProcessor._create_filter_complex rt (iv :: rest)
  = join ";" (RemsiProcessor.segment_filters rt (iv :: rest)).
Proof. reflexivity. Qed.

Lemma segment_graph_node_count (rt : runtime) (keep : list interval) :
  printable rt keep = true ->
  node_count (join ";" (RemsiProcessor.segment_filters rt keep))
  = (2 * length keep + 3)%nat.
Proof.
  intros H. unfold node_count.
  rewrite split_join.
  - apply segment_filters_length.
  - unfold RemsiProcessor.segment_filters. destruct (RemsiProcessor.trim_filters rt 0 keep); discriminate.
  - now apply segment_filters_free.
Qed.

Lemma trim_filters_nth (rt : runtime) (segments : list interval) :
  forall k i s e,
    nth_error segments i = Some (s, e) ->
    nth_error (RemsiProcessor.trim_filters rt k segments) (2 * i)
    = Some ("[0:v]trim=start=" +:+ repr_float rt s +:+ ":end=" +:+ repr_float rt e
              +:+ ",setpts=PTS-STARTPTS[v" +:+ str_of_nat (k + i) +:+ "]")
    /\ nth_error (RemsiProcessor.trim_filters rt k segments) (2 * i + 1)
       = Some ("[0:a]atrim=start=" +:+ repr_float rt s +:+ ":end=" +:+ repr_float rt e
                 +:+ ",asetpts=PTS-STARTPTS[a" +:+ str_of_nat (k + i) +:+ "]").
Proof.
  induction segments as [|[s0 e0] r IH]; intros k i s e H.
  - destruct i; discriminate H.
  - destruct i as [|i].
    + cbn in H. injection H as -> ->. rewrite Nat.add_0_r. split; reflexivity.
    + cbn [nth_error] in H. destruct (IH (S k) i s e H) as [H1 H2].
      replace (2 * S i)%nat with (S (S (2 * i))) by lia.
      replace (S (S (2 * i)) + 1)%nat with (S (S (2 * i + 1))) by lia.
      cbn [RemsiProcessor.trim_filters nth_error].
      replace (k + S i)%nat with (S k + i)%nat by lia. split; assumption.
Qed.

Lemma split_segment_graph (rt : runtime) (segments : list interval) :
  printable rt segments = true ->
  split_char ";" (join ";" (RemsiProcessor.segment_filters rt segments))
  = RemsiProcessor.segment_filters rt segments.
Proof.
  intros H. apply split_join.
  - unfold RemsiProcessor.segment_filters.
    destruct (RemsiProcessor.trim_filters rt 0 segments); discriminate.
  - now apply segment_filters_free.
Qed.

(** C5, as stated, fails for the builder the pipeline calls: what
    [create_filter_complex] returns is not a function of the intervals its
    graph keeps.  Three inputs that each leave one interval to keep give
    graphs of one, three and five nodes; and two inputs that leave the same
    interval, the first tenth of a second, give different descriptions. *)
Lemma C5_counterexample_one_keep_interval_three_graphs :
  (length (kept_intervals [] 10) = 1%nat
   /\ node_count (RemsiProcessor.create_filter_complex example_runtime [] 10) = 1%nat)
  /\ (length (kept_intervals [(0, 10)]%Q 10) = 1%nat
      /\ node_count (RemsiProcessor.create_filter_complex example_runtime [(0, 10)]%Q 10)
         = 3%nat)
  /\ (length (kept_intervals [(5, 10)]%Q 10) = 1%nat
      /\ node_count (RemsiProcessor.create_filter_complex example_runtime [(5, 10)]%Q 10)
         = 5%nat)
  /\ kept_intervals [(0, 10)]%Q 10 = kept_intervals [(1 # 10, 10)]%Q 10
  /\ RemsiProcessor.create_filter_complex example_runtime [(0, 10)]%Q 10
     <> RemsiProcessor.create_filter_complex example_runtime [(1 # 10, 10)]%Q 10.
Proof.
  repeat split; try reflexivity. vm_compute. discriminate.
Qed.

(** C5 (amended): the description [create_filter_complex] returns is decided
    by the exit taken and, past the two fixed exits, by the list of trimmed
    segments alone.  With no silence it is the one-node identity graph; with
    silence and nothing left to trim it is the fixed three-node graph.
    Otherwise, with [n >= 1] trimmed segments, it is the full chain of
    [2n + 3] nodes, and this holds for [n = 1] too: at places [2i] and
    [2i + 1] the video and audio trims of the [i]-th segment, carrying its
    start and end and labelled [v{i}] and [a{i}]; then the two
    concatenations over [v0 .. v{n-1}] and [a0 .. a{n-1}]; then the final
    pairing.  It is the description [VideoProcessor._create_filter_complex]
    builds from the same segments, and any other call that trims the same
    segments returns the same description, byte for byte. *)
Theorem C5_graph_is_the_chain_of_the_trimmed_segments (rt : runtime)
    (silence_segments : list interval) (video_duration : Q) :
  let segments := RemsiProcessor.non_silent_segments silence_segments video_duration in
  let n := length segments in
  let graph := RemsiProcessor.create_filter_complex rt silence_segments video_duration in
  let nodes := split_char ";" graph in
  (silence_segments = [] ->
     graph = "[0:v][0:a]concat=n=1:v=1:a=1[out]" /\ node_count graph = 1%nat)
  /\ (silence_segments <> [] -> segments = [] ->
      nodes = [ "[0:v]trim=duration=0.1,setpts=PTS-STARTPTS[outv]";
                "[0:a]atrim=duration=0.1,asetpts=PTS-STARTPTS[outa]";
                "[outv][outa]concat=n=1:v=1:a=1[out]" ]
      /\ node_count graph = 3%nat)
  /\ (silence_segments <> [] -> segments <> [] -> printable rt segments = true ->
      node_count graph = (2 * n + 3)%nat
      /\ (forall i s e,
            nth_error segments i = Some (s, e) ->
            nth_error nodes (2 * i)
              = Some ("[0:v]trim=start=" +:+ repr_float rt s +:+ ":end=" +:+ repr_float rt e
                        +:+ ",setpts=PTS-STARTPTS[v" +:+ str_of_nat i +:+ "]")
            /\ nth_error nodes (2 * i + 1)
               = Some ("[0:a]atrim=start=" +:+ repr_float rt s +:+ ":end=" +:+ repr_float rt e
                         +:+ ",asetpts=PTS-STARTPTS[a" +:+ str_of_nat i +:+ "]"))
      /\ nth_error nodes (2 * n)
         = Some (join "" (map (fun j => "[v" +:+ str_of_nat j +:+ "]") (seq 0 n))
                   +:+ "concat=n=" +:+ str_of_nat n +:+ ":v=1:a=0[outv]")
      /\ nth_error nodes (2 * n + 1)
         = Some (join "" (map (fun j => "[a" +:+ str_of_nat j +:+ "]") (seq 0 n))
                   +:+ "concat=n=" +:+ str_of_nat n +:+ ":v=0:a=1[outa]")
      /\ nth_error nodes (2 * n + 2) = Some "[outv][outa]concat=n=1:v=1:a=1[out]"
      /\ (forall start end_,
            segments = [(start, end_)] ->
            graph
            = join ";"
                [ "[0:v]trim=start=" +:+ repr_float rt start +:+ ":end="
                    +:+ repr_float rt end_ +:+ ",setpts=PTS-STARTPTS[v0]";
                  "[0:a]atrim=start=" +:+ repr_float rt start +:+ ":end="
                    +:+ repr_float rt end_ +:+ ",asetpts=PTS-STARTPTS[a0]";
                  "[v0]concat=n=1:v=1:a=0[outv]";
                  "[a0]concat=n=1:v=0:a=1[outa]";
                  "[outv][outa]concat=n=1:v=1:a=1[out]" ])
      /\ graph = VideoProcessor._create_filter_complex rt segments
      /\ (forall silence_segments' video_duration',
            silence_segments' <> [] ->
            RemsiProcessor.non_silent_segments silence_segments' video_duration' = segments ->
            RemsiProcessor.create_filter_complex rt silence_segments' video_duration'
            = graph)).
Proof.
  intros segments n graph nodes. subst nodes graph n segments.
  split; [|split].
  - intros ->. split; reflexivity.
  - intros Hne Hnone. destruct silence_segments as [|iv0 r0]; [congruence|].
    unfold RemsiProcessor.create_filter_complex. rewrite Hnone. split; reflexivity.
  - intros Hne Hsome Hprint.
    destruct silence_segments as [|iv0 r0]; [congruence|].
    assert (Hgraph :
              RemsiProcessor.create_filter_complex rt (iv0 :: r0) video_duration
              = join ";" (RemsiProcessor.segment_filters rt
                            (RemsiProcessor.non_silent_segments (iv0 :: r0) video_duration))).
    { unfold RemsiProcessor.create_filter_complex.
      destruct (RemsiProcessor.non_silent_segments (iv0 :: r0) video_duration);
        [congruence | reflexivity]. }
    rewrite Hgraph.
    generalize dependent (RemsiProcessor.non_silent_segments (iv0 :: r0) video_duration).
    intros segments Hsome Hprint _.
    unfold node_count. rewrite (split_segment_graph rt segments Hprint).
    pose proof (trim_filters_length rt segments 0) as Hlen.
    split; [apply segment_filters_length|].
    unfold RemsiProcessor.segment_filters.
    split; [|split; [|split; [|split; [|split; [|split]]]]].
    + intros i s e H.
      assert (Hi : (i < length segments)%nat) by (apply nth_error_Some; congruence).
      destruct (trim_filters_nth rt segments 0 i s e H) as [H1 H2]. cbn [plus] in H1, H2.
      split; (rewrite nth_error_app1 by lia); assumption.
    + rewrite nth_error_app2 by lia. rewrite Hlen, Nat.sub_diag. reflexivity.
    + rewrite nth_error_app2 by lia. rewrite Hlen.
      replace (2 * length segments + 1 - 2 * length segments)%nat with 1%nat by lia.
      reflexivity.
    + rewrite nth_error_app2 by lia. rewrite Hlen.
      replace (2 * length segments + 2 - 2 * length segments)%nat with 2%nat by lia.
      reflexivity.
    + intros start end_ ->. reflexivity.
    + destruct segments; [congruence | reflexivity].
    + intros [|iv1 r1] D' Hne' Hsame; [congruence|].
      unfold RemsiProcessor.create_filter_complex. rewrite Hsame.
      destruct segments; [congruence | reflexivity].
Qed.

Lemma C5_witness :
  split_char ";" (RemsiProcessor.create_filter_complex example_runtime
                    [(2, 4); (10, 23 # 2)]%Q 15)
  = [ "[0:v]trim=start=0.0:end=2.0,setpts=PTS-STARTPTS[v0]";
      "[0:a]atrim=start=0.0:end=2.0,asetpts=PTS-STARTPTS[a0]";
      "[0:v]trim=start=4.0:end=10.0,setpts=PTS-STARTPTS[v1]";
      "[0:a]atrim=start=4.0:end=10.0,asetpts=PTS-STARTPTS[a1]";
      "[0:v]trim=start=11.5:end=15.0,setpts=PTS-STARTPTS[v2]";
      "[0:a]atrim=start=11.5:end=15.0,asetpts=PTS-STARTPTS[a2]";
      "[v0][v1][v2]concat=n=3:v=1:a=0[outv]";
      "[a0][a1][a2]concat=n=3:v=0:a=1[outa]";
      "[outv][outa]concat=n=1:v=1:a=1[out]" ]
  /\ node_count (RemsiProcessor.create_filter_complex example_runtime
                   [(2, 4); (10, 23 # 2)]%Q 15) = 9%nat.
Proof.
  destruct (C5_graph_is_the_chain_of_the_trimmed_segments example_runtime
              [(2, 4); (10, 23 # 2)]%Q 15) as [_ [_ H]].
  destruct H as [Hcount _].
  - discriminate.
  - discriminate.
  - reflexivity.
  - split; [reflexivity | exact Hcount].
Defined.

(** ** Run lemmas: what each effectful function does to the state *)

Lemma logged_logged (st : state) (a b : list event) :
  logged (logged st a) b = logged st (a ++ b).
Proof. unfold logged; simpl. now rewrite <- app_assoc. Qed.

Lemma run_unchecked (w : world) (cmd : list string) (st : state) :
  run w cmd false st
  = (match subprocess_run w cmd with
     | SpawnError msg => Raise (ExternalError msg)
     | Completed rc out => Ok (rc, out)
     end, logged st [EvRun cmd]).
Proof.
  unfold run, bind, emit, raise, ret, logged; simpl.
  destruct (subprocess_run w cmd); reflexivity.
Qed.

Lemma run_checked (w : world) (cmd : list string) (st : state) :
  run w cmd true st
  = (if succeeded (subprocess_run w cmd)
     then match subprocess_run w cmd with
          | Completed rc out => Ok (rc, out)
          | SpawnError msg => Raise (ExternalError msg)
          end
     else Raise (failure_of cmd (subprocess_run w cmd)),
     logged st [EvRun cmd]).
Proof.
  unfold run, bind, emit, raise, ret, logged, succeeded, failure_of; simpl.
  destruct (subprocess_run w cmd) as [msg|rc out]; [reflexivity|].
  destruct (rc =? 0)%Z; reflexivity.
Qed.

Lemma get_video_duration_run (w : world) (file_path : string) (st : state) :
  VideoProcessor.get_video_duration w file_path st
  = (Ok (probed_duration w file_path), logged st [EvProbe file_path]).
Proof.
  unfold VideoProcessor.get_video_duration, probed_duration, probe_result,
    try_except, bind, emit, lift, raise, ret, logged; simpl.
  destruct (ffmpeg_probe w file_path) as [streams|e]; [|reflexivity].
  destruct (index streams 0) as [[text|]|e]; try reflexivity.
  cbv beta iota delta [Ok]. destruct (float text); reflexivity.
Qed.

Lemma detect_silence_run (rt : runtime) (w : world) (video_path thr : string)
    (min_duration : Q) (st : state) :
  RemsiProcessor.detect_silence rt w video_path thr min_duration st
  = (Ok (detected rt w video_path thr min_duration),
     logged st [EvRun (RemsiProcessor.silencedetect_cmd rt video_path thr min_duration)]).
Proof.
  unfold RemsiProcessor.detect_silence, try_except, bind. rewrite run_unchecked.
  unfold detected, lift, ret.
  destruct (subprocess_run w _) as [msg|rc out]; [reflexivity|].
  simpl. destruct (RemsiProcessor._parse_silence_output out); reflexivity.
Qed.

Lemma process_video_run (rt : runtime) (w : world) (input_path output_path : string)
    (st : state) :
  RemsiProcessor.process_video rt w input_path output_path "-50dB" 1%Q st
  = match ffprobe_duration w input_path with
    | inr _ => (Ok false, logged st [EvRun (RemsiProcessor.probe_cmd input_path)])
    | inl D =>
        (Ok (succeeded (subprocess_run w (encode_cmd rt w input_path output_path D))),
         logged st [ EvRun (RemsiProcessor.probe_cmd input_path);
                     EvRun (RemsiProcessor.silencedetect_cmd rt input_path "-50dB" 1%Q);
                     EvRun (encode_cmd rt w input_path output_path D) ])
    end.
Proof.
  unfold RemsiProcessor.process_video, try_except, bind. rewrite run_unchecked.
  unfold ffprobe_duration, lift.
  destruct (subprocess_run w (RemsiProcessor.probe_cmd input_path)) as [msg|rc out];
    [reflexivity|].
  cbv beta iota delta [Ok snd]. destruct (float (strip out)) as [D|e]; [|reflexivity].
  rewrite detect_silence_run. cbv beta iota delta [Ok].
  rewrite run_checked, !logged_logged. cbn [app].
  fold (encode_cmd rt w input_path output_path D).
  destruct (subprocess_run w (encode_cmd rt w input_path output_path D)) as [msg|rc' out'];
    [reflexivity|].
  unfold succeeded. destruct (rc' =? 0)%Z; reflexivity.
Qed.

Lemma process_with_ffmpeg_run (rt : runtime) (w : world) (file_path : string) (st : state) :
  VideoProcessor.process_with_ffmpeg rt w file_path st
  = (free_tier_result rt w file_path, logged st (free_tier_calls rt w file_path)).
Proof.
  unfold VideoProcessor.process_with_ffmpeg, try_except, bind.
  rewrite get_video_duration_run. cbv beta iota delta [Ok].
  unfold free_tier_result, free_tier_calls.
  destruct (Qltb 60 (probed_duration w file_path)); [reflexivity|].
  rewrite process_video_run.
  destruct (ffprobe_duration w file_path) as [D|e].
  - rewrite logged_logged. cbn [app].
    destruct (succeeded _); reflexivity.
  - rewrite logged_logged. reflexivity.
Qed.

Lemma stored_lookup (st : state) (job_id : string) (j : Job) :
  jobs (stored st job_id j) !! job_id = Some j.
Proof. unfold stored; simpl. apply lookup_insert_eq. Qed.

Lemma process_video_free_run (rt : runtime) (w : world) (job_id file_path : string)
    (st : state) (job : Job) :
  jobs st !! job_id = Some job ->
  Tasks.process_video_free rt w job_id file_path st
  = (Ok tt,
     stored (logged (stored st job_id (set_status PROCESSING job))
               (free_tier_calls rt w file_path))
       job_id (finished_job rt job_id file_path job (free_tier_result rt w file_path))).
Proof.
  intros Hjob.
  unfold Tasks.process_video_free, Tasks.record_failure, try_except, bind, query_job.
  rewrite Hjob. cbv beta iota delta [Ok].
  change (commit_job job_id (set_status PROCESSING job) st)
    with (Ok tt, stored st job_id (set_status PROCESSING job)).
  cbv beta iota delta [Ok].
  rewrite process_with_ffmpeg_run.
  destruct (free_tier_result rt w file_path) as [out|e]; [reflexivity|].
  cbv beta iota.
  change (jobs (logged (stored st job_id (set_status PROCESSING job))
                  (free_tier_calls rt w file_path)))
    with (jobs (stored st job_id (set_status PROCESSING job))).
  rewrite stored_lookup. reflexivity.
Qed.

(** ** C6: the duration cap of the basic tier *)

(** C6, as stated, fails: the cap is put on what [get_video_duration] reads,
    not on the length of the input.  Here the clip is 90 seconds long, as
    [ffprobe] reports, but its first stream carries no [duration] entry;
    [get_video_duration] answers [0.0], the tier error is not raised, the
    detector and the encoder run and the job ends COMPLETED. *)
Lemma C6_counterexample_long_clip_with_unread_duration :
  ffprobe_duration Examples.world_stream_without_duration "uploads/in.mp4" = Ok 90%Q
  /\ fst (VideoProcessor.get_video_duration Examples.world_stream_without_duration
            "uploads/in.mp4" Examples.st0) = Ok 0%Q
  /\ fst (VideoProcessor.process_with_ffmpeg example_runtime
            Examples.world_stream_without_duration "uploads/in.mp4" Examples.st0)
     = Ok "uploads/processed_in.mp4"
  /\ In (EvRun (RemsiProcessor.silencedetect_cmd example_runtime "uploads/in.mp4" "-50dB" 1%Q))
        (trace (snd (Tasks.process_video_free example_runtime
                       Examples.world_stream_without_duration
                       "j1" "uploads/in.mp4" Examples.st0)))
  /\ exists j,
       jobs (snd (Tasks.process_video_free example_runtime
                    Examples.world_stream_without_duration
                    "j1" "uploads/in.mp4" Examples.st0)) !! "j1" = Some j
       /\ status j = COMPLETED
       /\ error_message j = None.
Proof.
  split; [reflexivity|]. split; [reflexivity|]. split; [vm_compute; reflexivity|].
  split.
  - vm_compute. auto.
  - eexists. split; [vm_compute; reflexivity|]. split; reflexivity.
Qed.

(** C6 (amended): a basic-tier job for which [get_video_duration] reads a
    duration above 60 seconds ends FAILED with the tier error recorded (the
    [ValueError] carrying the free-tier message), and the only external call
    made is the duration probe: neither detector nor encoder runs.  When the
    duration read is at most 60 seconds, which includes the [0.0] that stands
    for a duration that could not be read, the tier error is not raised and
    the silence remover is started. *)
Theorem C6_basic_tier_duration_cap (rt : runtime) (w : world) (st : state)
    (job_id file_path : string) (job : Job) :
  jobs st !! job_id = Some job ->
  ((60 < probed_duration w file_path)%Q ->
     fst (VideoProcessor.process_with_ffmpeg rt w file_path st)
       = Raise (ValueError VideoProcessor.tier_message)
     /\ (exists j,
           jobs (snd (Tasks.process_video_free rt w job_id file_path st)) !! job_id = Some j
           /\ status j = FAILED
           /\ error_message j = Some VideoProcessor.tier_message)
     /\ trace (snd (Tasks.process_video_free rt w job_id file_path st))
        = trace st ++ [EvProbe file_path])
  /\ ((probed_duration w file_path <= 60)%Q ->
     fst (VideoProcessor.process_with_ffmpeg rt w file_path st)
       <> Raise (ValueError VideoProcessor.tier_message)
     /\ exists rest,
          trace (snd (Tasks.process_video_free rt w job_id file_path st))
          = trace st ++ EvProbe file_path :: EvRun (RemsiProcessor.probe_cmd file_path) :: rest).
Proof.
  intros Hjob.
  rewrite (process_video_free_run rt w job_id file_path st job Hjob),
    process_with_ffmpeg_run.
  cbn [fst snd]. unfold free_tier_result, free_tier_calls. split.
  - intros Hd. apply Qltb_lt in Hd. rewrite Hd. split; [reflexivity|]. split.
    + eexists. split; [apply stored_lookup|]. split; reflexivity.
    + reflexivity.
  - intros Hd. apply Qltb_ge in Hd. rewrite Hd. split.
    + destruct (ffprobe_duration w file_path); [destruct (succeeded _)|]; discriminate.
    + destruct (ffprobe_duration w file_path); eexists; reflexivity.
Qed.

(** ** The premium pipeline *)

Ltac unfold_whisper :=
  unfold VideoProcessor.process_with_whisper, try_except, bind, get_model_loaded,
    set_model_loaded, emit, lift, ret, raise, Ok, Raise;
  cbn [whisper_model jobs trace fst snd].

Ltac world_cases w :=
  repeat
    (cbv beta iota delta [Ok Raise logged];
     cbn [whisper_model jobs trace fst snd app];
     rewrite ?run_checked;
     match goal with
     | |- context [whisper_load_model w ?a] =>
         destruct (whisper_load_model w a) as [[]|?]
     | |- context [ffmpeg_extract_audio w ?a ?b] =>
         destruct (ffmpeg_extract_audio w a b) as [[]|?]
     | |- context [whisper_transcribe w ?a] =>
         destruct (whisper_transcribe w a) as [[|? ?]|?]
     | |- context [VideoProcessor._create_whisper_filter_complex ?r ?l] =>
         destruct (VideoProcessor._create_whisper_filter_complex r l)
     | |- context [succeeded (subprocess_run w ?c)] =>
         let E := fresh "E" in
         destruct (succeeded (subprocess_run w c)) eqn:E;
         destruct (subprocess_run w c); try discriminate E
     | |- context [os_path_exists w ?a] => destruct (os_path_exists w a)
     | |- context [os_remove w ?a] => destruct (os_remove w a) as [[]|?]
     end).

Lemma process_with_whisper_run (rt : runtime) (w : world) (file_path : string)
    (st : state) :
  VideoProcessor.process_with_whisper rt w file_path st
  = (fst (premium_run rt w (whisper_model st) file_path),
     mkState (jobs st)
       (trace st ++ snd (premium_run rt w (whisper_model st) file_path))
       (model_after w (whisper_model st))).
Proof.
  unfold premium_run, model_after, premium_cmd, audio_path_of.
  unfold_whisper.
  destruct (whisper_model st) eqn:Hm; world_cases w;
    unfold audio_path_of;
    cbv beta iota delta [Ok Raise logged];
    cbn [whisper_model jobs trace fst snd app orb];
    rewrite <- ?app_assoc; cbn [app]; rewrite ?app_nil_r, ?Hm; reflexivity.
Qed.

Lemma process_video_premium_run (rt : runtime) (w : world) (job_id file_path : string)
    (st : state) (job : Job) :
  jobs st !! job_id = Some job ->
  Tasks.process_video_premium rt w job_id file_path st
  = (Ok tt,
     stored
       (mkState (<[job_id := set_status PROCESSING job]> (jobs st))
          (trace st ++ snd (premium_run rt w (whisper_model st) file_path))
          (model_after w (whisper_model st)))
       job_id
       (finished_job rt job_id file_path job
          (fst (premium_run rt w (whisper_model st) file_path)))).
Proof.
  intros Hjob.
  unfold Tasks.process_video_premium, Tasks.record_failure, try_except, bind, query_job.
  rewrite Hjob. cbv beta iota delta [Ok].
  change (commit_job job_id (set_status PROCESSING job) st)
    with (Ok tt, stored st job_id (set_status PROCESSING job)).
  cbv beta iota delta [Ok].
  rewrite process_with_whisper_run.
  cbn [fst snd jobs trace whisper_model stored].
  destruct (fst (premium_run rt w (whisper_model st) file_path)) as [out|e];
    [reflexivity|].
  cbv beta iota. cbn [jobs]. rewrite lookup_insert_eq. reflexivity.
Qed.

Lemma stage_failure_raises (rt : runtime) (w : world) (st : state) (file_path : string)
    (e : exn) :
  stage_failure rt w st file_path e ->
  fst (premium_run rt w (whisper_model st) file_path) = Raise e.
Proof.
  intros H. unfold premium_run.
  assert (Hready : model_ready w st ->
            exists u, (if whisper_model st then inl tt else whisper_load_model w "base") = inl u).
  { intros [Hm|Hl]; [rewrite Hm | rewrite Hl; destruct (whisper_model st)]; eauto. }
  destruct H as [e Hm Hl | e Hr He | e Hr Hx Ht | segs e Hr Hx Ht Hc
                | segs cmd Hr Hx Ht Hc Hs | segs cmd e Hr Hx Ht Hc Hs Hp Hrm].
  - rewrite Hm, Hl. reflexivity.
  - destruct (Hready Hr) as [u ->]. rewrite He. reflexivity.
  - destruct (Hready Hr) as [u ->]. rewrite Hx, Ht. reflexivity.
  - destruct (Hready Hr) as [u ->]. rewrite Hx, Ht. cbv beta iota delta [Ok].
    rewrite Hc. reflexivity.
  - destruct (Hready Hr) as [u ->]. rewrite Hx, Ht. cbv beta iota delta [Ok].
    rewrite Hc. cbv beta iota delta [Ok]. rewrite Hs. reflexivity.
  - destruct (Hready Hr) as [u ->]. rewrite Hx, Ht. cbv beta iota delta [Ok].
    rewrite Hc. cbv beta iota delta [Ok]. rewrite Hs, Hp, Hrm. reflexivity.
Qed.

Ltac distinct_events :=
  repeat constructor; cbn [In]; intuition discriminate.

Lemma premium_calls_once (rt : runtime) (w : world) (loaded : bool) (file_path : string) :
  List.NoDup (snd (premium_run rt w loaded file_path)).
Proof.
  unfold premium_run.
  destruct loaded;
    repeat (match goal with
            | |- context [match ?x with _ => _ end] => destruct x
            | |- context [if ?x then _ else _] => destruct x
            end);
    cbn [snd app]; distinct_events.
Qed.

Lemma free_tier_calls_once (rt : runtime) (w : world) (file_path : string) :
  List.NoDup (free_tier_calls rt w file_path).
Proof.
  unfold free_tier_calls, encode_cmd, RemsiProcessor.probe_cmd,
    RemsiProcessor.silencedetect_cmd, RemsiProcessor.process_cmd.
  destruct (Qltb 60 (probed_duration w file_path)); [distinct_events|].
  destruct (ffprobe_duration w file_path); distinct_events.
Qed.

Lemma C6_witness :
  exists j,
    jobs (snd (Tasks.process_video_free example_runtime
                 (Examples.world_of "90.0" (Completed 0 "") (Completed 0 "") (Ok []))
                 "j1" "uploads/in.mp4" Examples.st0)) !! "j1" = Some j
    /\ status j = FAILED
    /\ error_message j = Some VideoProcessor.tier_message.
Proof.
  destruct (C6_basic_tier_duration_cap example_runtime
              (Examples.world_of "90.0" (Completed 0 "") (Completed 0 "") (Ok []))
              Examples.st0 "j1" "uploads/in.mp4" Examples.job0) as [H _].
  - reflexivity.
  - apply H. vm_compute. reflexivity.
Defined.

(** ** C7: a detector that cannot run *)




(** ** C8: what a failed job records *)

(** C8, as stated, fails for the basic tier: when the encoder exits with
    status 1, [RemsiProcessor.process_video] prints the error and returns
    [False], and what is recorded on the job is the fixed text raised by
    [process_with_ffmpeg], not the message of the encoder's error. *)
Lemma C8_counterexample_basic_message_replaced :
  exists j cmd,
    jobs (snd (Tasks.process_video_free example_runtime
                 (Examples.world_of "30.0" (Completed 0 Examples.trace_2_4)
                    (Completed 1 "Conversion failed!") (Ok []))
                 "j1" "uploads/in.mp4" Examples.st0)) !! "j1" = Some j
    /\ status j = FAILED
    /\ error_message j = Some "Failed to process video with Remsi"
    /\ In (EvRun cmd)
         (trace (snd (Tasks.process_video_free example_runtime
                        (Examples.world_of "30.0" (Completed 0 Examples.trace_2_4)
                           (Completed 1 "Conversion failed!") (Ok []))
                        "j1" "uploads/in.mp4" Examples.st0)))
    /\ subprocess_run
         (Examples.world_of "30.0" (Completed 0 Examples.trace_2_4)
            (Completed 1 "Conversion failed!") (Ok []))
         cmd = Completed 1 "Conversion failed!"
    /\ error_message j <> Some (str_exn example_runtime (CalledProcessError cmd 1)).
Proof.
  eexists. eexists. split; [vm_compute; reflexivity|].
  split; [reflexivity|]. split; [reflexivity|].
  split; [vm_compute; right; right; right; left; reflexivity|].
  split; [reflexivity|]. vm_compute. discriminate.
Qed.

(** C8 (amended): in the premium tier, a failure of any stage (loading the
    model, extracting the audio, transcription, building the graph, encoding,
    removing the temporary file) ends the job FAILED with [str(e)] of the
    exception that stage raised recorded on the job.  In the basic tier, a
    failed encode ends the job FAILED with the fixed message "Failed to
    process video with Remsi".  In both tiers no external call is made twice
    within a run. *)
Theorem C8_failure_is_recorded_once (rt : runtime) (w : world) (st : state)
    (job_id file_path : string) (job : Job) :
  jobs st !! job_id = Some job ->
  (forall e,
     stage_failure rt w st file_path e ->
     exists j,
       jobs (snd (Tasks.process_video_premium rt w job_id file_path st)) !! job_id = Some j
       /\ status j = FAILED
       /\ error_message j = Some (str_exn rt e))
  /\ (forall D,
        (probed_duration w file_path <= 60)%Q ->
        ffprobe_duration w file_path = Ok D ->
        succeeded (subprocess_run w
                     (encode_cmd rt w file_path (VideoProcessor.output_path_of file_path) D))
          = false ->
        exists j,
          jobs (snd (Tasks.process_video_free rt w job_id file_path st)) !! job_id = Some j
          /\ status j = FAILED
          /\ error_message j = Some VideoProcessor.remsi_failure_message)
  /\ (exists calls,
        trace (snd (Tasks.process_video_premium rt w job_id file_path st))
          = trace st ++ calls
        /\ List.NoDup calls)
  /\ (exists calls,
        trace (snd (Tasks.process_video_free rt w job_id file_path st))
          = trace st ++ calls
        /\ List.NoDup calls).
Proof.
  intros Hjob.
  rewrite (process_video_premium_run rt w job_id file_path st job Hjob),
    (process_video_free_run rt w job_id file_path st job Hjob).
  split; [|split; [|split]].
  - intros e He. eexists. split; [apply stored_lookup|].
    rewrite (stage_failure_raises rt w st file_path e He). split; reflexivity.
  - intros D Hd HD Henc. eexists. split; [apply stored_lookup|].
    unfold free_tier_result. apply Qltb_ge in Hd. rewrite Hd, HD.
    cbv beta iota delta [Ok]. rewrite Henc. split; reflexivity.
  - eexists. split; [reflexivity | apply premium_calls_once].
  - eexists. split; [reflexivity | apply free_tier_calls_once].
Qed.

Lemma C8_witness :
  exists j,
    jobs (snd (Tasks.process_video_premium example_runtime
                 (Examples.world_of "30.0" (Completed 0 "") (Completed 0 "")
                    (Raise (ExternalError "CUDA out of memory")))
                 "j1" "uploads/in.mp4" Examples.st0)) !! "j1" = Some j
    /\ status j = FAILED
    /\ error_message j = Some "CUDA out of memory".
Proof.
  destruct (C8_failure_is_recorded_once example_runtime
              (Examples.world_of "30.0" (Completed 0 "") (Completed 0 "")
                 (Raise (ExternalError "CUDA out of memory")))
              Examples.st0 "j1" "uploads/in.mp4" Examples.job0) as [H _].
  - reflexivity.
  - apply (H (ExternalError "CUDA out of memory")).
    apply TranscribeFails; [right; reflexivity | reflexivity | reflexivity].
Defined.

(** ** C10: a duration that cannot be probed *)

(** C10, as stated, fails in its last part: passing the tier check does not
    yet bring the job to detection.  Here [ffmpeg.probe] raises and [ffprobe],
    which [RemsiProcessor.process_video] asks next, exits with status 1
    without printing a duration: the job ends FAILED with the message of the
    silence remover, and the detector is never called. *)
Lemma C10_counterexample_second_probe_fails_too :
  probe_result Examples.world_no_probe_answers "uploads/in.mp4"
  = Raise (ExternalError "ffprobe error (see stderr output for detail)")
  /\ fst (VideoProcessor.get_video_duration Examples.world_no_probe_answers
            "uploads/in.mp4" Examples.st0) = Ok 0%Q
  /\ trace (snd (Tasks.process_video_free example_runtime Examples.world_no_probe_answers
                   "j1" "uploads/in.mp4" Examples.st0))
     = [EvProbe "uploads/in.mp4"; EvRun (RemsiProcessor.probe_cmd "uploads/in.mp4")]
  /\ ~ In (EvRun (RemsiProcessor.silencedetect_cmd example_runtime "uploads/in.mp4"
                    "-50dB" 1%Q))
          (trace (snd (Tasks.process_video_free example_runtime
                         Examples.world_no_probe_answers
                         "j1" "uploads/in.mp4" Examples.st0)))
  /\ exists j,
       jobs (snd (Tasks.process_video_free example_runtime Examples.world_no_probe_answers
                    "j1" "uploads/in.mp4" Examples.st0)) !! "j1" = Some j
       /\ status j = FAILED
       /\ error_message j = Some "Failed to process video with Remsi".
Proof.
  split; [reflexivity|]. split; [reflexivity|].
  assert (Htrace :
            trace (snd (Tasks.process_video_free example_runtime
                          Examples.world_no_probe_answers
                          "j1" "uploads/in.mp4" Examples.st0))
            = [EvProbe "uploads/in.mp4"; EvRun (RemsiProcessor.probe_cmd "uploads/in.mp4")])
    by (vm_compute; reflexivity).
  split; [exact Htrace|]. split.
  - rewrite Htrace. intros [H|[H|[]]]; discriminate H.
  - eexists. split; [vm_compute; reflexivity|]. split; reflexivity.
Qed.

(** C10 (amended): when the probe fails, for whatever reason,
    [get_video_duration] returns [0.0]; the 60-second test of
    [process_with_ffmpeg] then lets the job through: the tier error is not
    raised and the silence remover is started.  Detection follows exactly
    when the silence remover can read a duration from [ffprobe]: then the
    detector is called; otherwise the job ends FAILED with the message of the
    silence remover, after the two probes and nothing else. *)
Theorem C10_failed_probe_passes_tier_check (rt : runtime) (w : world) (st : state)
    (job_id file_path : string) (job : Job) (e : exn) :
  jobs st !! job_id = Some job ->
  probe_result w file_path = Raise e ->
  fst (VideoProcessor.get_video_duration w file_path st) = Ok 0%Q
  /\ fst (VideoProcessor.process_with_ffmpeg rt w file_path st)
     <> Raise (ValueError VideoProcessor.tier_message)
  /\ (exists rest,
        trace (snd (Tasks.process_video_free rt w job_id file_path st))
        = trace st ++ EvProbe file_path :: EvRun (RemsiProcessor.probe_cmd file_path) :: rest)
  /\ (forall D,
        ffprobe_duration w file_path = Ok D ->
        In (EvRun (RemsiProcessor.silencedetect_cmd rt file_path "-50dB" 1%Q))
           (trace (snd (Tasks.process_video_free rt w job_id file_path st))))
  /\ (forall e',
        ffprobe_duration w file_path = Raise e' ->
        fst (VideoProcessor.process_with_ffmpeg rt w file_path st)
          = Raise (Exception_ VideoProcessor.remsi_failure_message)
        /\ trace (snd (Tasks.process_video_free rt w job_id file_path st))
           = trace st ++ [EvProbe file_path; EvRun (RemsiProcessor.probe_cmd file_path)]
        /\ exists j,
             jobs (snd (Tasks.process_video_free rt w job_id file_path st)) !! job_id = Some j
             /\ status j = FAILED
             /\ error_message j = Some VideoProcessor.remsi_failure_message).
Proof.
  intros Hjob Hprobe.
  assert (Hzero : probed_duration w file_path = 0%Q)
    by (unfold probed_duration; now rewrite Hprobe).
  rewrite get_video_duration_run, process_with_ffmpeg_run,
    (process_video_free_run rt w job_id file_path st job Hjob).
  cbn [fst snd]. unfold free_tier_result, free_tier_calls. rewrite Hzero.
  change (Qltb 60 0) with false. cbv iota.
  split; [reflexivity|]. split; [|split; [|split]].
  - destruct (ffprobe_duration w file_path); [destruct (succeeded _)|]; discriminate.
  - destruct (ffprobe_duration w file_path); eexists; reflexivity.
  - intros D HD. rewrite HD. cbn [trace stored logged].
    apply in_or_app. right. cbv beta iota delta [Ok]. cbn [In]. auto.
  - intros e' He'. rewrite He'. cbv beta iota delta [Raise].
    split; [reflexivity|]. split; [reflexivity|].
    eexists. split; [apply stored_lookup|]. split; reflexivity.
Qed.

Lemma C10_witness :
  fst (VideoProcessor.get_video_duration Examples.world_probe_fails "uploads/in.mp4"
         Examples.st0) = Ok 0%Q
  /\ In (EvRun (RemsiProcessor.silencedetect_cmd example_runtime "uploads/in.mp4" "-50dB" 1%Q))
        (trace (snd (Tasks.process_video_free example_runtime Examples.world_probe_fails
                       "j1" "uploads/in.mp4" Examples.st0))).
Proof.
  destruct (C10_failed_probe_passes_tier_check example_runtime Examples.world_probe_fails
              Examples.st0 "j1" "uploads/in.mp4" Examples.job0
              (ExternalError "ffprobe error (see stderr output for detail)"))
    as [H1 [_ [_ [H4 _]]]].
  - reflexivity.
  - reflexivity.
  - split; [exact H1|]. apply (H4 90%Q). reflexivity.
Defined.

(** ** Sanity checks of the runtime pieces *)

Example split_char_lines :
  split_char newline ("a" +:+ String newline "b" +:+ String newline "") = ["a"; "b"; ""].
Proof. reflexivity. Qed.

Example split_str_pieces : split_str "x: " "ax: bx: c" = ["a"; "b"; "c"].
Proof. reflexivity. Qed.

Example split_ws_tokens : split_ws "  58.0 | dur  " = ["58.0"; "|"; "dur"].
Proof. reflexivity. Qed.

Example float_literals :
  float " 11.50 " = Ok (23 # 2)
  /\ parse_float "." = None
  /\ parse_float "5." = Some (5 # 1)
  /\ parse_float ".5" = Some (1 # 2)
  /\ parse_float "-2" = Some (-2 # 1)
  /\ parse_float "0.0" = Some (0 # 1)
  /\ parse_float "abc" = None.
Proof. repeat split. Qed.

Example posix_paths :
  basename "uploads/j1/in.mp4" = "in.mp4"
  /\ dirname "uploads/j1/in.mp4" = "uploads/j1"
  /\ dirname "/in.mp4" = "/"
  /\ dirname "in.mp4" = ""
  /\ path_join "uploads/j1" "processed_in.mp4" = "uploads/j1/processed_in.mp4"
  /\ VideoProcessor.output_path_of "uploads/j1/in.mp4" = "uploads/j1/processed_in.mp4".
Proof. repeat split. Qed.

Example re_search_leftmost :
  RemsiProcessor.re_search "silence_start: " "silence_start: x silence_start: 3.5s"
    = Some "3.5"
  /\ RemsiProcessor.re_search "silence_start: " "silence_start: -0.02" = None
  /\ RemsiProcessor.re_search "silence_end: " "silence_end: 4.0 | silence_duration: 2.0"
     = Some "4.0".
Proof. repeat split. Qed.

Example remsi_example_graph :
  RemsiProcessor.create_filter_complex example_runtime [(2, 4); (10, 23 # 2)]%Q 15
  = "[0:v]trim=start=0.0:end=2.0,setpts=PTS-STARTPTS[v0];[0:a]atrim=start=0.0:end=2.0,asetpts=PTS-STARTPTS[a0];[0:v]trim=start=4.0:end=10.0,setpts=PTS-STARTPTS[v1];[0:a]atrim=start=4.0:end=10.0,asetpts=PTS-STARTPTS[a1];[0:v]trim=start=11.5:end=15.0,setpts=PTS-STARTPTS[v2];[0:a]atrim=start=11.5:end=15.0,asetpts=PTS-STARTPTS[a2];[v0][v1][v2]concat=n=3:v=1:a=0[outv];[a0][a1][a2]concat=n=3:v=0:a=1[outa];[outv][outa]concat=n=1:v=1:a=1[out]".
Proof. vm_compute. reflexivity. Qed.

(** Other ways in which a list that is not in detector shape breaks the
    contract of the keep set: a silence that starts after the end of the clip
    makes the planner keep past the end, and for a clip shorter than [0.1]
    seconds that is silent throughout the fixed fallback is longer than the
    clip. *)
Example keep_past_the_end :
  kept_intervals [(20, 25)]%Q 15 = [(0, 20)]%Q
  /\ kept_intervals [(0, 1 # 20)]%Q (1 # 20) = [(0%Q, epsilon)].
Proof. repeat split. Qed.

(** * Further properties of the modelled code *)

(** ** The tasks and the job table *)

Lemma stored_lookup_ne (st : state) (job_id k : string) (j : Job) :
  k <> job_id -> jobs (stored st job_id j) !! k = jobs st !! k.
Proof. intros Hk. unfold stored; simpl. now apply lookup_insert_ne. Qed.

Lemma task_missing_job (rt : runtime) (w : world) (st : state)
    (job_id file_path : string) :
  jobs st !! job_id = None ->
  Tasks.process_video_free rt w job_id file_path st = (Ok tt, st)
  /\ Tasks.process_video_premium rt w job_id file_path st = (Ok tt, st).
Proof.
  intros H. unfold Tasks.process_video_free, Tasks.process_video_premium,
    try_except, bind, query_job.
  rewrite H. split; reflexivity.
Qed.

(** X16: A task whose job is not in the table does nothing at all: no row is
    written and no external program is called. *)
Theorem task_without_job_is_a_no_op (rt : runtime) (w : world) (st : state)
    (job_id file_path : string) :
  jobs st !! job_id = None ->
  Tasks.process_video_free rt w job_id file_path st = (Ok tt, st)
  /\ Tasks.process_video_premium rt w job_id file_path st = (Ok tt, st).
Proof.
  intros H. unfold Tasks.process_video_free, Tasks.process_video_premium,
    try_except, bind, query_job.
  rewrite H. split; reflexivity.
Qed.

Lemma task_without_job_witness :
  Tasks.process_video_free example_runtime Examples.world_probe_fails "j2" "uploads/in.mp4"
    Examples.st0 = (Ok tt, Examples.st0).
Proof.
  apply (task_without_job_is_a_no_op example_runtime Examples.world_probe_fails
           Examples.st0 "j2" "uploads/in.mp4").
  reflexivity.
Defined.

(** X17: Neither task lets an exception escape to the worker, and neither touches
    the row of another job, whatever the external programs do. *)
Theorem tasks_never_raise_and_keep_other_rows (rt : runtime) (w : world) (st : state)
    (job_id file_path : string) :
  fst (Tasks.process_video_free rt w job_id file_path st) = Ok tt
  /\ fst (Tasks.process_video_premium rt w job_id file_path st) = Ok tt
  /\ (forall k, k <> job_id ->
        jobs (snd (Tasks.process_video_free rt w job_id file_path st)) !! k = jobs st !! k
        /\ jobs (snd (Tasks.process_video_premium rt w job_id file_path st)) !! k
           = jobs st !! k).
Proof.
  destruct (jobs st !! job_id) as [job|] eqn:Hjob.
  - rewrite (process_video_free_run rt w job_id file_path st job Hjob),
      (process_video_premium_run rt w job_id file_path st job Hjob).
    split; [reflexivity|]. split; [reflexivity|].
    intros k Hk. split.
    + cbn [snd]. rewrite stored_lookup_ne by assumption.
      change (jobs (logged (stored st job_id (set_status PROCESSING job))
                      (free_tier_calls rt w file_path)))
        with (jobs (stored st job_id (set_status PROCESSING job))).
      now apply stored_lookup_ne.
    + cbn [snd]. rewrite stored_lookup_ne by assumption.
      cbn [jobs]. now apply lookup_insert_ne.
  - destruct (task_missing_job rt w st job_id file_path Hjob) as [-> ->].
    repeat split.
Qed.

(** X18: A task that finds its job always leaves it in a terminal state, and
    which one is decided by the processor it called, run in the state with
    the row set to PROCESSING: when the processor returns, the row is
    COMPLETED with the download URL set and the error column untouched; when
    it raises [e], the row is FAILED with [str(e)], for that very [e], in the
    error column and the URL column untouched.  The columns the request
    filled in are never changed. *)
Theorem task_leaves_job_terminal (rt : runtime) (w : world) (st : state)
    (job_id file_path : string) (job : Job) :
  jobs st !! job_id = Some job ->
  forall (st' : state) (r : result string),
    (st' = snd (Tasks.process_video_free rt w job_id file_path st)
     /\ r = fst (VideoProcessor.process_with_ffmpeg rt w file_path
                   (stored st job_id (set_status PROCESSING job))))
    \/ (st' = snd (Tasks.process_video_premium rt w job_id file_path st)
        /\ r = fst (VideoProcessor.process_with_whisper rt w file_path
                      (stored st job_id (set_status PROCESSING job)))) ->
    exists j,
      jobs st' !! job_id = Some j
      /\ user_id j = user_id job /\ filename j = filename job
      /\ file_size j = file_size job /\ use_premium j = use_premium job
      /\ (forall output_path,
            r = Ok output_path ->
            status j = COMPLETED
            /\ processed_file_url j = Some (Tasks.download_url job_id file_path)
            /\ error_message j = error_message job)
      /\ (forall e,
            r = Raise e ->
            status j = FAILED
            /\ processed_file_url j = processed_file_url job
            /\ error_message j = Some (str_exn rt e)).
Proof.
  intros Hjob st' r [[-> ->] | [-> ->]].
  - rewrite (process_video_free_run rt w job_id file_path st job Hjob),
      process_with_ffmpeg_run. cbn [fst snd].
    eexists. split; [apply stored_lookup|].
    destruct (free_tier_result rt w file_path) as [out|e]; cbn;
      do 4 (split; [reflexivity|]); split; intros x Hr; cbv [Ok Raise] in Hr;
      first [discriminate Hr | injection Hr as <-; repeat split].
  - rewrite (process_video_premium_run rt w job_id file_path st job Hjob),
      process_with_whisper_run. cbn [fst snd whisper_model stored].
    eexists. split; [apply stored_lookup|].
    destruct (fst (premium_run rt w (whisper_model st) file_path)) as [out|e]; cbn;
      do 4 (split; [reflexivity|]); split; intros x Hr; cbv [Ok Raise] in Hr;
      first [discriminate Hr | injection Hr as <-; repeat split].
Qed.

Lemma task_leaves_job_terminal_witness :
  exists j,
    jobs (snd (Tasks.process_video_free example_runtime
                 (Examples.world_of "90.0" (Completed 0 Examples.trace_2_4)
                    (Completed 0 "") (Ok []))
                 "j1" "uploads/in.mp4" Examples.st0)) !! "j1" = Some j
    /\ status j = FAILED
    /\ processed_file_url j = None
    /\ error_message j = Some "Free tier only supports videos under 1 minute".
Proof.
  destruct (task_leaves_job_terminal example_runtime
              (Examples.world_of "90.0" (Completed 0 Examples.trace_2_4)
                 (Completed 0 "") (Ok []))
              Examples.st0 "j1" "uploads/in.mp4" Examples.job0)
    with (st' := snd (Tasks.process_video_free example_runtime
                        (Examples.world_of "90.0" (Completed 0 Examples.trace_2_4)
                           (Completed 0 "") (Ok []))
                        "j1" "uploads/in.mp4" Examples.st0))
         (r := @Raise string (ValueError "Free tier only supports videos under 1 minute"))
    as [j [Hj [_ [_ [_ [_ [_ Hfail]]]]]]].
  - reflexivity.
  - left. split; reflexivity.
  - exists j. split; [exact Hj|].
    exact (Hfail (ValueError "Free tier only supports videos under 1 minute") eq_refl).
Defined.

(** ** The premium pipeline: model loading, copy-through, cleanup *)

(** The calls of a premium run, apart from the loading of the model. *)
Lemma premium_run_load_first (rt : runtime) (w : world) (loaded : bool)
    (file_path : string) :
  exists rest,
    snd (premium_run rt w loaded file_path)
    = (if loaded then [] else [EvLoadModel "base"]) ++ rest
    /\ List.filter is_load rest = [].
Proof.
  unfold premium_run.
  repeat (match goal with
          | |- context [match ?x with _ => _ end] => destruct x
          | |- context [if ?x then _ else _] => destruct x
          end);
    cbn [snd]; eexists; (split; [reflexivity || (symmetry; apply app_nil_r) | reflexivity]).
Qed.

(** X13: The transcription model is loaded lazily and kept: a run that starts with
    the model at hand does not load it, and two runs in a row load it once
    when loading succeeds. *)
Theorem whisper_model_is_loaded_once (rt : runtime) (w : world) (st : state)
    (file1 file2 : string) :
  whisper_load_model w "base" = Ok tt ->
  let st1 := snd (VideoProcessor.process_with_whisper rt w file1 st) in
  let st2 := snd (VideoProcessor.process_with_whisper rt w file2 st1) in
  whisper_model st1 = true
  /\ exists calls,
       trace st2 = trace st ++ calls
       /\ length (List.filter is_load calls) = (if whisper_model st then 0 else 1)%nat.
Proof.
  intros Hload st1 st2. subst st1 st2.
  rewrite !process_with_whisper_run. cbn [snd whisper_model trace jobs].
  assert (Hm : model_after w (whisper_model st) = true).
  { unfold model_after. rewrite Hload. apply orb_true_r. }
  split; [exact Hm|]. rewrite Hm.
  destruct (premium_run_load_first rt w (whisper_model st) file1) as [r1 [-> H1]].
  destruct (premium_run_load_first rt w true file2) as [r2 [-> H2]].
  eexists. split; [rewrite <- app_assoc; reflexivity|].
  rewrite !List.filter_app, H1, H2.
  destruct (whisper_model st); reflexivity.
Qed.

Lemma whisper_model_is_loaded_once_witness :
  length (List.filter is_load
            (trace (snd (VideoProcessor.process_with_whisper example_runtime
                           (Examples.world_of "30.0" (Completed 0 "") (Completed 0 "") (Ok []))
                           "uploads/b.mp4"
                           (snd (VideoProcessor.process_with_whisper example_runtime
                                   (Examples.world_of "30.0" (Completed 0 "") (Completed 0 "")
                                      (Ok []))
                                   "uploads/a.mp4" Examples.st0))))))
  = 1%nat.
Proof.
  destruct (whisper_model_is_loaded_once example_runtime
              (Examples.world_of "30.0" (Completed 0 "") (Completed 0 "") (Ok []))
              Examples.st0 "uploads/a.mp4" "uploads/b.mp4") as [_ [calls [Ht Hn]]].
  - reflexivity.
  - rewrite Ht. exact Hn.
Defined.

(** X15: The temporary audio file is removed on the success path only: whenever
    [os.remove] is called the encode (or copy) command of the run has exited
    with status 0, and a run that returns its output path has removed the
    file if it existed.  A run that fails has not removed the file, unless
    the failure is that of the removal itself. *)
Theorem audio_file_removed_only_after_success (rt : runtime) (w : world) (st : state)
    (file_path : string) :
  let r := VideoProcessor.process_with_whisper rt w file_path st in
  exists calls,
    trace (snd r) = trace st ++ calls
    /\ (List.filter is_remove calls <> [] ->
          exists cmd, commands_run calls = [cmd]
                      /\ succeeded (subprocess_run w cmd) = true)
    /\ (forall out, fst r = Ok out ->
          os_path_exists w (audio_path_of file_path) = true ->
          List.filter is_remove calls = [EvRemove (audio_path_of file_path)])
    /\ (forall e, fst r = Raise e ->
          List.filter is_remove calls = []
          \/ os_remove w (audio_path_of file_path) = Raise e).
Proof.
  intros r. subst r. rewrite process_with_whisper_run. cbn [fst snd trace].
  eexists. split; [reflexivity|].
  unfold premium_run.
  split; [|split].
  - destruct (whisper_model st);
      repeat (match goal with
              | |- context [match ?x with _ => _ end] => destruct x eqn:?
              | |- context [if ?x then _ else _] => destruct x eqn:?
              end);
      cbn; intros Hne; try congruence; eexists; split; try reflexivity; assumption.
  - intros out.
    destruct (whisper_model st);
      repeat (match goal with
              | |- context [match ?x with _ => _ end] => destruct x eqn:?
              | |- context [if ?x then _ else _] => destruct x eqn:?
              end);
      cbn; intros Hout Hex; try congruence; try discriminate; reflexivity.
  - intros e.
    destruct (whisper_model st);
      repeat (match goal with
              | |- context [match ?x with _ => _ end] => destruct x eqn:?
              | |- context [if ?x then _ else _] => destruct x eqn:?
              end);
      cbn; unfold Raise; intros He; try discriminate; try (left; reflexivity);
      right; injection He as ->; reflexivity.
Qed.

(** ** The parsers, line by line *)

Lemma strip_prefix_app (p q s : string) :
  strip_prefix (p +:+ q) s
  = match strip_prefix p s with
    | Some r => strip_prefix q r
    | None => None
    end.
Proof.
  revert s. induction p as [|a p IH]; intros s; simpl; [reflexivity|].
  destruct s as [|b s]; [reflexivity|].
  destruct (Ascii.eqb a b); [apply IH | reflexivity].
Qed.

Lemma contains_cons (sub : string) (a : ascii) (r : string) :
  contains sub (String a r) = false ->
  strip_prefix sub (String a r) = None /\ contains sub r = false.
Proof.
  cbn [contains]. destruct (strip_prefix sub (String a r)); [discriminate|].
  intros H. split; [reflexivity | exact H].
Qed.

Lemma contains_nil (sub : string) :
  contains sub EmptyString = false -> strip_prefix sub EmptyString = None.
Proof.
  cbn [contains]. destruct (strip_prefix sub EmptyString); [discriminate | reflexivity].
Qed.

(** A line in which the bare marker does not occur is not matched by the
    pattern made of the marker, a colon, a blank and a number. *)
Lemma re_search_absent (p q line : string) :
  contains p line = false -> RemsiProcessor.re_search (p +:+ q) line = None.
Proof.
  induction line as [|a r IH]; intros H.
  - apply contains_nil in H. cbn [RemsiProcessor.re_search].
    rewrite strip_prefix_app, H. reflexivity.
  - apply contains_cons in H. destruct H as [H1 H2].
    cbn [RemsiProcessor.re_search]. rewrite strip_prefix_app, H1. now apply IH.
Qed.

Lemma split_str_absent (sep s : string) :
  contains sep s = false -> split_str sep s = [s].
Proof.
  unfold split_str. induction s as [|a r IH]; intros H; [reflexivity|].
  apply contains_cons in H. destruct H as [H1 H2].
  cbn [split_from]. rewrite H1, (IH H2). reflexivity.
Qed.

Lemma remsi_parse_lines_skip (junk : string) :
  RemsiProcessor.re_search RemsiProcessor.silence_start_pattern junk = None ->
  RemsiProcessor.re_search RemsiProcessor.silence_end_pattern junk = None ->
  forall l1 l2 cs segs,
    RemsiProcessor.parse_lines (l1 ++ junk :: l2) cs segs
    = RemsiProcessor.parse_lines (l1 ++ l2) cs segs.
Proof.
  intros Hs He. induction l1 as [|l ls IH]; intros l2 cs segs;
    cbn [app RemsiProcessor.parse_lines].
  - rewrite Hs, He. reflexivity.
  - destruct (RemsiProcessor.re_search RemsiProcessor.silence_start_pattern l).
    + destruct (float s); [apply IH | reflexivity].
    + destruct (RemsiProcessor.re_search RemsiProcessor.silence_end_pattern l);
        [|apply IH].
      destruct cs; [|apply IH].
      destruct (float s); [apply IH | reflexivity].
Qed.

Lemma vp_parse_lines_skip (junk : string) :
  contains "silence_start" junk = false ->
  contains "silence_end" junk = false ->
  forall l1 l2 st segs,
    VideoProcessor.parse_lines (l1 ++ junk :: l2) st segs
    = VideoProcessor.parse_lines (l1 ++ l2) st segs.
Proof.
  intros Hs He. induction l1 as [|l ls IH]; intros l2 st segs;
    cbn [app VideoProcessor.parse_lines].
  - rewrite Hs, He. reflexivity.
  - destruct (contains "silence_start" l).
    + destruct (index (split_str "silence_start: " l) 1); [|reflexivity].
      destruct (index (split_ws s) 0); [|reflexivity].
      destruct (float s0); [apply IH | reflexivity].
    + destruct (contains "silence_end" l); [|apply IH].
      destruct (index (split_str "silence_end: " l) 1); [|reflexivity].
      destruct (index (split_ws s) 0); [|reflexivity].
      destruct (float s0); [|reflexivity].
      destruct st; [apply IH | reflexivity].
Qed.

(** X2: A line that mentions neither marker may stand anywhere in a trace without
    changing what either parser returns, be it a list or an exception. *)
Theorem parsers_ignore_unmarked_lines (before junk after : string) :
  split_char newline junk = [junk] ->
  contains "silence_start" junk = false ->
  contains "silence_end" junk = false ->
  RemsiProcessor._parse_silence_output
    (before +:+ String newline (junk +:+ String newline after))
  = RemsiProcessor._parse_silence_output (before +:+ String newline after)
  /\ VideoProcessor._parse_silence_output
       (before +:+ String newline (junk +:+ String newline after))
     = VideoProcessor._parse_silence_output (before +:+ String newline after).
Proof.
  intros Hj Hs He.
  unfold RemsiProcessor._parse_silence_output, VideoProcessor._parse_silence_output.
  rewrite !split_char_app, Hj. cbn [app]. split.
  - apply remsi_parse_lines_skip.
    + apply (re_search_absent "silence_start" ": " junk Hs).
    + apply (re_search_absent "silence_end" ": " junk He).
  - now apply vp_parse_lines_skip.
Qed.

Lemma parsers_ignore_unmarked_lines_witness :
  RemsiProcessor._parse_silence_output
    ("silence_start: 2.0" +:+ String newline
       ("frame=  120 fps=0.0 q=-0.0 size=N/A" +:+ String newline "silence_end: 4.0"))
  = RemsiProcessor._parse_silence_output
      ("silence_start: 2.0" +:+ String newline "silence_end: 4.0").
Proof.
  apply (parsers_ignore_unmarked_lines "silence_start: 2.0"
           "frame=  120 fps=0.0 q=-0.0 size=N/A" "silence_end: 4.0"); reflexivity.
Defined.

(** X4: A line that mentions a marker without the colon and blank after it makes
    [VideoProcessor._parse_silence_output] fail with an [IndexError], since
    [split] then returns a single piece; [RemsiProcessor] finds no match on
    such a line. *)
Theorem vp_marker_without_colon_raises (line : string) (rest : list string)
    (start_time : option Q) (segs : list interval) :
  (contains "silence_start" line = true /\ contains "silence_start: " line = false)
  \/ (contains "silence_start" line = false
      /\ contains "silence_end" line = true /\ contains "silence_end: " line = false) ->
  VideoProcessor.parse_lines (line :: rest) start_time segs
    = Raise (IndexError "list index out of range")
  /\ (contains "silence_start: " line = false ->
      RemsiProcessor.re_search RemsiProcessor.silence_start_pattern line = None).
Proof.
  intros H. split.
  - cbn [VideoProcessor.parse_lines].
    destruct H as [[H1 H2] | [H1 [H2 H3]]].
    + rewrite H1, (split_str_absent _ _ H2). reflexivity.
    + rewrite H1, H2, (split_str_absent _ _ H3). reflexivity.
  - intros Hn. apply (re_search_absent "silence_start: " "" line) in Hn.
    exact Hn.
Qed.

Lemma vp_marker_without_colon_witness :
  VideoProcessor.parse_lines ["silence_start=2.0"; "silence_end: 4.0"] None []
  = Raise (IndexError "list index out of range").
Proof.
  apply (vp_marker_without_colon_raises "silence_start=2.0" ["silence_end: 4.0"] None []).
  left. split; reflexivity.
Defined.

Lemma same_time_eq (o : option Q) (t : Q) : same_time o t = true -> o = Some t.
Proof.
  destruct o as [[n d]|]; [|discriminate]. destruct t as [n' d']. simpl.
  intros H. apply andb_true_iff in H. destruct H as [Hn Hd].
  apply Z.eqb_eq in Hn. apply Pos.eqb_eq in Hd. now subst.
Qed.

Lemma float_of_parse (s : string) (t : Q) : parse_float s = Some t -> float s = Ok t.
Proof. unfold float. now intros ->. Qed.



Lemma trace_lines_free (pairs : list ((string * string) * interval)) :
  forallb paired_lines pairs = true ->
  Forall (fun l => has_char newline l = false) (trace_lines pairs).
Proof.
  induction pairs as [|[[ls le] [s e]] r IH]; intros H; [constructor|].
  cbn [forallb] in H. apply andb_true_iff in H. destruct H as [Hp Hr].
  unfold paired_lines in Hp.
  repeat (apply andb_true_iff in Hp; destruct Hp as [Hp ?]).
  repeat match goal with
         | H : negb _ = true |- _ => apply negb_true_iff in H
         end.
  change (trace_lines (((ls, le), (s, e)) :: r)) with (ls :: le :: trace_lines r).
  repeat constructor; try assumption. now apply IH.
Qed.



(** ** When the parser of [RemsiProcessor] fails *)

Lemma take_number_digits_dots (s : string) :
  digits_dots (RemsiProcessor.take_number s) = true.
Proof.
  induction s as [|c r IH]; [reflexivity|].
  cbn [RemsiProcessor.take_number].
  destruct (is_digit c || Ascii.eqb c ".") eqn:E; [|reflexivity].
  cbn [digits_dots]. now rewrite E, IH.
Qed.

(** What the group of the regular expression captures is never empty and
    consists of digits and dots. *)
Lemma re_search_group (lit line g : string) :
  RemsiProcessor.re_search lit line = Some g ->
  g <> EmptyString /\ digits_dots g = true.
Proof.
  induction line as [|a r IH]; cbn [RemsiProcessor.re_search].
  - destruct (strip_prefix lit EmptyString) as [after|]; [|discriminate].
    destruct (String.eqb (RemsiProcessor.take_number after) EmptyString) eqn:E;
      [discriminate|].
    intros H. injection H as <-. split.
    + intros Hg. rewrite Hg in E. discriminate.
    + apply take_number_digits_dots.
  - destruct (strip_prefix lit (String a r)) as [after|]; [|exact IH].
    destruct (String.eqb (RemsiProcessor.take_number after) EmptyString) eqn:E;
      [exact IH|].
    intros H. injection H as <-. split.
    + intros Hg. rewrite Hg in E. discriminate.
    + apply take_number_digits_dots.
Qed.

Lemma digit_not_space (c : ascii) :
  is_digit c || Ascii.eqb c "." = true ->
  is_space c = false /\ Ascii.eqb c "-" = false /\ Ascii.eqb c "+" = false.
Proof.
  destruct c as [[] [] [] [] [] [] [] []]; vm_compute; intros H;
    try discriminate H; repeat split.
Qed.

Lemma rstrip_digits_dots (s : string) : digits_dots s = true -> rstrip s = s.
Proof.
  induction s as [|c r IH]; [reflexivity|].
  cbn [digits_dots rstrip]. intros H. apply andb_true_iff in H. destruct H as [Hc Hr].
  destruct (digit_not_space c Hc) as [Hs _]. rewrite Hs, (IH Hr). reflexivity.
Qed.

Lemma strip_digits_dots (s : string) : digits_dots s = true -> strip s = s.
Proof.
  intros H. unfold strip.
  assert (Hl : lstrip s = s).
  { destruct s as [|c r]; [reflexivity|].
    cbn [digits_dots] in H. apply andb_true_iff in H. destruct H as [Hc _].
    destruct (digit_not_space c Hc) as [Hs _]. cbn [lstrip]. now rewrite Hs. }
  rewrite Hl. now apply rstrip_digits_dots.
Qed.

Lemma parse_float_digits_dots (s : string) :
  digits_dots s = true -> parse_float s = scan_decimal s 0 None false.
Proof.
  intros H. unfold parse_float. rewrite (strip_digits_dots s H).
  destruct s as [|c r]; [reflexivity|].
  cbn [digits_dots] in H. apply andb_true_iff in H. destruct H as [Hc _].
  destruct c as [[] [] [] [] [] [] [] []]; try reflexivity;
    vm_compute in Hc; discriminate Hc.
Qed.

Lemma digit_is_not_dot (c : ascii) : is_digit c = true -> Ascii.eqb c "." = false.
Proof.
  destruct c as [[] [] [] [] [] [] [] []]; vm_compute; intros H;
    try discriminate H; reflexivity.
Qed.

Lemma scan_decimal_fails (s : string) :
  digits_dots s = true ->
  forall mant scale seen,
    scan_decimal s mant scale seen = None
    <-> (seen = false /\ has_digit s = false)
        \/ (2 <= count_dots s + match scale with Some _ => 1 | None => 0 end)%nat.
Proof.
  induction s as [|c r IH]; intros H mant scale seen.
  - cbn. destruct seen, scale; split; intros; try discriminate; try tauto;
      try (right; lia); try (left; tauto);
      match goal with H : _ \/ _ |- _ => destruct H as [[? ?]|?]; try discriminate; try lia end.
  - cbn [digits_dots] in H. apply andb_true_iff in H. destruct H as [Hc Hr].
    cbn [scan_decimal count_dots has_digit].
    destruct (Ascii.eqb c ".") eqn:Edot.
    + assert (Hd : is_digit c = false).
      { destruct (is_digit c) eqn:E; [|reflexivity].
        apply digit_is_not_dot in E. congruence. }
      rewrite Hd. cbn [orb].
      destruct scale as [k|].
      * split; [intros _; right; lia | reflexivity].
      * rewrite (IH Hr mant (Some 1%positive) seen). split; intros [?|?]; auto; right; lia.
    + assert (Hd : is_digit c = true) by (now rewrite ?Edot, orb_false_r in Hc).
      rewrite Hd. cbn [orb plus].
      rewrite (IH Hr _ (option_map (Pos.mul 10) scale) true).
      destruct scale; cbn [option_map]; split; intros [[? ?]|?]; try discriminate;
        right; assumption.
Qed.

(** What [float] does with a captured group: it fails exactly on a group
    without a digit or with more than one dot. *)
Lemma float_of_group_fails (g : string) :
  digits_dots g = true ->
  (parse_float g = None <-> has_digit g = false \/ (2 <= count_dots g)%nat).
Proof.
  intros H. rewrite (parse_float_digits_dots g H), (scan_decimal_fails g H).
  split; intros [?|?]; try (left; tauto); right; lia.
Qed.

Lemma remsi_parse_lines_raise (lines : list string) :
  forall current_start segs e,
    RemsiProcessor.parse_lines lines current_start segs = Raise e ->
    exists line g,
      In line lines
      /\ (RemsiProcessor.re_search RemsiProcessor.silence_start_pattern line = Some g
          \/ RemsiProcessor.re_search RemsiProcessor.silence_end_pattern line = Some g)
      /\ e = ValueError ("could not convert string to float: '" +:+ g +:+ "'")
      /\ (has_digit g = false \/ (2 <= count_dots g)%nat).
Proof.
  assert (Hfl : forall lit line g e,
            RemsiProcessor.re_search lit line = Some g -> float g = inr e ->
            e = ValueError ("could not convert string to float: '" +:+ g +:+ "'")
            /\ (has_digit g = false \/ (2 <= count_dots g)%nat)).
  { intros lit line g e Hre He. unfold float in He.
    destruct (parse_float g) eqn:Ep; [discriminate|].
    injection He as <-. split; [reflexivity|].
    apply float_of_group_fails; [|assumption].
    now apply (re_search_group lit line g). }
  induction lines as [|l ls IH]; intros cs segs e; cbn [RemsiProcessor.parse_lines].
  - discriminate.
  - destruct (RemsiProcessor.re_search RemsiProcessor.silence_start_pattern l) as [g|] eqn:Es.
    + destruct (float g) as [t|e'] eqn:Ef.
      * intros H. destruct (IH _ _ _ H) as [line [g' [Hin Hrest]]].
        exists line, g'. split; [now right | exact Hrest].
      * intros H. injection H as <-. exists l, g.
        split; [now left|]. split; [now left|]. eapply Hfl; eassumption.
    + destruct (RemsiProcessor.re_search RemsiProcessor.silence_end_pattern l) as [g|] eqn:Ee.
      * destruct cs as [st|].
        -- destruct (float g) as [t|e'] eqn:Ef.
           ++ intros H. destruct (IH _ _ _ H) as [line [g' [Hin Hrest]]].
              exists line, g'. split; [now right | exact Hrest].
           ++ intros H. injection H as <-. exists l, g.
              split; [now left|]. split; [now right|]. eapply Hfl; eassumption.
        -- intros H. destruct (IH _ _ _ H) as [line [g' [Hin Hrest]]].
           exists line, g'. split; [now right | exact Hrest].
      * intros H. destruct (IH _ _ _ H) as [line [g' [Hin Hrest]]].
        exists line, g'. split; [now right | exact Hrest].
Qed.

(** X3: The only way [RemsiProcessor._parse_silence_output] fails: some line of
    the trace carries a marker followed by digits and dots that hold no digit
    or more than one dot; the exception is the [ValueError] of [float] on that
    text. *)
Theorem remsi_parser_fails_only_on_bad_number (output : string) (e : exn) :
  RemsiProcessor._parse_silence_output output = Raise e ->
  exists line g,
    In line (split_char newline output)
    /\ (RemsiProcessor.re_search RemsiProcessor.silence_start_pattern line = Some g
        \/ RemsiProcessor.re_search RemsiProcessor.silence_end_pattern line = Some g)
    /\ e = ValueError ("could not convert string to float: '" +:+ g +:+ "'")
    /\ (has_digit g = false \/ (2 <= count_dots g)%nat).
Proof.
  unfold RemsiProcessor._parse_silence_output. apply remsi_parse_lines_raise.
Qed.

Lemma remsi_parser_fails_witness :
  exists line g,
    In line (split_char newline "silence_start: 1.2.3")
    /\ (RemsiProcessor.re_search RemsiProcessor.silence_start_pattern line = Some g
        \/ RemsiProcessor.re_search RemsiProcessor.silence_end_pattern line = Some g)
    /\ ValueError "could not convert string to float: '1.2.3'"
       = ValueError ("could not convert string to float: '" +:+ g +:+ "'")
    /\ (has_digit g = false \/ (2 <= count_dots g)%nat).
Proof.
  apply (remsi_parser_fails_only_on_bad_number "silence_start: 1.2.3"
           (ValueError "could not convert string to float: '1.2.3'")).
  reflexivity.
Defined.

(** ** The planner: what is kept adds up, and planning twice *)

Lemma gaps_total_length (D : Q) (l : list interval) :
  forall c,
    (c <= D)%Q ->
    Spec.silence_set_from c D l = true ->
    ends_within D l = true ->
    (total_length (Spec.gaps c l D) + total_length l == D - c)%Q.
Proof.
  induction l as [|[s e] r IH]; intros c Hc Hwf Hend.
  - cbn [Spec.gaps total_length].
    destruct (Qltb c D) eqn:E; cbn [total_length]; qcases; lra.
  - cbn [Spec.silence_set_from ends_within] in Hwf, Hend. qcases.
    cbn [Spec.gaps]. pose proof (IH e ltac:(assumption) ltac:(assumption) ltac:(assumption)) as IHe.
    destruct (Qltb c s) eqn:E; cbn [app total_length]; qcases; lra.
Qed.

(** X7: For silence in detector shape that ends within the clip, the lengths of
    the trimmed segments and of the silences add up to the duration: nothing
    is kept twice and nothing but silence is dropped. *)
Theorem kept_and_silence_add_up (silence : list interval) (D : Q) :
  (0 <= D)%Q ->
  Spec.silence_set D silence = true ->
  ends_within D silence = true ->
  (total_length (RemsiProcessor.non_silent_segments silence D) + total_length silence
   == D)%Q.
Proof.
  intros HD Hwf Hend. rewrite non_silent_segments_gaps.
  rewrite (gaps_total_length D silence 0 HD Hwf Hend). lra.
Qed.

Lemma kept_and_silence_add_up_witness :
  (total_length (RemsiProcessor.non_silent_segments [(2, 4); (10, 23 # 2)]%Q 15)
   + total_length [(2, 4); (10, 23 # 2)]%Q == 15)%Q.
Proof.
  apply (kept_and_silence_add_up [(2, 4); (10, 23 # 2)]%Q 15).
  - lra.
  - reflexivity.
  - reflexivity.
Defined.

Lemma gaps_of_gaps (D : Q) (r : list interval) :
  forall s e,
    (s < e)%Q -> (e < D)%Q ->
    separated_from e D r = true ->
    Spec.gaps s (Spec.gaps e r D) D = (s, e) :: r.
Proof.
  induction r as [|[s' e'] r IH]; intros s e Hse HeD Hsep.
  - cbn [Spec.gaps].
    assert (E1 : Qltb e D = true) by (now apply Qltb_lt). rewrite E1.
    cbn [Spec.gaps app].
    assert (E2 : Qltb s e = true) by (now apply Qltb_lt). rewrite E2.
    assert (E3 : Qltb D D = false) by (apply Qltb_ge; lra). rewrite E3.
    reflexivity.
  - cbn [separated_from] in Hsep. qcases. cbn [Spec.gaps].
    assert (E1 : Qltb e s' = true) by (now apply Qltb_lt). rewrite E1.
    cbn [app Spec.gaps].
    assert (E2 : Qltb s e = true) by (now apply Qltb_lt). rewrite E2.
    cbn [app]. rewrite IH by assumption. reflexivity.
Qed.

(** X8: Planning is its own inverse on silence that lies strictly inside the clip
    with room between the intervals: the non-silent segments of the
    non-silent segments are the silence again. *)
Theorem planning_twice_gives_silence_back (silence : list interval) (D : Q) :
  (0 < D)%Q ->
  separated_from 0 D silence = true ->
  RemsiProcessor.non_silent_segments
    (RemsiProcessor.non_silent_segments silence D) D
  = silence.
Proof.
  intros HD Hsep. rewrite !non_silent_segments_gaps.
  destruct silence as [|[s e] r].
  - cbn [Spec.gaps].
    assert (E1 : Qltb 0 D = true) by (now apply Qltb_lt). rewrite E1.
    cbn [Spec.gaps app].
    assert (E2 : Qltb 0 0 = false) by reflexivity. rewrite E2.
    assert (E3 : Qltb D D = false) by (apply Qltb_ge; lra). rewrite E3.
    reflexivity.
  - cbn [separated_from] in Hsep. qcases. cbn [Spec.gaps].
    assert (E1 : Qltb 0 s = true) by (now apply Qltb_lt). rewrite E1.
    cbn [app Spec.gaps].
    assert (E2 : Qltb 0 0 = false) by reflexivity. rewrite E2.
    cbn [app]. now apply gaps_of_gaps.
Qed.

Lemma planning_twice_witness :
  RemsiProcessor.non_silent_segments
    (RemsiProcessor.non_silent_segments [(2, 4); (10, 23 # 2)]%Q 15) 15
  = [(2, 4); (10, 23 # 2)]%Q.
Proof.
  apply (planning_twice_gives_silence_back [(2, 4); (10, 23 # 2)]%Q 15).
  - lra.
  - reflexivity.
Defined.

(** ** The graph always defines the label the encoder maps *)

Lemma string_app_assoc (a b c : string) : (a +:+ b) +:+ c = a +:+ (b +:+ c).
Proof.
  induction a as [|x a IH]; [reflexivity|].
  change (String x ((a +:+ b) +:+ c) = String x (a +:+ (b +:+ c))).
  now rewrite IH.
Qed.

Lemma join_snoc (sep x : string) (l : list string) :
  exists prefix, join sep (l ++ [x]) = prefix +:+ x.
Proof.
  induction l as [|p r [q IH]].
  - exists EmptyString. reflexivity.
  - destruct r as [|p' r'].
    + exists (p +:+ sep).
      change (join sep ([p] ++ [x])) with (p +:+ sep +:+ x).
      symmetry. apply string_app_assoc.
    + exists (p +:+ sep +:+ q).
      change (join sep ((p :: p' :: r') ++ [x]))
        with (p +:+ sep +:+ join sep ((p' :: r') ++ [x])).
      rewrite IH. now rewrite !string_app_assoc.
Qed.

(** X10: Every graph description the builders return ends with a filter whose
    output is labelled [[out]], the label [process_cmd] passes to [-map]:
    the identity filter, the all-silence filter and the trimmed graph alike. *)
Theorem graphs_end_with_out_label (rt : runtime) :
  (forall silence D,
     exists prefix,
       RemsiProcessor.create_filter_complex rt silence D
       = prefix +:+ "concat=n=1:v=1:a=1[out]")
  /\ (forall segments,
        exists prefix,
          VideoProcessor._create_filter_complex rt segments
          = prefix +:+ "concat=n=1:v=1:a=1[out]")
  /\ (forall segments graph,
        VideoProcessor._create_whisper_filter_complex rt segments = Ok graph ->
        exists prefix, graph = prefix +:+ "concat=n=1:v=1:a=1[out]")
  /\ (forall input_path graph output_path,
        nth_error (RemsiProcessor.process_cmd input_path graph output_path) 6
        = Some "[out]").
Proof.
  assert (Hseg : forall segments,
            exists prefix,
              join ";" (RemsiProcessor.segment_filters rt segments)
              = prefix +:+ "concat=n=1:v=1:a=1[out]").
  { intros segments. unfold RemsiProcessor.segment_filters.
    set (n := length segments).
    change [RemsiProcessor.inputs "v" n +:+ "concat=n=" +:+ str_of_nat n +:+ ":v=1:a=0[outv]";
            RemsiProcessor.inputs "a" n +:+ "concat=n=" +:+ str_of_nat n +:+ ":v=0:a=1[outa]";
            "[outv][outa]concat=n=1:v=1:a=1[out]"]
      with ([RemsiProcessor.inputs "v" n +:+ "concat=n=" +:+ str_of_nat n +:+ ":v=1:a=0[outv]";
             RemsiProcessor.inputs "a" n +:+ "concat=n=" +:+ str_of_nat n +:+ ":v=0:a=1[outa]"]
            ++ ["[outv][outa]concat=n=1:v=1:a=1[out]"]).
    rewrite app_assoc.
    destruct (join_snoc ";" "[outv][outa]concat=n=1:v=1:a=1[out]"
                (RemsiProcessor.trim_filters rt 0 segments ++
                 [RemsiProcessor.inputs "v" n +:+ "concat=n=" +:+ str_of_nat n +:+ ":v=1:a=0[outv]";
                  RemsiProcessor.inputs "a" n +:+ "concat=n=" +:+ str_of_nat n +:+ ":v=0:a=1[outa]"]))
      as [q Hq].
    exists (q +:+ "[outv][outa]"). rewrite Hq. now rewrite string_app_assoc. }
  assert (Hvp : forall segments,
            exists prefix,
              VideoProcessor._create_filter_complex rt segments
              = prefix +:+ "concat=n=1:v=1:a=1[out]").
  { intros [|iv r].
    - exists "[0:v][0:a]". reflexivity.
    - rewrite builders_agree. apply Hseg. }
  split; [|split; [|split]].
  - intros silence D. unfold RemsiProcessor.create_filter_complex.
    destruct silence as [|iv r].
    + exists "[0:v][0:a]". reflexivity.
    + destruct (RemsiProcessor.non_silent_segments (iv :: r) D) as [|iv' r'].
      * eexists. unfold RemsiProcessor.all_silence_filter.
        instantiate (1 := "[0:v]trim=duration=0.1,setpts=PTS-STARTPTS[outv];[0:a]atrim=duration=0.1,asetpts=PTS-STARTPTS[outa];[outv][outa]").
        reflexivity.
      * apply Hseg.
  - exact Hvp.
  - intros segments graph. unfold VideoProcessor._create_whisper_filter_complex.
    destruct segments as [|sg r].
    + intros H. injection H as <-. exists "[0:v][0:a]". reflexivity.
    + destruct (VideoProcessor.segment_bounds (sg :: r)) as [b|e]; [|discriminate].
      intros H. injection H as <-. apply Hvp.
  - reflexivity.
Qed.

(** ** Where the processed file goes *)

Lemma contains_slash_app (a b : string) :
  contains "/" (a +:+ b) = contains "/" a || contains "/" b.
Proof.
  induction a as [|c a IH].
  - cbn. reflexivity.
  - change (String c a +:+ b) with (String c (a +:+ b)).
    cbn [contains strip_prefix]. destruct (Ascii.eqb "/" c); [reflexivity|].
    exact IH.
Qed.

Lemma basename_plain (s : string) : contains "/" s = false -> basename s = s.
Proof.
  destruct s as [|c r]; [reflexivity|]. intros H.
  cbn [contains strip_prefix] in H.
  destruct (Ascii.eqb "/" c) eqn:E; [discriminate|].
  cbn [basename]. rewrite H.
  rewrite Ascii.eqb_sym in E. now rewrite E.
Qed.

Lemma basename_has_no_slash (p : string) : contains "/" (basename p) = false.
Proof.
  induction p as [|c r IH]; [reflexivity|].
  cbn [basename]. destruct (contains "/" r) eqn:E; [exact IH|].
  destruct (Ascii.eqb c "/") eqn:Ec; [exact E|].
  cbn [contains strip_prefix]. rewrite Ascii.eqb_sym in Ec. now rewrite Ec.
Qed.

Lemma basename_app (a b : string) :
  contains "/" b = false -> basename (a +:+ b) = basename a +:+ b.
Proof.
  intros Hb. induction a as [|c a IH].
  - cbn. now apply basename_plain.
  - change (String c a +:+ b) with (String c (a +:+ b)).
    cbn [basename]. rewrite contains_slash_app, Hb, orb_false_r.
    destruct (contains "/" a); [exact IH|].
    destruct (Ascii.eqb c "/"); reflexivity.
Qed.

Lemma basename_trailing_slash (a : string) : basename (a +:+ "/") = EmptyString.
Proof.
  induction a as [|c a IH]; [reflexivity|].
  change (String c a +:+ "/") with (String c (a +:+ "/")).
  cbn [basename]. rewrite contains_slash_app. cbn [contains strip_prefix Ascii.eqb].
  rewrite orb_true_r. exact IH.
Qed.

Lemma ends_with_slash (a : string) :
  String.eqb (substring (String.length a - 1) 1 a) "/" = true ->
  exists a', a = a' +:+ "/".
Proof.
  induction a as [|c a IH]; [discriminate|].
  destruct a as [|c' a'].
  - cbn. destruct (Ascii.eqb c "/") eqn:E; [|discriminate].
    apply Ascii.eqb_eq in E. subst c. intros _. exists EmptyString. reflexivity.
  - replace (String.length (String c (String c' a')) - 1)%nat
      with (S (String.length (String c' a') - 1))
      by (cbn [String.length]; lia).
    cbn [substring]. intros H. destruct (IH H) as [x Hx].
    exists (String c x).
    change (String c x +:+ "/") with (String c (x +:+ "/")). now rewrite <- Hx.
Qed.

(** X12: The processed file is named [processed_] followed by the name of the
    input file, and this is the name the download URL recorded on a
    completed job ends with. *)
Theorem output_name_matches_download_url (job_id file_path : string) :
  basename (VideoProcessor.output_path_of file_path)
    = "processed_" +:+ basename file_path
  /\ Tasks.download_url job_id file_path
     = "/downloads/" +:+ job_id +:+ "/"
       +:+ basename (VideoProcessor.output_path_of file_path).
Proof.
  assert (Hb : contains "/" ("processed_" +:+ basename file_path) = false).
  { rewrite contains_slash_app, basename_has_no_slash. reflexivity. }
  assert (H : basename (VideoProcessor.output_path_of file_path)
              = "processed_" +:+ basename file_path).
  { unfold VideoProcessor.output_path_of, path_join.
    change (strip_prefix "/" ("processed_" +:+ basename file_path)) with (@None string).
    destruct (String.eqb (dirname file_path) EmptyString) eqn:E0.
    - now apply basename_plain.
    - destruct (String.eqb (substring (String.length (dirname file_path) - 1) 1
                              (dirname file_path)) "/") eqn:E1.
      + destruct (ends_with_slash _ E1) as [a' ->].
        rewrite basename_app by exact Hb. now rewrite basename_trailing_slash.
      + rewrite <- string_app_assoc, basename_app by exact Hb.
        now rewrite basename_trailing_slash. }
  split; [exact H|]. unfold Tasks.download_url. now rewrite H.
Qed.

(** ** What the premium pipeline hands to the encoder *)

Lemma segment_bounds_error (segments : list segment) (e : exn) :
  VideoProcessor.segment_bounds segments = Raise e ->
  e = KeyError "start" \/ e = KeyError "end".
Proof.
  induction segments as [|sg r IH]; cbn [VideoProcessor.segment_bounds]; [discriminate|].
  destruct (seg_start sg); [|intros H; injection H as <-; now left].
  destruct (seg_end sg); [|intros H; injection H as <-; now right].
  destruct (VideoProcessor.segment_bounds r); [discriminate|].
  intros H. injection H as <-. now apply IH.
Qed.

(** X14: Once the audio is extracted and transcribed, the run calls one command at
    most: a plain stream copy when the model found no speech, the encoder with
    the graph of exactly the model's segments when it found some, and no
    command at all when a segment lacks its [start] or [end], in which case
    the [KeyError] is what the run raises. *)
Theorem premium_encode_follows_segments (rt : runtime) (w : world) (st : state)
    (file_path : string) (segments : list segment) :
  model_ready w st ->
  ffmpeg_extract_audio w file_path (audio_path_of file_path) = Ok tt ->
  whisper_transcribe w (audio_path_of file_path) = Ok segments ->
  exists calls,
    trace (snd (VideoProcessor.process_with_whisper rt w file_path st))
      = trace st ++ calls
    /\ match segments with
       | [] =>
           commands_run calls
           = [VideoProcessor.copy_cmd file_path (VideoProcessor.output_path_of file_path)]
       | _ :: _ =>
           match VideoProcessor.segment_bounds segments with
           | inl bounds =>
               commands_run calls
               = [RemsiProcessor.process_cmd file_path
                    (VideoProcessor._create_filter_complex rt bounds)
                    (VideoProcessor.output_path_of file_path)]
           | inr e =>
               commands_run calls = []
               /\ fst (VideoProcessor.process_with_whisper rt w file_path st) = Raise e
               /\ (e = KeyError "start" \/ e = KeyError "end")
           end
       end.
Proof.
  intros Hready Hx Ht.
  rewrite process_with_whisper_run. cbn [fst snd trace].
  eexists. split; [reflexivity|].
  assert (Hl : exists u,
             (if whisper_model st then inl tt else whisper_load_model w "base") = inl u).
  { destruct Hready as [Hm|Hl]; [rewrite Hm | rewrite Hl; destruct (whisper_model st)];
      eauto. }
  destruct Hl as [u Hl].
  unfold premium_run. rewrite Hl, Hx, Ht. cbv beta iota delta [Ok].
  unfold premium_cmd.
  destruct segments as [|sg r].
  - cbv beta iota delta [Ok].
    destruct (whisper_model st);
      destruct (succeeded _); [destruct (os_path_exists _ _)| |destruct (os_path_exists _ _)|];
      reflexivity.
  - unfold VideoProcessor._create_whisper_filter_complex.
    destruct (VideoProcessor.segment_bounds (sg :: r)) as [bounds|e] eqn:Eb.
    + cbv beta iota delta [Ok].
      destruct (whisper_model st);
        destruct (succeeded _); [destruct (os_path_exists _ _)| |destruct (os_path_exists _ _)|];
        reflexivity.
    + cbv beta iota delta [Raise]. split; [|split].
      * destruct (whisper_model st); reflexivity.
      * reflexivity.
      * now apply (segment_bounds_error (sg :: r)).
Qed.

Lemma premium_encode_follows_segments_witness :
  exists calls,
    trace (snd (VideoProcessor.process_with_whisper example_runtime
                  (Examples.world_of "30.0" (Completed 0 "") (Completed 0 "") (Ok []))
                  "uploads/in.mp4" Examples.st0))
      = trace Examples.st0 ++ calls
    /\ commands_run calls
       = [VideoProcessor.copy_cmd "uploads/in.mp4"
            (VideoProcessor.output_path_of "uploads/in.mp4")].
Proof.
  apply (premium_encode_follows_segments example_runtime
           (Examples.world_of "30.0" (Completed 0 "") (Completed 0 "") (Ok []))
           Examples.st0 "uploads/in.mp4" []).
  - right. reflexivity.
  - reflexivity.
  - reflexivity.
Defined.

(** ** [RemsiProcessor.process_video]: one answer, three calls at most *)

(** X11: [process_video] never raises.  It returns [True] exactly when [ffprobe]
    printed a duration and the encoder exited with status 0; when the
    duration cannot be read, neither the detector nor the encoder is run. *)
Theorem process_video_outcome (rt : runtime) (w : world) (st : state)
    (input_path output_path : string) :
  let r := RemsiProcessor.process_video rt w input_path output_path "-50dB" 1%Q st in
  (exists b, fst r = Ok b)
  /\ (fst r = Ok true <->
      exists D,
        ffprobe_duration w input_path = Ok D
        /\ succeeded (subprocess_run w (encode_cmd rt w input_path output_path D)) = true)
  /\ (forall e, ffprobe_duration w input_path = Raise e ->
        trace (snd r) = trace st ++ [EvRun (RemsiProcessor.probe_cmd input_path)])
  /\ jobs (snd r) = jobs st.
Proof.
  intros r. subst r. rewrite process_video_run.
  destruct (ffprobe_duration w input_path) as [D|e] eqn:E.
  - cbn [fst snd]. split; [eauto|]. split; [|split].
    + split.
      * intros H. exists D. split; [reflexivity|]. now injection H.
      * intros [D' [HD Hs]]. injection HD as <-. now rewrite Hs.
    + intros e He. discriminate He.
    + reflexivity.
  - cbn [fst snd]. split; [eauto|]. split; [|split].
    + split; [discriminate|]. intros [D' [HD _]]. discriminate HD.
    + intros e' _. reflexivity.
    + reflexivity.
Qed.

(** ** The price list and the tier gate *)

(** X19: The price list and the processor draw the line of the free tier at the
    same place: for the duration the processor probes, [calculate_price]
    quotes no free price exactly when [process_with_ffmpeg] refuses the clip
    with the tier error, and quotes [0.0] otherwise. *)
Theorem free_price_matches_tier_gate (premium_price : Q -> Q) (rt : runtime)
    (w : Sys.world) (st : state) (file_path : string) :
  (PaymentService.calculate_price premium_price (probed_duration w file_path) false = None
   <-> fst (VideoProcessor.process_with_ffmpeg rt w file_path st)
       = Raise (ValueError VideoProcessor.tier_message))
  /\ (PaymentService.calculate_price premium_price (probed_duration w file_path) false
      = Some 0%Q
      <-> fst (VideoProcessor.process_with_ffmpeg rt w file_path st)
          <> Raise (ValueError VideoProcessor.tier_message)).
Proof.
  rewrite process_with_ffmpeg_run. cbn [fst].
  unfold PaymentService.calculate_price, free_tier_result, Qltb.
  destruct (Qle_bool (probed_duration w file_path) 60); cbn [negb].
  - split; split; try discriminate; try reflexivity.
    + destruct (ffprobe_duration w file_path); [destruct (succeeded _)|]; discriminate.
    + intros _.
      destruct (ffprobe_duration w file_path); [destruct (succeeded _)|]; discriminate.
  - split; split; try discriminate; try reflexivity. intros H. now elim H.
Qed.

(** X20: [confirm_payment] says yes exactly when [get_payment_status] reports
    [succeeded]; the two fail together, and a Stripe error reaches the caller
    as a plain exception whose text ends with the text of the Stripe error. *)
Theorem payment_confirmation_agrees_with_status (retrieve : string -> PaymentService.retrieved)
    (payment_intent_id : string) :
  (PaymentService.confirm_payment retrieve payment_intent_id = Ok true
   <-> PaymentService.get_payment_status retrieve payment_intent_id = Ok "succeeded")
  /\ ((exists e, PaymentService.confirm_payment retrieve payment_intent_id = Raise e)
      <-> (exists e, PaymentService.get_payment_status retrieve payment_intent_id = Raise e))
  /\ (forall msg,
        retrieve payment_intent_id = PaymentService.StripeError msg ->
        PaymentService.confirm_payment retrieve payment_intent_id
          = Raise (Exception_ ("Payment confirmation failed: " +:+ msg))
        /\ PaymentService.get_payment_status retrieve payment_intent_id
          = Raise (Exception_ ("Failed to get payment status: " +:+ msg))).
Proof.
  unfold PaymentService.confirm_payment, PaymentService.get_payment_status.
  destruct (retrieve payment_intent_id) as [status|msg|e]; split; [|split| |split| |split].
  - split; intros H.
    + injection H as H. apply String.eqb_eq in H. now subst.
    + injection H as ->. reflexivity.
  - split; intros [e He]; discriminate He.
  - intros msg H. discriminate H.
  - split; discriminate.
  - split; intros _; eauto.
  - intros msg' H. injection H as <-. split; reflexivity.
  - split; discriminate.
  - split; intros _; eauto.
  - intros msg H. discriminate H.
Qed.

(** ** The start-up script *)

(** X21: The server is started only when every check has passed: [ffmpeg -version]
    exited with status 0, the imports went through and the tables were
    created.  A missing or failing [ffmpeg], a missing dependency and a
    failed database set-up end the script with [sys.exit(1)]; an [ffmpeg]
    that cannot be run for another reason is not caught and ends it with
    that exception.  Checks after a failed one are not made. *)
Theorem server_starts_only_after_checks (w : Startup.world) :
  (In Startup.Serve (snd (Startup.main w))
   <-> Startup.ffmpeg_version w = Startup.Exited 0
       /\ Startup.import_dependencies w = Startup.Imported
       /\ exists u, Startup.create_tables w = inl u)
  /\ (fst (Startup.main w) = Startup.Returned <-> In Startup.Serve (snd (Startup.main w)))
  /\ (forall e,
        fst (Startup.main w) = Startup.Crashed e
        <-> Startup.ffmpeg_version w = Startup.CannotRun e
            \/ (Startup.ffmpeg_version w = Startup.Exited 0
                /\ Startup.import_dependencies w = Startup.ImportCrash e))
  /\ (exists rest,
        [Startup.CheckFfmpeg; Startup.CheckImports; Startup.SetupDatabase; Startup.Serve]
        = snd (Startup.main w) ++ rest).
Proof.
  unfold Startup.main, Startup.check_requirements, Startup.setup_database,
    Startup.start_server.
  destruct (Startup.ffmpeg_version w) as [|e0|rc] eqn:Ev;
    [| |destruct (rc =? 0)%Z eqn:Erc;
        [apply Z.eqb_eq in Erc; subst rc;
         destruct (Startup.import_dependencies w) as [|msg|e1] eqn:Ei;
         [destruct (Startup.create_tables w) as [u|e2] eqn:Ec;
          destruct (Startup.serve w)| |]
        |assert (rc <> 0%Z) by (intros ->; discriminate Erc)]];
    cbn;
    (split; [|split; [|split]]);
    try (eexists; reflexivity);
    try intros e;
    split; intros Hyp;
    repeat match goal with
           | H : _ /\ _ |- _ => destruct H
           | H : exists _, _ |- _ => destruct H
           | H : _ \/ _ |- _ => destruct H
           | H : False |- _ => destruct H
           end;
    try discriminate; try congruence;
    try (injection Hyp as ->; auto);
    repeat split; eauto 10.
Qed.

(** ** The job routes *)

(** X22: A refused upload leaves no trace: whenever [create_job] answers with an
    [HTTPException] (bad token, not a video, too large), no row is added, no
    file is written and no task is queued.  A file that is not a video is
    refused before its size is looked at. *)
Theorem refused_upload_leaves_no_trace
    (verify_token : string -> Api.answer (option string)) (can_write : string -> bool)
    (file : Api.UploadFile) (use_premium : bool) (credentials job_id : string)
    (a : Api.app) :
  (forall c d,
     fst (Api.create_job verify_token can_write file use_premium credentials job_id a)
       = Api.HTTPException c d ->
     snd (Api.create_job verify_token can_write file use_premium credentials job_id a) = a)
  /\ (forall user ct,
        verify_token credentials = Api.Response (Some (Api.email user)) ->
        Api.find_user (Api.users a) (Some (Api.email user)) = Some user ->
        Api.content_type file = Some ct ->
        strip_prefix "video/" ct = None ->
        fst (Api.create_job verify_token can_write file use_premium credentials job_id a)
          = Api.HTTPException 400 "File must be a video").
Proof.
  split.
  - intros c d. unfold Api.create_job.
    repeat (match goal with
            | |- context [match ?x with _ => _ end] => destruct x
            | |- context [if ?x then _ else _] => destruct x
            end); cbn [fst snd]; intros H; try discriminate H; reflexivity.
  - intros user ct Hv Hu Hc Hp. unfold Api.create_job.
    rewrite Hv, Hu, Hc, Hp. reflexivity.
Qed.

(** X23: A job is shown to its owner only: [get_job] answers with a response
    exactly for a job whose [user_id] is the id of the user the token names,
    the response carries the columns of that row, and a job of somebody else
    is answered like a job that does not exist. *)
Theorem job_is_shown_to_its_owner_only
    (verify_token : string -> Api.answer (option string))
    (job_id credentials : string) (a : Api.app) :
  (forall r,
     Api.get_job verify_token job_id credentials a = Api.Response r ->
     exists user_email user job,
       verify_token credentials = Api.Response user_email
       /\ Api.find_user (Api.users a) user_email = Some user
       /\ Api.app_jobs a !! job_id = Some job
       /\ user_id job = Api.u_id user
       /\ r = Api.response_of job_id job)
  /\ (forall job,
        Api.app_jobs a !! job_id = Some job ->
        (forall user_email user,
           verify_token credentials = Api.Response user_email ->
           Api.find_user (Api.users a) user_email = Some user ->
           user_id job <> Api.u_id user) ->
        Api.get_job verify_token job_id credentials a
        = Api.get_job verify_token job_id credentials
            (Api.mkApp (Api.users a) (delete job_id (Api.app_jobs a))
               (Api.files a) (Api.queue a))).
Proof.
  split.
  - intros r. unfold Api.get_job.
    destruct (verify_token credentials) as [ue|c d|x] eqn:Ev; try discriminate.
    destruct (Api.find_user (Api.users a) ue) as [user|] eqn:Eu; [|discriminate].
    destruct (Api.app_jobs a !! job_id) as [job|] eqn:Ej; [|discriminate].
    destruct (user_id job =? Api.u_id user)%Z eqn:Eo; [|discriminate].
    intros H. injection H as <-. apply Z.eqb_eq in Eo.
    exists ue, user, job. repeat split; assumption.
  - intros job Hj Hother. unfold Api.get_job. cbn [Api.users Api.app_jobs].
    destruct (verify_token credentials) as [ue|c d|x] eqn:Ev; try reflexivity.
    destruct (Api.find_user (Api.users a) ue) as [user|] eqn:Eu; [|reflexivity].
    rewrite Hj, lookup_delete_eq.
    specialize (Hother ue user eq_refl Eu).
    apply Z.eqb_neq in Hother. now rewrite Hother.
Qed.

Lemma job_is_shown_to_its_owner_only_witness :
  Api.get_job example_verify_token "j1" "bob@example.org"
    (Api.mkApp [example_user; Api.mkUser 8 "bob@example.org" "$2b$12$xyz" None true]
       (<["j1" := Examples.job0]> ∅) ∅ [])
  = Api.HTTPException 404 "Job not found".
Proof.
  destruct (job_is_shown_to_its_owner_only example_verify_token "j1" "bob@example.org"
              (Api.mkApp [example_user; Api.mkUser 8 "bob@example.org" "$2b$12$xyz" None true]
                 (<["j1" := Examples.job0]> ∅) ∅ [])) as [_ H].
  rewrite (H Examples.job0).
  - reflexivity.
  - reflexivity.
  - intros ue user Hv Hu. vm_compute in Hv. injection Hv as <-.
    vm_compute in Hu. injection Hu as <-. vm_compute. discriminate.
Defined.

Lemma create_job_accepted
    (verify_token : string -> Api.answer (option string)) (can_write : string -> bool)
    (file : Api.UploadFile) (use_premium : bool) (credentials job_id : string)
    (a : Api.app) (r : Api.JobResponse) :
  fst (Api.create_job verify_token can_write file use_premium credentials job_id a)
    = Api.Response r ->
  exists user_email user,
    verify_token credentials = Api.Response user_email
    /\ Api.find_user (Api.users a) user_email = Some user
    /\ Api.app_jobs a !! job_id = None
    /\ (Z.of_nat (String.length (Api.content file)) <= Api.max_upload)%Z
    /\ r = Api.mkJobResponse job_id (Api.upload_filename file) PENDING use_premium None None
    /\ snd (Api.create_job verify_token can_write file use_premium credentials job_id a)
       = Api.mkApp (Api.users a)
           (<[job_id := mkJob (Api.u_id user) (Api.upload_filename file)
                          (Z.of_nat (String.length (Api.content file))) use_premium
                          PENDING None None]> (Api.app_jobs a))
           (<[Api.upload_path job_id (Api.upload_filename file) := Api.content file]>
              (Api.files a))
           (Api.queue a
            ++ [if use_premium
                then Api.PremiumTask job_id (Api.upload_path job_id (Api.upload_filename file))
                else Api.FreeTask job_id (Api.upload_path job_id (Api.upload_filename file))]).
Proof.
  unfold Api.create_job.
  destruct (verify_token credentials) as [ue|c d|x] eqn:Ev; try discriminate.
  destruct (Api.find_user (Api.users a) ue) as [user|] eqn:Eu; [|discriminate].
  destruct (Api.content_type file) as [ct|]; [|discriminate].
  destruct (strip_prefix "video/" ct); [|discriminate].
  destruct (Api.max_upload <? Z.of_nat (String.length (Api.content file)))%Z eqn:Es;
    [discriminate|].
  destruct (Api.app_jobs a !! job_id) eqn:Ej; [discriminate|].
  destruct (can_write _); [|discriminate].
  cbn [fst snd]. intros H. injection H as <-.
  apply Z.ltb_ge in Es.
  exists ue, user. repeat split; try assumption.
Qed.

Lemma run_task_row (rt : runtime) (w : Sys.world) (t : Api.task) (st : state)
    (job : Job) :
  jobs st !! task_job t = Some job ->
  exists res,
    jobs (snd (Api.run_task rt w t st)) !! task_job t
    = Some (finished_job rt (task_job t) (task_path t) job res).
Proof.
  intros Hjob. destruct t as [job_id path | job_id path]; cbn [task_job task_path] in *;
    cbn [Api.run_task].
  - rewrite (process_video_free_run rt w job_id path st job Hjob). cbn [snd].
    eexists. apply stored_lookup.
  - rewrite (process_video_premium_run rt w job_id path st job Hjob). cbn [snd].
    eexists. apply stored_lookup.
Qed.

(** X24: From upload to result.  When [create_job] accepts an upload, exactly one
    task is queued, of the kind [use_premium] asks for; it names the new job
    and the path at which the uploaded bytes were stored.  The job is shown
    to the uploader as PENDING; and once a worker has run the task, whatever
    the external tools did, the job is shown as COMPLETED or FAILED, under the
    same id and file name. *)
Theorem upload_to_result
    (verify_token : string -> Api.answer (option string)) (can_write : string -> bool)
    (rt : runtime) (w : Sys.world)
    (file : Api.UploadFile) (use_premium : bool) (credentials job_id : string)
    (a : Api.app) (r : Api.JobResponse) :
  fst (Api.create_job verify_token can_write file use_premium credentials job_id a)
    = Api.Response r ->
  let a1 := snd (Api.create_job verify_token can_write file use_premium credentials
                   job_id a) in
  exists t,
    Api.queue a1 = Api.queue a ++ [t]
    /\ task_job t = job_id
    /\ task_is_premium t = use_premium
    /\ Api.files a1 !! task_path t = Some (Api.content file)
    /\ Api.get_job verify_token job_id credentials a1 = Api.Response r
    /\ Api.r_status r = PENDING
    /\ exists r',
         Api.get_job verify_token job_id credentials
           (Api.with_jobs a1 (snd (Api.run_task rt w t (Api.worker_state a1))))
         = Api.Response r'
         /\ Api.r_id r' = Api.r_id r
         /\ Api.r_filename r' = Api.r_filename r
         /\ (Api.r_status r' = COMPLETED \/ Api.r_status r' = FAILED).
Proof.
  intros Hacc a1. subst a1.
  destruct (create_job_accepted _ _ _ _ _ _ _ _ Hacc)
    as [ue [user [Hv [Hu [Hfresh [Hsize [-> ->]]]]]]].
  set (path := Api.upload_path job_id (Api.upload_filename file)).
  set (job := mkJob (Api.u_id user) (Api.upload_filename file)
                (Z.of_nat (String.length (Api.content file))) use_premium PENDING None None).
  exists (if use_premium then Api.PremiumTask job_id path else Api.FreeTask job_id path).
  cbn [Api.queue Api.files Api.users Api.app_jobs].
  split; [reflexivity|].
  split; [destruct use_premium; reflexivity|].
  split; [destruct use_premium; reflexivity|].
  split; [destruct use_premium; apply lookup_insert_eq|].
  split.
  { unfold Api.get_job. cbn [Api.users Api.app_jobs].
    rewrite Hv, Hu, lookup_insert_eq. cbn [user_id job].
    now rewrite Z.eqb_refl. }
  split; [reflexivity|].
  set (a1 := Api.mkApp (Api.users a) (<[job_id := job]> (Api.app_jobs a))
               (<[path := Api.content file]> (Api.files a))
               (Api.queue a ++ [if use_premium then Api.PremiumTask job_id path
                                else Api.FreeTask job_id path])).
  set (t := if use_premium then Api.PremiumTask job_id path else Api.FreeTask job_id path).
  assert (Ht : task_job t = job_id) by (subst t; destruct use_premium; reflexivity).
  assert (Hrow : jobs (Api.worker_state a1) !! task_job t = Some job)
    by (rewrite Ht; apply lookup_insert_eq).
  destruct (run_task_row rt w t (Api.worker_state a1) job Hrow) as [res Hj].
  rewrite Ht in Hj.
  exists (Api.response_of job_id
            (finished_job rt job_id (task_path t) job res)).
  split.
  { unfold Api.get_job, Api.with_jobs. cbn [Api.users Api.app_jobs a1].
    rewrite Hv, Hu, Hj. destruct res; cbn; now rewrite Z.eqb_refl. }
  split; [reflexivity|].
  split; [destruct res; reflexivity|].
  destruct res; [left | right]; reflexivity.
Qed.

Lemma upload_to_result_witness :
  exists r',
    Api.get_job example_verify_token "j9" "ann@example.org"
      (Api.with_jobs
         (snd (Api.create_job example_verify_token (fun _ => true) example_upload false
                 "ann@example.org" "j9" example_app))
         (snd (Api.run_task example_runtime
                 (Examples.world_of "30.0" (Completed 0 Examples.trace_2_4)
                    (Completed 0 "") (Ok []))
                 (Api.FreeTask "j9" "uploads/j9/in.mp4")
                 (Api.worker_state
                    (snd (Api.create_job example_verify_token (fun _ => true) example_upload
                            false "ann@example.org" "j9" example_app))))))
    = Api.Response r'
    /\ (Api.r_status r' = COMPLETED \/ Api.r_status r' = FAILED).
Proof.
  destruct (upload_to_result example_verify_token (fun _ => true) example_runtime
              (Examples.world_of "30.0" (Completed 0 Examples.trace_2_4)
                 (Completed 0 "") (Ok []))
              example_upload false "ann@example.org" "j9" example_app
              (Api.mkJobResponse "j9" "in.mp4" PENDING false None None))
    as [t [Hq [_ [_ [_ [_ [_ [r' [Hg [_ [_ Hs]]]]]]]]]]].
  - reflexivity.
  - assert (Ht : t = Api.FreeTask "j9" "uploads/j9/in.mp4").
    { change ([] ++ [Api.FreeTask "j9" "uploads/j9/in.mp4"] = [] ++ [t]) in Hq.
      apply app_inj_tail in Hq. symmetry. apply Hq. }
    subst t. exists r'. split; [exact Hg | exact Hs].
Defined.

(** ** Where the two parsers part ways *)

Lemma remsi_parse_pairs_then (pairs : list ((string * string) * interval)) :
  forallb paired_lines pairs = true ->
  forall rest segs,
    RemsiProcessor.parse_lines (trace_lines pairs ++ rest) None segs
    = RemsiProcessor.parse_lines rest None (segs ++ map snd pairs).
Proof.
  induction pairs as [|[[ls le] [s e]] r IH]; intros H rest segs.
  - simpl. now rewrite app_nil_r.
  - cbn [forallb] in H. apply andb_true_iff in H. destruct H as [Hp Hr].
    unfold paired_lines in Hp.
    repeat (apply andb_true_iff in Hp; destruct Hp as [Hp ?]).
    repeat match goal with
           | H : same_time _ _ = true |- _ => apply same_time_eq in H
           | H : negb _ = true |- _ => apply negb_true_iff in H
           end.
    unfold remsi_time_of in *.
    change (trace_lines (((ls, le), (s, e)) :: r) ++ rest)
      with (ls :: le :: (trace_lines r ++ rest)).
    cbn [RemsiProcessor.parse_lines].
    change RemsiProcessor.silence_start_pattern with "silence_start: ".
    change RemsiProcessor.silence_end_pattern with "silence_end: ".
    destruct (RemsiProcessor.re_search "silence_start: " ls) as [g|]; [|discriminate].
    rewrite (float_of_parse g s) by assumption. cbv beta iota delta [Ok].
    assert (Hno : RemsiProcessor.re_search "silence_start: " le = None)
      by (apply (re_search_absent "silence_start" ": " le); assumption).
    rewrite Hno.
    destruct (RemsiProcessor.re_search "silence_end: " le) as [g'|]; [|discriminate].
    rewrite (float_of_parse g' e) by assumption. cbv beta iota delta [Ok].
    rewrite (IH Hr). rewrite <- app_assoc. reflexivity.
Qed.

Lemma last_start_cons (p : (string * string) * interval)
    (r : list ((string * string) * interval)) (st : option Q) :
  last_start (p :: r) st = last_start r (Some (fst (snd p))).
Proof.
  unfold last_start. cbn [rev].
  destruct (rev r) as [|[x [s e]] l] eqn:E; cbn [app].
  - destruct p as [x [s e]]. reflexivity.
  - reflexivity.
Qed.

Lemma vp_parse_pairs_then (pairs : list ((string * string) * interval)) :
  forallb paired_lines pairs = true ->
  forall rest start_time segs,
    VideoProcessor.parse_lines (trace_lines pairs ++ rest) start_time segs
    = VideoProcessor.parse_lines rest (last_start pairs start_time)
        (segs ++ map snd pairs).
Proof.
  induction pairs as [|[[ls le] [s e]] r IH]; intros H rest st segs.
  - simpl. now rewrite app_nil_r.
  - cbn [forallb] in H. apply andb_true_iff in H. destruct H as [Hp Hr].
    unfold paired_lines in Hp.
    repeat (apply andb_true_iff in Hp; destruct Hp as [Hp ?]).
    repeat match goal with
           | H : same_time _ _ = true |- _ => apply same_time_eq in H
           | H : negb _ = true |- _ => apply negb_true_iff in H
           end.
    unfold vp_time_of in *.
    change (trace_lines (((ls, le), (s, e)) :: r) ++ rest)
      with (ls :: le :: (trace_lines r ++ rest)).
    cbn [VideoProcessor.parse_lines].
    match goal with H : contains "silence_start" ls = true |- _ => rewrite H end.
    destruct (index (split_str "silence_start: " ls) 1) as [a|]; [|discriminate].
    destruct (index (split_ws a) 0) as [tok|]; [|discriminate].
    rewrite (float_of_parse tok s) by assumption. cbv beta iota delta [Ok].
    match goal with H : contains "silence_start" le = false |- _ => rewrite H end.
    match goal with H : contains "silence_end" le = true |- _ => rewrite H end.
    destruct (index (split_str "silence_end: " le) 1) as [a'|]; [|discriminate].
    destruct (index (split_ws a') 0) as [tok'|]; [|discriminate].
    rewrite (float_of_parse tok' e) by assumption. cbv beta iota delta [Ok].
    rewrite (IH Hr), last_start_cons. cbn [fst snd]. rewrite <- app_assoc. reflexivity.
Qed.

Lemma split_join_snoc (lines : list string) (x : string) :
  Forall (fun l => has_char newline l = false) lines ->
  has_char newline x = false ->
  split_char newline (join (String newline "") (lines ++ [x])) = lines ++ [x].
Proof.
  intros Hl Hx. apply split_join.
  - destruct lines; discriminate.
  - apply List.Forall_app. split; [exact Hl | now constructor].
Qed.

(** X5: The two parsers disagree on an end marker that follows a closed silence
    without a new start marker: [RemsiProcessor] passes over it, while
    [VideoProcessor], whose [start_time] still holds the last start, emits one
    more interval from that start to the new end. *)
Theorem parsers_disagree_on_repeated_end
    (pairs : list ((string * string) * interval)) (le : string) (e : Q) :
  pairs <> [] ->
  forallb paired_lines pairs = true ->
  lone_end_line le e = true ->
  exists s,
    last_start pairs None = Some s
    /\ RemsiProcessor._parse_silence_output
         (join (String newline "") (trace_lines pairs ++ [le]))
       = Ok (map snd pairs)
    /\ VideoProcessor._parse_silence_output
         (join (String newline "") (trace_lines pairs ++ [le]))
       = Ok (map snd pairs ++ [(s, e)]).
Proof.
  intros Hne Hp Hl.
  unfold lone_end_line in Hl.
  repeat (apply andb_true_iff in Hl; destruct Hl as [Hl ?]).
  repeat match goal with
         | H : same_time _ _ = true |- _ => apply same_time_eq in H
         | H : negb _ = true |- _ => apply negb_true_iff in H
         end.
  assert (Hs : exists s, last_start pairs None = Some s).
  { unfold last_start. destruct (rev pairs) as [|[x [s e']] l] eqn:E.
    - apply (f_equal (@rev _)) in E. rewrite rev_involutive in E. now elim Hne.
    - eauto. }
  destruct Hs as [s Hs]. exists s. split; [exact Hs|].
  unfold RemsiProcessor._parse_silence_output, VideoProcessor._parse_silence_output.
  rewrite split_join_snoc by (try apply trace_lines_free; assumption).
  rewrite (remsi_parse_pairs_then pairs Hp), (vp_parse_pairs_then pairs Hp), Hs.
  cbn [app RemsiProcessor.parse_lines VideoProcessor.parse_lines].
  change RemsiProcessor.silence_start_pattern with "silence_start: ".
  change RemsiProcessor.silence_end_pattern with "silence_end: ".
  assert (Hno : RemsiProcessor.re_search "silence_start: " le = None)
    by (apply (re_search_absent "silence_start" ": " le); assumption).
  rewrite Hno. unfold remsi_time_of, vp_time_of in *.
  destruct (RemsiProcessor.re_search "silence_end: " le) as [g|]; [|discriminate].
  split; [reflexivity|].
  match goal with H : contains "silence_start" le = false |- _ => rewrite H end.
  match goal with H : contains "silence_end" le = true |- _ => rewrite H end.
  destruct (index (split_str "silence_end: " le) 1) as [a'|]; [|discriminate].
  destruct (index (split_ws a') 0) as [tok'|]; [|discriminate].
  rewrite (float_of_parse tok' e) by assumption. reflexivity.
Qed.

Lemma parsers_disagree_witness :
  exists s,
    RemsiProcessor._parse_silence_output
      (join (String newline "")
         (trace_lines [(("silence_start: 2.0", "silence_end: 4.0"), (2, 4)%Q)]
          ++ ["silence_end: 9"]))
    = Ok [(2, 4)%Q]
    /\ VideoProcessor._parse_silence_output
         (join (String newline "")
            (trace_lines [(("silence_start: 2.0", "silence_end: 4.0"), (2, 4)%Q)]
             ++ ["silence_end: 9"]))
       = Ok ([(2, 4)%Q] ++ [(s, 9%Q)]).
Proof.
  destruct (parsers_disagree_on_repeated_end
              [(("silence_start: 2.0", "silence_end: 4.0"), (2, 4)%Q)]
              "silence_end: 9" 9) as [s [_ [H1 H2]]].
  - discriminate.
  - reflexivity.
  - reflexivity.
  - exists s. split; [exact H1 | exact H2].
Defined.

(** ** The planner on any input *)

Lemma gaps_shape (D : Q) (l : list interval) :
  forall c,
    Forall (fun iv => (fst iv < snd iv)%Q
                      /\ (fst iv = c \/ In (fst iv) (map snd l))
                      /\ (snd iv = D \/ In (snd iv) (map fst l)))
      (Spec.gaps c l D)
    /\ (length (Spec.gaps c l D) <= length l + 1)%nat.
Proof.
  induction l as [|[s e] r IH]; intros c.
  - cbn [Spec.gaps]. destruct (Qltb c D) eqn:E; (split; [|cbn; lia]).
    + constructor; [|constructor]. cbn. apply Qltb_lt in E. auto.
    + constructor.
  - cbn [Spec.gaps]. destruct (IH e) as [IH1 IH2]. split.
    + apply List.Forall_app. split.
      * destruct (Qltb c s) eqn:E; [|constructor].
        constructor; [|constructor]. cbn. apply Qltb_lt in E. auto.
      * eapply List.Forall_impl; [|exact IH1].
        intros [a b]. cbn. intros [H1 [H2 H3]]. split; [exact H1|]. split.
        -- right. destruct H2 as [->|H2]; [now left | now right].
        -- destruct H3 as [H3|H3]; [now left | right; now right].
    + rewrite length_app. destruct (Qltb c s); cbn [length] in *;
        unfold interval in *; lia.
Qed.

(** X6: Whatever list the planner is given, in shape or not: every segment it
    trims is non-empty, starts at [0] or at the end of a silence and ends at
    the start of a silence or at the duration; and there is at most one
    segment more than there are silences. *)
Theorem planner_segments_on_any_input (silence : list interval) (D : Q) :
  Forall (fun iv => (fst iv < snd iv)%Q
                    /\ (fst iv = 0%Q \/ In (fst iv) (map snd silence))
                    /\ (snd iv = D \/ In (snd iv) (map fst silence)))
    (RemsiProcessor.non_silent_segments silence D)
  /\ (length (RemsiProcessor.non_silent_segments silence D) <= length silence + 1)%nat.
Proof.
  rewrite non_silent_segments_gaps. apply gaps_shape.
Qed.

(** ** The graph is wired by index *)

(** X9: The graph is wired by position: the [i]-th keep interval is trimmed by
    the two filters at places [2i] and [2i + 1], which carry its own start
    and end and are labelled [v{i}] and [a{i}]; the two concatenations come
    right after the trims and take the labels [v0 .. v{n-1}] and
    [a0 .. a{n-1}] in order, with [n] the number of keep intervals. *)
Theorem graph_is_wired_by_index (rt : runtime) (segments : list interval)
    (i : nat) (s e : Q) :
  nth_error segments i = Some (s, e) ->
  let filters := RemsiProcessor.segment_filters rt segments in
  let n := length segments in
  nth_error filters (2 * i)
    = Some ("[0:v]trim=start=" +:+ repr_float rt s +:+ ":end=" +:+ repr_float rt e
              +:+ ",setpts=PTS-STARTPTS[v" +:+ str_of_nat i +:+ "]")
  /\ nth_error filters (2 * i + 1)
     = Some ("[0:a]atrim=start=" +:+ repr_float rt s +:+ ":end=" +:+ repr_float rt e
               +:+ ",asetpts=PTS-STARTPTS[a" +:+ str_of_nat i +:+ "]")
  /\ nth_error filters (2 * n)
     = Some (join "" (map (fun j => "[v" +:+ str_of_nat j +:+ "]") (seq 0 n))
               +:+ "concat=n=" +:+ str_of_nat n +:+ ":v=1:a=0[outv]")
  /\ nth_error filters (2 * n + 1)
     = Some (join "" (map (fun j => "[a" +:+ str_of_nat j +:+ "]") (seq 0 n))
               +:+ "concat=n=" +:+ str_of_nat n +:+ ":v=0:a=1[outa]").
Proof.
  intros H filters n. subst filters n. unfold RemsiProcessor.segment_filters.
  assert (Hi : (i < length segments)%nat) by (apply nth_error_Some; congruence).
  destruct (trim_filters_nth rt segments 0 i s e H) as [H1 H2]. cbn [plus] in H1, H2.
  pose proof (trim_filters_length rt segments 0) as Hlen.
  split; [|split; [|split]].
  - rewrite nth_error_app1 by lia. exact H1.
  - rewrite nth_error_app1 by lia. exact H2.
  - rewrite nth_error_app2 by lia. rewrite Hlen, Nat.sub_diag. reflexivity.
  - rewrite nth_error_app2 by lia. rewrite Hlen.
    replace (2 * length segments + 1 - 2 * length segments)%nat with 1%nat by lia.
    reflexivity.
Qed.

Lemma graph_is_wired_by_index_witness :
  nth_error (RemsiProcessor.segment_filters example_runtime [(0, 2); (4, 10)]%Q) 2
  = Some "[0:v]trim=start=4.0:end=10.0,setpts=PTS-STARTPTS[v1]".
Proof.
  apply (graph_is_wired_by_index example_runtime [(0, 2); (4, 10)]%Q 1 4 10).
  reflexivity.
Defined.

(** ** Registration and login *)

Lemma find_user_none (us : list Api.User) (e : string) :
  Api.find_user us (Some e) = None -> ~ In e (map Api.email us).
Proof.
  cbn [Api.find_user]. induction us as [|u r IH]; cbn [List.find map In]; [tauto|].
  destruct (String.eqb (Api.email u) e) eqn:E; [discriminate|].
  intros H [Hu|Hr]; [|now apply IH].
  apply String.eqb_neq in E. congruence.
Qed.

Lemma find_user_some (us : list Api.User) (e : string) (u : Api.User) :
  Api.find_user us (Some e) = Some u -> In e (map Api.email us) /\ Api.email u = e.
Proof.
  cbn [Api.find_user]. induction us as [|u' r IH]; cbn [List.find map In]; [discriminate|].
  destruct (String.eqb (Api.email u') e) eqn:E.
  - intros H. injection H as <-. apply String.eqb_eq in E. auto.
  - intros H. destruct (IH H). auto.
Qed.

Lemma find_user_snoc (us : list Api.User) (u : Api.User) :
  Api.find_user us (Some (Api.email u)) = None ->
  Api.find_user (us ++ [u]) (Some (Api.email u)) = Some u.
Proof.
  cbn [Api.find_user]. induction us as [|u' r IH]; cbn [List.find app].
  - now rewrite String.eqb_refl.
  - destruct (String.eqb (Api.email u') (Api.email u)); [discriminate | exact IH].
Qed.

(** X25: Registration keeps the addresses of the users table distinct: an address
    that is taken is refused with status 400 and nothing is stored, a new
    address adds one user.  The password itself is never stored, only what
    [get_password_hash] makes of it. *)
Theorem register_keeps_addresses_distinct
    (get_password_hash : string -> string) (create_access_token : string -> string)
    (user_data : ApiAuth.UserCreate) (new_id : Z) (us : list Api.User) :
  List.NoDup (map Api.email us) ->
  let r := ApiAuth.register get_password_hash create_access_token user_data new_id us in
  List.NoDup (map Api.email (snd r))
  /\ (In (ApiAuth.uc_email user_data) (map Api.email us) ->
      r = (Api.HTTPException 400 "Email already registered", us))
  /\ (~ In (ApiAuth.uc_email user_data) (map Api.email us) ->
      map Api.email (snd r) = map Api.email us ++ [ApiAuth.uc_email user_data]
      /\ map Api.hashed_password (snd r)
         = map Api.hashed_password us
           ++ [get_password_hash (ApiAuth.uc_password user_data)]).
Proof.
  intros Hnd r. subst r. unfold ApiAuth.register.
  destruct (Api.find_user us (Some (ApiAuth.uc_email user_data))) as [u|] eqn:E.
  - cbn [snd]. split; [exact Hnd|]. split; [reflexivity|].
    intros Hn. apply find_user_some in E. tauto.
  - cbn [snd]. apply find_user_none in E. rewrite !map_app. cbn [map Api.email].
    split; [|split].
    + apply List.NoDup_rev in Hnd.
      rewrite <- (rev_involutive (map Api.email us ++ [ApiAuth.uc_email user_data])).
      apply List.NoDup_rev. rewrite rev_app_distr. cbn [rev app].
      constructor; [|exact Hnd]. now rewrite <- in_rev.
    + tauto.
    + intros _. split; reflexivity.
Qed.

Lemma register_keeps_addresses_distinct_witness :
  ApiAuth.register (fun p => "h:" +:+ p) (fun e => "t:" +:+ e)
    (ApiAuth.mkUserCreate "ann@example.org" "pw" None) 8 [example_user]
  = (Api.HTTPException 400 "Email already registered", [example_user]).
Proof.
  destruct (register_keeps_addresses_distinct (fun p => "h:" +:+ p) (fun e => "t:" +:+ e)
              (ApiAuth.mkUserCreate "ann@example.org" "pw" None) 8 [example_user])
    as [_ [H _]].
  - repeat constructor. cbn. tauto.
  - apply H. cbn. now left.
Defined.

(** X26: Who has registered can log in: after a registration that was accepted,
    logging in with the same address and password answers with the same user
    id and token, provided [verify_password] accepts a password against its
    own hash; and an address nobody registered is refused with status 401,
    like a wrong password. *)
Theorem registered_user_can_log_in
    (get_password_hash : string -> string) (verify_password : string -> string -> bool)
    (create_access_token : string -> string)
    (user_data : ApiAuth.UserCreate) (new_id : Z) (us : list Api.User)
    (r : ApiAuth.UserResponse) :
  verify_password (ApiAuth.uc_password user_data)
    (get_password_hash (ApiAuth.uc_password user_data)) = true ->
  fst (ApiAuth.register get_password_hash create_access_token user_data new_id us)
    = Api.Response r ->
  ApiAuth.login verify_password create_access_token
    (ApiAuth.uc_email user_data) (ApiAuth.uc_password user_data)
    (snd (ApiAuth.register get_password_hash create_access_token user_data new_id us))
  = Api.Response r
  /\ (forall password,
        ApiAuth.login verify_password create_access_token
          (ApiAuth.uc_email user_data) password us
        = Api.HTTPException 401 "Invalid credentials").
Proof.
  intros Hv. unfold ApiAuth.register.
  destruct (Api.find_user us (Some (ApiAuth.uc_email user_data))) as [u|] eqn:E;
    [discriminate|].
  cbn [fst snd]. intros H. injection H as <-. split.
  - unfold ApiAuth.login.
    pose proof (find_user_snoc us
                  (Api.mkUser new_id (ApiAuth.uc_email user_data)
                     (get_password_hash (ApiAuth.uc_password user_data))
                     (ApiAuth.uc_full_name user_data) true) E) as Hf.
    cbn [Api.email] in Hf. rewrite Hf.
    cbn [Api.hashed_password]. rewrite Hv. reflexivity.
  - intros password. unfold ApiAuth.login. now rewrite E.
Qed.

Lemma registered_user_can_log_in_witness :
  ApiAuth.login (fun p h => String.eqb h ("h:" +:+ p)) (fun e => "t:" +:+ e)
    "bob@example.org" "pw"
    (snd (ApiAuth.register (fun p => "h:" +:+ p) (fun e => "t:" +:+ e)
            (ApiAuth.mkUserCreate "bob@example.org" "pw" None) 8 [example_user]))
  = Api.Response (ApiAuth.mkUserResponse 8 "bob@example.org" None "t:bob@example.org").
Proof.
  apply (registered_user_can_log_in (fun p => "h:" +:+ p)
           (fun p h => String.eqb h ("h:" +:+ p)) (fun e => "t:" +:+ e)
           (ApiAuth.mkUserCreate "bob@example.org" "pw" None) 8 [example_user]).
  - reflexivity.
  - reflexivity.
Defined.
